(** * furs-client-ts: fiscal code construction and certificate-bound signing

    A shallow embedding of the pure core of the FURS client
    ([src/utils/jwt.ts], [src/utils/codeFormatter.ts],
    [src/utils/certificate.ts], [src/services/codeGenerator.ts]) and the
    properties of the 60-digit fiscal payload, its Code128 split, the
    authorization token and the certificate identity string.

    JavaScript strings are sequences of UTF-16 code units, numbers that the
    code handles are integers or NaN, and an exception is an explicit
    [Throw] completion. *)

From Stdlib Require Import Ascii String.
From Stdlib Require Import ZArith List Lia Bool Permutation.
Import ListNotations.
Open Scope Z_scope.

(* ================================================================== *)
(** * Part I: the model *)
(* ================================================================== *)

(** ** JavaScript values used by the code *)

Module JS.

(** A UTF-16 code unit. *)
Abbreviation char := Z (only parsing).

(** A JavaScript string: its code units in order. *)
Abbreviation jsstring := (list Z) (only parsing).

(** A string literal of the source (ASCII text). *)
Definition lit (s : string) : jsstring :=
  map (fun a => Z.of_N (N_of_ascii a)) (list_ascii_of_string s).

(** [s.length] *)
Definition length (s : jsstring) : Z := Z.of_nat (List.length s).

(** A thrown value: an [Error] object with its constructor name and message. *)
Record Error := mkError { name : string; message : jsstring }.

(** The outcome of evaluating an expression that may throw. *)
Inductive completion (A : Type) : Type :=
| Return (a : A)
| Throw (e : Error).
Arguments Return {A} a.
Arguments Throw {A} e.

Definition bind {A B} (c : completion A) (k : A -> completion B) : completion B :=
  match c with
  | Return a => k a
  | Throw e => Throw e
  end.

(** [try { body } catch (error) { handler(error) }] *)
Definition try_catch {A} (body : completion A) (handler : Error -> completion A)
  : completion A :=
  match body with
  | Return a => Return a
  | Throw e => handler e
  end.

(** The numbers the code computes with: integers, and NaN (from
    [parseInt] of a non-digit or from the fields of an invalid [Date]). *)
Inductive number : Type :=
| Num (z : Z)
| NaN.

(** [a + b] on numbers. *)
Definition add (a b : number) : number :=
  match a, b with
  | Num x, Num y => Num (x + y)
  | _, _ => NaN
  end.

(** [a % b] on numbers: the remainder has the sign of the dividend. *)
Definition rem (a b : number) : number :=
  match a, b with
  | Num x, Num y => if y =? 0 then NaN else Num (Z.rem x y)
  | _, _ => NaN
  end.

(** The digit characters of [toString(radix)]: 0-9 then a-z. *)
Definition digit_char (d : Z) : char :=
  if d <? 10 then 48 + d else 87 + d.

(** The digits of a non-negative integer, most significant first; the
    loop divides by the radix until the quotient is zero. *)
Fixpoint to_digits (radix : Z) (fuel : nat) (n : Z) (acc : jsstring) : jsstring :=
  match fuel with
  | O => acc
  | S fuel' =>
      let acc' := digit_char (n mod radix) :: acc in
      if n / radix =? 0 then acc' else to_digits radix fuel' (n / radix) acc'
  end.

(** Enough iterations for every radix from 2 up: one per binary digit. *)
Definition digits_fuel (n : Z) : nat := S (Z.to_nat (Z.log2 n)).

(** [n.toString(radix)] for an integer [n] (a BigInt, or a Number below
    1e21, which prints without exponent). *)
Definition int_toString (n radix : Z) : jsstring :=
  if n <? 0 then 45 :: to_digits radix (digits_fuel (- n)) (- n) []
  else to_digits radix (digits_fuel n) n [].

(** [x.toString()] for a number. *)
Definition number_toString (x : number) : jsstring :=
  match x with
  | Num z => int_toString z 10
  | NaN => lit "NaN"
  end.

(** The relative index of [slice]: negative counts from the end, and
    the result is clamped to [0, len]. *)
Definition clamp_index (len i : Z) : Z :=
  if i <? 0 then Z.max (len + i) 0 else Z.min i len.

(** [s.slice(start, end)] *)
Definition slice (s : jsstring) (start end_ : Z) : jsstring :=
  let len := length s in
  let from := clamp_index len start in
  let to := clamp_index len end_ in
  if to <=? from then []
  else firstn (Z.to_nat (to - from)) (skipn (Z.to_nat from) s).

(** [s.slice(start)]: the end defaults to the length. *)
Definition slice_from (s : jsstring) (start : Z) : jsstring :=
  slice s start (length s).

(** [s.repeat(count)] for a count that is not negative. *)
Definition repeat (s : jsstring) (count : Z) : jsstring :=
  concat (List.repeat s (Z.to_nat count)).

(** [s.padStart(targetLength, padString)]: the filler is the pad string
    repeated and cut to the missing length. *)
Definition padStart (s : jsstring) (targetLength : Z) (padString : jsstring) : jsstring :=
  let len := length s in
  if targetLength <=? len then s
  else match padString with
       | [] => s
       | _ =>
           let fillLen := Z.to_nat (targetLength - len) in
           firstn fillLen (concat (List.repeat padString fillLen)) ++ s
       end.

(** [s.replace(/c/g, by)] for a pattern that is one literal character. *)
Definition replace_char (c : char) (by_ : jsstring) (s : jsstring) : jsstring :=
  flat_map (fun x => if x =? c then by_ else [x]) s.

(** [s.includes(c)] for a one-character needle. *)
Definition includes_char (c : char) (s : jsstring) : bool :=
  existsb (fun x => x =? c) s.

(** [parts.join(sep)] *)
Fixpoint join (sep : jsstring) (parts : list jsstring) : jsstring :=
  match parts with
  | [] => []
  | [p] => p
  | p :: rest => p ++ sep ++ join sep rest
  end.

(** [s.split(sep)] for a one-character separator: the pieces between
    the separators, one more than there are separators. *)
Fixpoint split_char (sep : char) (s : jsstring) : list jsstring :=
  match s with
  | [] => [[]]
  | c :: rest =>
      if c =? sep then [] :: split_char sep rest
      else match split_char sep rest with
           | [] => [[c]]
           | p :: ps => (c :: p) :: ps
           end
  end.

(** [a === b] on strings. *)
Fixpoint str_eqb (a b : jsstring) : bool :=
  match a, b with
  | [], [] => true
  | x :: a', y :: b' => (x =? y) && str_eqb a' b'
  | _, _ => false
  end.

(** The character class [\d]. *)
Definition is_digit (c : char) : bool := (48 <=? c) && (c <=? 57).

(** The character class [[0-9a-fA-F]]. *)
Definition is_hex_digit (c : char) : bool :=
  is_digit c || ((97 <=? c) && (c <=? 102)) || ((65 <=? c) && (c <=? 70)).

(** The character class [\s]: the white space and line terminators of
    ECMAScript. *)
Definition is_space (c : char) : bool :=
  ((9 <=? c) && (c <=? 13)) || (c =? 32) || (c =? 160) || (c =? 5760)
  || ((8192 <=? c) && (c <=? 8202)) || (c =? 8232) || (c =? 8233)
  || (c =? 8239) || (c =? 8287) || (c =? 12288) || (c =? 65279).

(** [s.toLowerCase()] on the ASCII letters. Characters outside ASCII are
    left as they are: none of them lower-cases to a hexadecimal digit,
    which is all the code asks of the result. *)
Definition toLowerCase (s : jsstring) : jsstring :=
  map (fun c => if (65 <=? c) && (c <=? 90) then c + 32 else c) s.

(** [parseInt(c, 10)] of a one-character string. *)
Definition parseInt_char (c : char) : number :=
  if is_digit c then Num (c - 48) else NaN.

End JS.

Import JS.
Notation "x <- c ;; k" := (JS.bind c (fun x => k))
  (at level 61, c at next level, right associativity).

(** ** [Date] objects *)

Module JSDate.

(** The calendar fields of an instant as observed in the local time zone:
    what [getFullYear], [getMonth] (0 to 11), [getDate], [getHours],
    [getMinutes] and [getSeconds] return. *)
Record fields := mkFields {
  fullYear : Z;
  month : Z;
  date : Z;
  hours : Z;
  minutes : Z;
  seconds : Z
}.

(** A [Date] object holds a time value or is the invalid date, whose
    getters all return NaN. *)
Inductive Date : Type :=
| Valid (f : fields)
| Invalid.

Definition getter (proj : fields -> Z) (d : Date) : number :=
  match d with
  | Valid f => Num (proj f)
  | Invalid => NaN
  end.

Definition getFullYear := getter fullYear.
Definition getMonth := getter month.
Definition getDate := getter date.
Definition getHours := getter hours.
Definition getMinutes := getter minutes.
Definition getSeconds := getter seconds.

(** The ranges of the fields of a valid date (the year range is that of
    the time values of ECMAScript). *)
Definition fields_in_range (f : fields) : Prop :=
  -271821 <= fullYear f <= 275760 /\ 0 <= month f <= 11 /\ 1 <= date f <= 31
  /\ 0 <= hours f <= 23 /\ 0 <= minutes f <= 59 /\ 0 <= seconds f <= 59.

(** An argument of type [Date | string]. *)
Inductive arg : Type :=
| OfDate (d : Date)
| OfString (s : jsstring).

End JSDate.

(** ** [src/utils/codeFormatter.ts] *)

Module CodeFormatter.

Import JSDate.

(** The value of a hexadecimal digit. *)
Definition hex_value (c : char) : Z :=
  if is_digit c then c - 48
  else if (97 <=? c) && (c <=? 102) then c - 87
  else c - 55.

(** [BigInt('0x' + digits)]: the digits read in base 16; a SyntaxError
    when there is no digit or a character is not a hexadecimal digit. *)
Definition BigInt_of_hex (digits : jsstring) : completion Z :=
  match digits with
  | [] => Throw (mkError "SyntaxError" (lit "Cannot convert 0x to a BigInt"))
  | _ =>
      if forallb is_hex_digit digits
      then Return (fold_left (fun acc c => acc * 16 + hex_value c) digits 0)
      else Throw (mkError "SyntaxError"
                    (lit "Cannot convert 0x" ++ digits ++ lit " to a BigInt"))
  end.

(** [hexToDecimalPadded(hex, targetLength = 39)] *)
Definition hexToDecimalPadded (hex : jsstring) (targetLength : Z) : completion jsstring :=
  let cleanHex := toLowerCase (filter (fun c => negb (is_space c)) hex) in
  n <- BigInt_of_hex cleanHex ;;
  let decimal := int_toString n 10 in
  Return (padStart decimal targetLength (lit "0")).

Section WithDateParser.

(** [new Date(string)]: the parse depends on the engine and on the local
    time zone, so it is a parameter of the model. *)
Variable Date_parse : jsstring -> Date.

(** [formatDateForCode(date)] *)
Definition formatDateForCode (date : arg) : jsstring :=
  let dateObj := match date with OfString s => Date_parse s | OfDate d => d end in
  let year := slice_from (number_toString (getFullYear dateObj)) (-2) in
  let month := padStart (number_toString (add (getMonth dateObj) (Num 1))) 2 (lit "0") in
  let day := padStart (number_toString (getDate dateObj)) 2 (lit "0") in
  let hours := padStart (number_toString (getHours dateObj)) 2 (lit "0") in
  let minutes := padStart (number_toString (getMinutes dateObj)) 2 (lit "0") in
  let seconds := padStart (number_toString (getSeconds dateObj)) 2 (lit "0") in
  year ++ month ++ day ++ hours ++ minutes ++ seconds.

(** [calculateControlCharacter(dataString)] *)
Definition calculateControlCharacter (dataString : jsstring) : jsstring :=
  let sum := fold_left (fun acc digit => add acc (parseInt_char digit)) dataString (Num 0) in
  number_toString (rem sum (Num 10)).

(** [formatCodeData(zoi, taxNumber, issueDateTime)] *)
Definition formatCodeData (zoi : jsstring) (taxNumber : number) (issueDateTime : arg)
  : completion jsstring :=
  zoiDecimal <- hexToDecimalPadded zoi 39 ;;
  let taxNumberStr := padStart (number_toString taxNumber) 8 (lit "0") in
  let dateTimeStr := formatDateForCode issueDateTime in
  let dataWithoutControl := zoiDecimal ++ taxNumberStr ++ dateTimeStr in
  let controlChar := calculateControlCharacter dataWithoutControl in
  Return (dataWithoutControl ++ controlChar).

End WithDateParser.

(** [a < b] and [a > b] on numbers: false when an operand is NaN. *)
Definition lt (a b : number) : bool :=
  match a, b with
  | Num x, Num y => x <? y
  | _, _ => false
  end.

(** The rule table of the [switch]: per-part length and prefix. *)
Definition rule (parts : number) : option (Z * jsstring) :=
  match parts with
  | Num 2 => Some (30, lit "4")
  | Num 3 => Some (20, lit "4")
  | Num 4 => Some (15, lit "44")
  | Num 5 => Some (12, lit "4")
  | Num 6 => Some (10, lit "4")
  | _ => None
  end.

(** The [for] loop of [splitForCode128]: [count] iterations are left, [i]
    is the loop variable and [result] the array pushed to. *)
Fixpoint split_loop (codeData prefix : jsstring) (actualDataPerPart : Z)
  (count : nat) (i : Z) (result : list jsstring) : list jsstring :=
  match count with
  | O => result
  | S count' =>
      let sequenceNumber := int_toString (i + 1) 10 in
      let startIdx := i * actualDataPerPart in
      let endIdx := startIdx + actualDataPerPart in
      let dataPart := slice codeData startIdx endIdx in
      split_loop codeData prefix actualDataPerPart count' (i + 1)
        (result ++ [prefix ++ sequenceNumber ++ dataPart])
  end.

(** The number of iterations of [for (let i = 0; i < parts; i++)]. *)
Definition iterations (parts : number) : nat :=
  match parts with
  | Num p => Z.to_nat p
  | NaN => O
  end.

(** [splitForCode128(codeData, parts)] *)
Definition splitForCode128 (codeData : jsstring) (parts : number)
  : completion (list jsstring) :=
  if lt parts (Num 2) || lt (Num 6) parts then
    Throw (mkError "Error" (lit "Number of parts must be between 2 and 6"))
  else if negb (length codeData =? 60) then
    Throw (mkError "Error" (lit "Code data must be exactly 60 digits"))
  else
    match rule parts with
    | None => Throw (mkError "Error" (lit "Invalid number of parts"))
    | Some (dataPerPart, prefix) =>
        let prefixLength := length prefix + 1 in
        let actualDataPerPart := dataPerPart - prefixLength in
        Return (split_loop codeData prefix actualDataPerPart (iterations parts) 0 [])
    end.

(** [validateZOI(zoi)]: the test of [/^[0-9a-fA-F]{32}$/]. *)
Definition validateZOI (zoi : jsstring) : bool :=
  (length zoi =? 32) && forallb is_hex_digit zoi.

(** [validateTaxNumber(taxNumber)]: the test of [/^\d{8}$/] on the
    rendering of the number. *)
Definition validateTaxNumber (taxNumber : number) : bool :=
  let str := number_toString taxNumber in
  (length str =? 8) && forallb is_digit str.

End CodeFormatter.

(** ** [src/services/codeGenerator.ts] *)

Module CodeGenerator.

Import JSDate CodeFormatter.

Definition invalid_zoi : Error :=
  mkError "Error" (lit "Invalid ZOI format. Must be 32 hexadecimal characters.").

Definition invalid_tax_number : Error :=
  mkError "Error" (lit "Invalid tax number. Must be 8 digits.").

(** [FursCodeGenerator.generateCode], from its entry to the computation
    of [formattedData]: the two validations, then [formatCodeData]. The
    rendering of the barcode image that follows belongs to external
    libraries. *)
Definition generateCode_formattedData (Date_parse : jsstring -> Date)
  (zoi : jsstring) (taxNumber : number) (issueDateTime : arg) : completion jsstring :=
  if negb (validateZOI zoi) then Throw invalid_zoi
  else if negb (validateTaxNumber taxNumber) then Throw invalid_tax_number
  else formatCodeData Date_parse zoi taxNumber issueDateTime.

End CodeGenerator.

(** ** Node's [Buffer]: UTF-8 and base64

    The library is outside the repository. Its two codecs are written
    here with the arithmetic of their standards (RFC 3629, RFC 4648): a
    byte is an integer from 0 to 255. *)

Module Buffer.

Abbreviation byte := Z (only parsing).

Definition is_high_surrogate (c : char) : bool := (55296 <=? c) && (c <=? 56319).
Definition is_low_surrogate (c : char) : bool := (56320 <=? c) && (c <=? 57343).

(** The bytes of the replacement character U+FFFD. *)
Definition replacement_bytes : list byte := [239; 191; 189].

(** The UTF-8 bytes of one code point. *)
Definition encode_code_point (cp : Z) : list byte :=
  if cp <? 128 then [cp]
  else if cp <? 2048 then [192 + cp / 64; 128 + cp mod 64]
  else if cp <? 65536 then
    [224 + cp / 4096; 128 + (cp / 64) mod 64; 128 + cp mod 64]
  else
    [240 + cp / 262144; 128 + (cp / 4096) mod 64; 128 + (cp / 64) mod 64;
     128 + cp mod 64].

(** [Buffer.from(s, 'utf8')]: a surrogate pair is one code point, and a
    surrogate without its partner is written as U+FFFD. *)
Fixpoint utf8_encode (s : jsstring) : list byte :=
  match s with
  | [] => []
  | c :: rest =>
      if is_high_surrogate c then
        match rest with
        | d :: rest' =>
            if is_low_surrogate d then
              encode_code_point (65536 + (c - 55296) * 1024 + (d - 56320))
                ++ utf8_encode rest'
            else replacement_bytes ++ utf8_encode rest
        | [] => replacement_bytes
        end
      else if is_low_surrogate c then replacement_bytes ++ utf8_encode rest
      else encode_code_point c ++ utf8_encode rest
  end.

(** The code units of one code point. *)
Definition code_units (cp : Z) : jsstring :=
  if cp <? 65536 then [cp]
  else [55296 + (cp - 65536) / 1024; 56320 + (cp - 65536) mod 1024].

Definition is_continuation (b : byte) : bool := (128 <=? b) && (b <=? 191).

(** The range of the second byte after a three-byte lead: no overlong
    form after E0, no surrogate after ED. *)
Definition second_of_three (b1 b2 : byte) : bool :=
  if b1 =? 224 then (160 <=? b2) && (b2 <=? 191)
  else if b1 =? 237 then (128 <=? b2) && (b2 <=? 159)
  else is_continuation b2.

(** The range of the second byte after a four-byte lead: no overlong
    form after F0, nothing above U+10FFFF after F4. *)
Definition second_of_four (b1 b2 : byte) : bool :=
  if b1 =? 240 then (144 <=? b2) && (b2 <=? 191)
  else if b1 =? 244 then (128 <=? b2) && (b2 <=? 143)
  else is_continuation b2.

(** [buf.toString('utf8')]: each well-formed sequence gives its code
    point, and each maximal ill-formed prefix gives one U+FFFD, after
    which decoding resumes at the offending byte. *)
Fixpoint utf8_decode (bs : list byte) : jsstring :=
  match bs with
  | [] => []
  | b1 :: r1 =>
      if b1 <? 128 then b1 :: utf8_decode r1
      else if (194 <=? b1) && (b1 <=? 223) then
        match r1 with
        | b2 :: r2 =>
            if is_continuation b2
            then ((b1 - 192) * 64 + (b2 - 128)) :: utf8_decode r2
            else 65533 :: utf8_decode r1
        | [] => [65533]
        end
      else if (224 <=? b1) && (b1 <=? 239) then
        match r1 with
        | b2 :: r2 =>
            if second_of_three b1 b2 then
              match r2 with
              | b3 :: r3 =>
                  if is_continuation b3
                  then ((b1 - 224) * 4096 + (b2 - 128) * 64 + (b3 - 128))
                         :: utf8_decode r3
                  else 65533 :: utf8_decode r2
              | [] => [65533]
              end
            else 65533 :: utf8_decode r1
        | [] => [65533]
        end
      else if (240 <=? b1) && (b1 <=? 244) then
        match r1 with
        | b2 :: r2 =>
            if second_of_four b1 b2 then
              match r2 with
              | b3 :: r3 =>
                  if is_continuation b3 then
                    match r3 with
                    | b4 :: r4 =>
                        if is_continuation b4
                        then code_units ((b1 - 240) * 262144 + (b2 - 128) * 4096
                                         + (b3 - 128) * 64 + (b4 - 128))
                               ++ utf8_decode r4
                        else 65533 :: utf8_decode r3
                    | [] => [65533]
                    end
                  else 65533 :: utf8_decode r2
              | [] => [65533]
              end
            else 65533 :: utf8_decode r1
        | [] => [65533]
        end
      else 65533 :: utf8_decode r1
  end.

(** The base64 alphabet: A-Z, a-z, 0-9, + and /. *)
Definition base64_char (i : Z) : char :=
  if i <? 26 then 65 + i
  else if i <? 52 then 71 + i
  else if i <? 62 then i - 4
  else if i =? 62 then 43
  else 47.

(** [buf.toString('base64')]: three bytes give four characters, and a
    last group of one or two bytes is padded with [=]. *)
Fixpoint base64_encode (bs : list byte) : jsstring :=
  match bs with
  | [] => []
  | [a] => [base64_char (a / 4); base64_char (a mod 4 * 16); 61; 61]
  | [a; b] =>
      [base64_char (a / 4); base64_char (a mod 4 * 16 + b / 16);
       base64_char (b mod 16 * 4); 61]
  | a :: b :: c :: rest =>
      base64_char (a / 4) :: base64_char (a mod 4 * 16 + b / 16)
        :: base64_char (b mod 16 * 4 + c / 64) :: base64_char (c mod 64)
        :: base64_encode rest
  end.

(** The six bits of a character of the standard or of the URL-safe
    alphabet; [None] for any other character. *)
Definition unbase64 (c : char) : option Z :=
  if (65 <=? c) && (c <=? 90) then Some (c - 65)
  else if (97 <=? c) && (c <=? 122) then Some (c - 71)
  else if (48 <=? c) && (c <=? 57) then Some (c + 4)
  else if (c =? 43) || (c =? 45) then Some 62
  else if (c =? 47) || (c =? 95) then Some 63
  else None.

(** The bytes of the sextets read when the input ends inside a group. *)
Definition base64_flush (pending : list Z) : list byte :=
  match pending with
  | [s0; s1] => [s0 * 4 + s1 / 16]
  | [s0; s1; s2] => [s0 * 4 + s1 / 16; s1 mod 16 * 16 + s2 / 4]
  | _ => []
  end.

(** The decoding loop: [pending] holds the sextets of the group being
    read. A character outside the alphabets is skipped, and the first
    [=] ends the decoding. *)
Fixpoint base64_decode_loop (s : jsstring) (pending : list Z) : list byte :=
  match s with
  | [] => base64_flush pending
  | c :: rest =>
      if c =? 61 then base64_flush pending
      else match unbase64 c with
           | None => base64_decode_loop rest pending
           | Some v =>
               match pending with
               | [s0; s1; s2] =>
                   (s0 * 4 + s1 / 16) :: (s1 mod 16 * 16 + s2 / 4)
                     :: (s2 mod 4 * 64 + v) :: base64_decode_loop rest []
               | _ => base64_decode_loop rest (pending ++ [v])
               end
           end
  end.

(** [Buffer.from(s, 'base64')] *)
Definition base64_decode (s : jsstring) : list byte := base64_decode_loop s [].

End Buffer.

(** ** [src/utils/jwt.ts] *)

Module Jwt.

Import Buffer.

(** An argument of type [string | Buffer]. *)
Inductive input : Type :=
| Str (s : jsstring)
| Buf (b : list byte).

(** [forge.util.encode64(binary)]: base64 of the character codes of a
    binary string. *)
Definition forge_encode64 (binary : jsstring) : jsstring := base64_encode binary.

(** [base64urlEncode(input)] *)
Definition base64urlEncode (i : input) : jsstring :=
  let base64 :=
    match i with
    | Str s => base64_encode (utf8_encode s)
    | Buf b => forge_encode64 b
    end in
  replace_char 61 [] (replace_char 47 (lit "_") (replace_char 43 (lit "-") base64)).

(** [base64urlDecode(data)] *)
Definition base64urlDecode (data : jsstring) : jsstring :=
  let padding := 4 - Z.rem (length data) 4 in
  let paddedData := data ++ repeat (lit "=") (Z.rem padding 4) in
  utf8_decode
    (base64_decode (replace_char 95 (lit "/") (replace_char 45 (lit "+") paddedData))).

(** The four hexadecimal digits of a [\u] escape. *)
Definition unicode_escape (c : char) : jsstring :=
  lit "\u" ++ padStart (int_toString c 16) 4 (lit "0").

(** The characters of a string inside its JSON quotes: the short escapes,
    [\u] escapes for the other control characters and for surrogates
    without their partner, and every other character as it is. *)
Fixpoint JSON_escape (s : jsstring) : jsstring :=
  match s with
  | [] => []
  | c :: rest =>
      if c =? 8 then lit "\b" ++ JSON_escape rest
      else if c =? 9 then lit "\t" ++ JSON_escape rest
      else if c =? 10 then lit "\n" ++ JSON_escape rest
      else if c =? 12 then lit "\f" ++ JSON_escape rest
      else if c =? 13 then lit "\r" ++ JSON_escape rest
      else if c =? 34 then [92; 34] ++ JSON_escape rest
      else if c =? 92 then [92; 92] ++ JSON_escape rest
      else if c <? 32 then unicode_escape c ++ JSON_escape rest
      else if is_high_surrogate c then
        match rest with
        | d :: rest' =>
            if is_low_surrogate d then c :: d :: JSON_escape rest'
            else unicode_escape c ++ JSON_escape rest
        | [] => unicode_escape c
        end
      else if is_low_surrogate c then unicode_escape c ++ JSON_escape rest
      else c :: JSON_escape rest
  end.

(** [JSON.stringify(s)] of a string. *)
Definition JSON_quote (s : jsstring) : jsstring := [34] ++ JSON_escape s ++ [34].

(** The interface [CertificateInfo] of [src/types]. *)
Record CertificateInfo := mkCertificateInfo {
  subject_name : jsstring;
  issuer_name : jsstring;
  serial : jsstring;
  validFrom : JSDate.Date;
  validTo : JSDate.Date
}.

(** The interface [JWTHeader]. *)
Record JWTHeader := mkJWTHeader {
  alg : jsstring;
  h_subject_name : jsstring;
  h_issuer_name : jsstring;
  h_serial : jsstring
}.

(** [JSON.stringify(header)]: the four properties in the order of the
    object literal, with no white space. *)
Definition JSON_stringify_header (h : JWTHeader) : jsstring :=
  lit "{" ++ JSON_quote (lit "alg") ++ lit ":" ++ JSON_quote (alg h)
  ++ lit "," ++ JSON_quote (lit "subject_name") ++ lit ":" ++ JSON_quote (h_subject_name h)
  ++ lit "," ++ JSON_quote (lit "issuer_name") ++ lit ":" ++ JSON_quote (h_issuer_name h)
  ++ lit "," ++ JSON_quote (lit "serial") ++ lit ":" ++ JSON_quote (h_serial h)
  ++ lit "}".

Section WithLibraries.

(** The values of type [any]: the payload of a token. *)
Variable any : Type.

(** [JSON.stringify(payload)]: [None] is [undefined], the result for a
    value that has no JSON form. *)
Variable JSON_stringify : any -> option jsstring.

(** [JSON.parse(text)], which throws a SyntaxError on bad input. *)
Variable JSON_parse : jsstring -> completion any.

(** The object literal [{}]. *)
Variable empty_object : any.

(** The private keys of node-forge. *)
Variable PrivateKey : Type.

(** [privateKey.sign(md)] for a SHA-256 digest [md] of the given bytes:
    the RSASSA-PKCS1-v1_5 signature as a binary string. The scheme pads
    the digest with fixed bytes and draws no random number, so the
    signature is a function of the key and the message. *)
Variable sign_sha256 : PrivateKey -> list byte -> jsstring.

(** [createJWT(payload, privateKey, certificateInfo)] *)
Definition createJWT (payload : any) (privateKey : PrivateKey)
  (certificateInfo : CertificateInfo) : completion jsstring :=
  let header := mkJWTHeader (lit "RS256") (subject_name certificateInfo)
                  (issuer_name certificateInfo) (serial certificateInfo) in
  let encodedHeader := base64urlEncode (Str (JSON_stringify_header header)) in
  encodedPayload <-
    match JSON_stringify payload with
    | Some s => Return (base64urlEncode (Str s))
    | None =>
        Throw (mkError "TypeError"
                 (lit "Cannot read properties of undefined (reading 'toString')"))
    end ;;
  let signingInput := encodedHeader ++ lit "." ++ encodedPayload in
  let signature := sign_sha256 privateKey (utf8_encode signingInput) in
  let signatureBytes := map (fun c => c mod 256) signature in
  let encodedSignature :=
    replace_char 61 []
      (replace_char 47 (lit "_") (replace_char 43 (lit "-") (base64_encode signatureBytes))) in
  let jwt := signingInput ++ lit "." ++ encodedSignature in
  Return jwt.

(** The interface [JWTDecoded]. *)
Record JWTDecoded := mkJWTDecoded {
  header : any;
  payload : any;
  signature : jsstring;
  valid : bool;
  error : option jsstring
}.

(** The body of the [try] block of [decodeJWT]. *)
Definition decodeJWT_try (jwt : jsstring) : completion JWTDecoded :=
  let parts := split_char 46 jwt in
  match parts with
  | [encodedHeader; encodedPayload; encodedSignature] =>
      header <- JSON_parse (base64urlDecode encodedHeader) ;;
      payload <- JSON_parse (base64urlDecode encodedPayload) ;;
      Return (mkJWTDecoded header payload encodedSignature true None)
  | _ => Throw (mkError "Error" (lit "Invalid JWT format - should have 3 parts"))
  end.

(** [decodeJWT(jwt)] *)
Definition decodeJWT (jwt : jsstring) : completion JWTDecoded :=
  try_catch (decodeJWT_try jwt)
    (fun error =>
       Return (mkJWTDecoded empty_object empty_object [] false (Some (message error)))).

End WithLibraries.

End Jwt.

(** ** [src/utils/certificate.ts] *)

Module Certificate.

(** The value of an attribute: a string, or some other value, of which
    the code only uses the rendering in a template literal. *)
Inductive attr_value : Type :=
| VString (s : jsstring)
| VOther (rendered : jsstring).

(** An attribute of a distinguished name in node-forge: the dotted OID,
    the short name when the OID has one, and the value. *)
Record attribute := mkAttribute {
  type : jsstring;
  shortName : option jsstring;
  value : attr_value
}.

(** [`${v}`] *)
Definition render (v : attr_value) : jsstring :=
  match v with
  | VString s => s
  | VOther r => r
  end.

(** [attr.shortName === name || attr.type === oid] *)
Definition has_name (name oid : jsstring) (attr : attribute) : bool :=
  match shortName attr with
  | Some n => str_eqb n name
  | None => false
  end || str_eqb (type attr) oid.

(** [ou.value === 'DavPotRacTEST'] *)
Definition is_marker (ou : attribute) : bool :=
  match value ou with
  | VString s => str_eqb s (lit "DavPotRacTEST")
  | VOther _ => false
  end.

(** [typeof ou.value === 'string' && /^\d+$/.test(ou.value)] *)
Definition is_numeric (ou : attribute) : bool :=
  match value ou with
  | VString [] => false
  | VString s => forallb is_digit s
  | VOther _ => false
  end.

(** [parts.push(x)] followed by the reading of the array. *)
Definition push (parts : list jsstring) (x : jsstring) : list jsstring := parts ++ [x].

(** The subject name of [getCertificateInfo]. *)
Definition subject_name_of (subjectAttrs : list attribute) : jsstring :=
  let subjectParts : list jsstring := [] in
  let cn := find (has_name (lit "CN") (lit "2.5.4.3")) subjectAttrs in
  let subjectParts :=
    match cn with
    | Some cn =>
        let cnValue := value cn in
        match cnValue with
        | VString s =>
            if includes_char 44 s
            then push subjectParts (lit "CN=" ++ replace_char 44 (lit "\,") s)
            else push subjectParts (lit "CN=" ++ render cnValue)
        | VOther _ => push subjectParts (lit "CN=" ++ render cnValue)
        end
    | None => subjectParts
    end in
  let serialAttr := find (fun attr => str_eqb (type attr) (lit "2.5.4.5")) subjectAttrs in
  let subjectParts :=
    match serialAttr with
    | Some _ => push subjectParts (lit "2.5.4.5=#1")
    | None => subjectParts
    end in
  let ouAttrs := filter (has_name (lit "OU") (lit "2.5.4.11")) subjectAttrs in
  let davPotRac := find is_marker ouAttrs in
  let taxNumber := find is_numeric ouAttrs in
  let subjectParts :=
    match davPotRac with
    | Some davPotRac => push subjectParts (lit "OU=" ++ render (value davPotRac))
    | None => subjectParts
    end in
  let subjectParts :=
    match taxNumber with
    | Some taxNumber => push subjectParts (lit "OU=" ++ render (value taxNumber))
    | None => subjectParts
    end in
  let o := find (has_name (lit "O") (lit "2.5.4.10")) subjectAttrs in
  let subjectParts :=
    match o with
    | Some o => push subjectParts (lit "O=" ++ render (value o))
    | None => subjectParts
    end in
  let c := find (has_name (lit "C") (lit "2.5.4.6")) subjectAttrs in
  let subjectParts :=
    match c with
    | Some c => push subjectParts (lit "C=" ++ render (value c))
    | None => subjectParts
    end in
  join (lit ",") subjectParts.

(** The issuer name of [getCertificateInfo]. *)
Definition issuer_name_of (issuerAttrs : list attribute) : jsstring :=
  let issuerParts : list jsstring := [] in
  let issuerCn := find (has_name (lit "CN") (lit "2.5.4.3")) issuerAttrs in
  let issuerParts :=
    match issuerCn with
    | Some a => push issuerParts (lit "CN=" ++ render (value a))
    | None => issuerParts
    end in
  let issuerO := find (has_name (lit "O") (lit "2.5.4.10")) issuerAttrs in
  let issuerParts :=
    match issuerO with
    | Some a => push issuerParts (lit "O=" ++ render (value a))
    | None => issuerParts
    end in
  let issuerC := find (has_name (lit "C") (lit "2.5.4.6")) issuerAttrs in
  let issuerParts :=
    match issuerC with
    | Some a => push issuerParts (lit "C=" ++ render (value a))
    | None => issuerParts
    end in
  join (lit ",") issuerParts.

(** A certificate of node-forge, as far as the code reads it. *)
Record certificate := mkCertificate {
  subject_attributes : list attribute;
  issuer_attributes : list attribute;
  serialNumber : jsstring;
  notBefore : JSDate.Date;
  notAfter : JSDate.Date
}.

(** [getCertificateInfo(certBags)], given [certBags[0].cert]. *)
Definition getCertificateInfo (cert : certificate) : completion Jwt.CertificateInfo :=
  let subject := subject_name_of (subject_attributes cert) in
  let issuer := issuer_name_of (issuer_attributes cert) in
  let serialHex := serialNumber cert in
  serialBigInt <- CodeFormatter.BigInt_of_hex serialHex ;;
  let serialDecimal := int_toString serialBigInt 10 in
  Return (Jwt.mkCertificateInfo subject issuer serialDecimal (notBefore cert) (notAfter cert)).

End Certificate.

(** ** [src/services/code128Service.ts] *)

Module Code128Service.

Import JSDate CodeFormatter.

(** [getCode128Strings(zoi, taxNumber, issueDateTime, parts = 3)]: an
    argument that is [undefined] takes the default. *)
Definition getCode128Strings (Date_parse : jsstring -> Date)
  (zoi : jsstring) (taxNumber : number) (issueDateTime : arg) (parts : option number)
  : completion (list jsstring) :=
  let parts := match parts with Some p => p | None => Num 3 end in
  codeData <- formatCodeData Date_parse zoi taxNumber issueDateTime ;;
  splitForCode128 codeData parts.

End Code128Service.

(** ** [src/services/codeGenerator.ts]: the class [FursCodeGenerator] *)

Module FursCodeGenerator.

Import JSDate CodeFormatter CodeGenerator Code128Service.

(** The options of [FursCode128Options] that the strings depend on. *)
Record FursCode128Options := mkCode128Options { parts : option number }.

(** [x || 3] for a number that may be [undefined]: the default replaces
    [undefined], 0 and NaN. *)
Definition or_3 (x : option number) : number :=
  match x with
  | None => Num 3
  | Some NaN => Num 3
  | Some (Num 0) => Num 3
  | Some (Num p) => Num p
  end.

(** [generateCode128Code(invoiceData, options)] for the format
    [CodeFormat.STRINGS]; [code128Options] is [options.code128Options],
    which may be [undefined]. *)
Definition generateCode128Code_strings (Date_parse : jsstring -> Date)
  (zoi : jsstring) (taxNumber : number) (issueDateTime : arg)
  (code128Options : option FursCode128Options) : completion (list jsstring) :=
  let code128Options :=
    match code128Options with
    | Some o => o
    | None => mkCode128Options None
    end in
  getCode128Strings Date_parse zoi taxNumber issueDateTime
    (Some (or_3 (parts code128Options))).

(** The result of [generateCode] for the type CODE128 and the format
    STRINGS: the strings, the payload and its components. *)
Record CodeGenerationResult := mkResult {
  data : list jsstring;
  formattedData : jsstring;
  zoiDecimal : jsstring;
  taxNumber : jsstring;
  dateTime : jsstring;
  controlCharacter : jsstring
}.

(** [generateCode(invoiceData, options)] with [options.type] CODE128 and
    [options.format] STRINGS. *)
Definition generateCode_strings (Date_parse : jsstring -> Date)
  (zoi : jsstring) (taxNumber : number) (issueDateTime : arg)
  (code128Options : option FursCode128Options) : completion CodeGenerationResult :=
  if negb (validateZOI zoi) then Throw invalid_zoi
  else if negb (validateTaxNumber taxNumber) then Throw invalid_tax_number
  else
    formattedData <- formatCodeData Date_parse zoi taxNumber issueDateTime ;;
    zoiDecimal <- hexToDecimalPadded zoi 39 ;;
    let taxNumberStr := padStart (number_toString taxNumber) 8 (lit "0") in
    let dateTimeStr := formatDateForCode Date_parse issueDateTime in
    let controlChar :=
      calculateControlCharacter (zoiDecimal ++ taxNumberStr ++ dateTimeStr) in
    data <- generateCode128Code_strings Date_parse zoi taxNumber issueDateTime
              code128Options ;;
    Return (mkResult data formattedData zoiDecimal taxNumberStr dateTimeStr controlChar).

(** [isNaN(date.getTime())]: the time value of the invalid date is NaN. *)
Definition time_is_NaN (d : Date) : bool :=
  match d with
  | Valid _ => false
  | Invalid => true
  end.

Definition invalid_date_format : Error :=
  mkError "Error" (lit "Invalid issue date/time format").

(** [validateInvoiceData(invoiceData)] *)
Definition validateInvoiceData (Date_parse : jsstring -> Date)
  (zoi : jsstring) (taxNumber : number) (issueDateTime : arg) : completion bool :=
  if negb (validateZOI zoi) then Throw invalid_zoi
  else if negb (validateTaxNumber taxNumber) then Throw invalid_tax_number
  else
    _ <- try_catch
           (let date :=
              match issueDateTime with
              | OfString s => Date_parse s
              | OfDate d => d
              end in
            if time_is_NaN date then Throw (mkError "Error" (lit "Invalid date"))
            else Return tt)
           (fun _ => Throw invalid_date_format) ;;
    Return true.

End FursCodeGenerator.

(** ** [src/utils/certificate.ts]: loading the bundle *)

Module CertificateLoader.

Section WithForge.

(** The private keys of node-forge. *)
Variable PrivateKey : Type.

(** A bag of a PKCS#12 bundle: the certificate or the key it holds. *)
Record Bag := mkBag {
  cert : option Certificate.certificate;
  key : option PrivateKey
}.

(** What [p12.getBags] gives for the certificate bags and for the
    shrouded key bags; an entry may be [undefined]. *)
Record P12 := mkP12 {
  certBag : option (list Bag);
  keyBag : option (list Bag)
}.

(** [forge.pkcs12.pkcs12FromAsn1(forge.asn1.fromDer(certData), password)]:
    the parse of the file, which throws on a malformed file or a wrong
    password. *)
Variable pkcs12 : list Z -> jsstring -> completion P12.

(** [getCertificateInfo(certBags)]: the information of [certBags[0].cert]. *)
Definition getCertificateInfo_bags (certBags : list Bag)
  : completion Jwt.CertificateInfo :=
  match certBags with
  | [] =>
      Throw (mkError "TypeError"
               (lit "Cannot read properties of undefined (reading 'cert')"))
  | bag :: _ =>
      match cert bag with
      | Some c => Certificate.getCertificateInfo c
      | None =>
          Throw (mkError "TypeError"
                   (lit "Cannot read properties of undefined (reading 'subject')"))
      end
  end.

(** The object that [loadCertificate] returns. *)
Record Loaded := mkLoaded {
  privateKey : PrivateKey;
  certificateInfo : Jwt.CertificateInfo;
  certificateCount : Z
}.

(** The body of the [try] block of [loadCertificate]. *)
Definition loadCertificate_try (certData : list Z) (password : jsstring)
  : completion Loaded :=
  p12 <- pkcs12 certData password ;;
  match certBag p12 with
  | None | Some [] => Throw (mkError "Error" (lit "No certificate found in P12 file"))
  | Some certBag =>
      match keyBag p12 with
      | None | Some [] =>
          Throw (mkError "Error" (lit "No private key found in P12 file"))
      | Some (privateKeyBag :: _) =>
          match key privateKeyBag with
          | None =>
              Throw (mkError "Error" (lit "No private key found in certificate bag"))
          | Some privateKey =>
              certificateInfo <- getCertificateInfo_bags certBag ;;
              Return (mkLoaded privateKey certificateInfo (Z.of_nat (List.length certBag)))
          end
      end
  end.

(** [loadCertificate(certData, password)] *)
Definition loadCertificate (certData : list Z) (password : jsstring)
  : completion Loaded :=
  try_catch (loadCertificate_try certData password)
    (fun error =>
       Throw (mkError "Error" (lit "Failed to load certificate: " ++ message error))).

(** [fs.readFileSync(path)], which throws when the file cannot be read. *)
Variable readFileSync : jsstring -> completion (list Z).

(** [FursClient.loadCertificateData()]: the key, the certificate
    information and the file data that the client keeps. *)
Definition loadCertificateData (certPath certPassword : jsstring)
  : completion (PrivateKey * Jwt.CertificateInfo * list Z) :=
  try_catch
    (certData <- readFileSync certPath ;;
     loaded <- loadCertificate certData certPassword ;;
     Return (privateKey loaded, certificateInfo loaded, certData))
    (fun error =>
       Throw (mkError "FursAuthenticationError"
                (lit "Failed to load certificate: " ++ message error))).

End WithForge.

End CertificateLoader.

(** ** Specification-side definitions

    The vocabulary of the specification, written after its words, to
    state what the functions above compute. *)

Module Spec.

(** A string of ASCII decimal digits. *)
Definition all_digits (s : jsstring) : bool := forallb is_digit s.

(** The sum of the numeric values of the digits of a string. *)
Definition digit_sum (s : jsstring) : Z :=
  fold_right (fun c acc => (c - 48) + acc) 0 s.

(** The number a string of decimal digits denotes. *)
Definition decimal_value (s : jsstring) : Z :=
  fold_left (fun acc c => acc * 10 + (c - 48)) s 0.

(** The number a string of hexadecimal digits denotes. *)
Definition hex_number (s : jsstring) : Z :=
  fold_left (fun acc c => acc * 16 + CodeFormatter.hex_value c) s 0.

(** A digit of a lower-case hexadecimal rendering. *)
Definition is_lower_hex (c : char) : bool :=
  is_digit c || ((97 <=? c) && (c <=? 102)).

(** The rendering of [v] in exactly [width] digits, zero-padded. *)
Fixpoint fixed_digits (radix : Z) (width : nat) (v : Z) : jsstring :=
  match width with
  | O => []
  | S w => fixed_digits radix w (v / radix) ++ [digit_char (v mod radix)]
  end.

(** [BigInt(s)] for a string of decimal digits (leading zeros allowed,
    the empty string is zero); [None] for any other string. *)
Definition BigInt_of_decimal (s : jsstring) : option Z :=
  if all_digits s then Some (decimal_value s) else None.

(** The twelve digits YYMMDDHHMMSS of the fields of a date. *)
Definition date12 (f : JSDate.fields) : jsstring :=
  fixed_digits 10 2 (Z.abs (JSDate.fullYear f) mod 100)
  ++ fixed_digits 10 2 (JSDate.month f + 1)
  ++ fixed_digits 10 2 (JSDate.date f)
  ++ fixed_digits 10 2 (JSDate.hours f)
  ++ fixed_digits 10 2 (JSDate.minutes f)
  ++ fixed_digits 10 2 (JSDate.seconds f).

(** The date object [formatDateForCode] reads its fields from. *)
Definition date_object (Date_parse : jsstring -> JSDate.Date) (a : JSDate.arg)
  : JSDate.Date :=
  match a with
  | JSDate.OfDate d => d
  | JSDate.OfString s => Date_parse s
  end.

(** The data slice of an emitted barcode part: the part without its
    prefix and its single sequence digit. *)
Definition data_slice (prefix part : jsstring) : jsstring :=
  skipn (List.length prefix + 1) part.

(** The prefix of the rule table for a part count. *)
Definition prefix_of (parts : Z) : jsstring :=
  if parts =? 4 then lit "44" else lit "4".

(** The number of payload digits the emitted parts carry, by the rule
    table: per part, its total length less the prefix and the sequence
    digit. *)
Definition covered (parts : Z) : Z :=
  parts * (60 / parts - length (prefix_of parts) - 1).

(** *** The decoded token *)

(** The structured failure value of [decodeToken]: not valid, with the
    reason of the failure. *)
Definition failure {any : Type} (empty_object : any) (reason : jsstring)
  : Jwt.JWTDecoded any :=
  Jwt.mkJWTDecoded any empty_object empty_object [] false (Some reason).

(** What [decodeToken] returns: the decoded header and payload and the
    signature segment when the token has three segments and both JSON
    texts parse, and otherwise a failure with the reason. *)
Definition decoded {any : Type} (JSON_parse : jsstring -> completion any)
  (empty_object : any) (token : jsstring) : Jwt.JWTDecoded any :=
  match split_char 46 token with
  | [headerSegment; payloadSegment; signatureSegment] =>
      match JSON_parse (Jwt.base64urlDecode headerSegment) with
      | Throw e => failure empty_object (message e)
      | Return header =>
          match JSON_parse (Jwt.base64urlDecode payloadSegment) with
          | Throw e => failure empty_object (message e)
          | Return payload =>
              Jwt.mkJWTDecoded any header payload signatureSegment true None
          end
      end
  | _ => failure empty_object (lit "Invalid JWT format - should have 3 parts")
  end.

(** The number of separators in a string. *)
Definition count_char (c : char) (s : jsstring) : nat :=
  List.length (filter (fun x => x =? c) s).

(** *** The identity string *)

(** A value with every comma escaped by a backslash. *)
Definition escape_commas (s : jsstring) : jsstring := replace_char 44 (lit "\,") s.

Definition escaped (v : Certificate.attr_value) : jsstring :=
  match v with
  | Certificate.VString s => escape_commas s
  | Certificate.VOther r => r
  end.

(** The entry of an attribute that may be absent: one entry when it is
    present, none when it is not. *)
Definition entry {A : Type} (attr : option A) (text : A -> jsstring) : list jsstring :=
  match attr with
  | Some a => [text a]
  | None => []
  end.

Definition is_CN := Certificate.has_name (lit "CN") (lit "2.5.4.3").
Definition is_OU := Certificate.has_name (lit "OU") (lit "2.5.4.11").
Definition is_O := Certificate.has_name (lit "O") (lit "2.5.4.10").
Definition is_C := Certificate.has_name (lit "C") (lit "2.5.4.6").
Definition is_serial (a : Certificate.attribute) : bool :=
  str_eqb (Certificate.type a) (lit "2.5.4.5").

(** The subject identity string of the specification: the entries of the
    present attributes in the fixed order CN, serial-number placeholder,
    device-class OU, numeric OU, O, C, joined by commas. *)
Definition canonical_subject (attrs : list Certificate.attribute) : jsstring :=
  join (lit ",")
    (entry (find is_CN attrs) (fun a => lit "CN=" ++ escaped (Certificate.value a))
     ++ (if existsb is_serial attrs then [lit "2.5.4.5=#1"] else [])
     ++ entry (find (fun a => is_OU a && Certificate.is_marker a) attrs)
          (fun a => lit "OU=" ++ Certificate.render (Certificate.value a))
     ++ entry (find (fun a => is_OU a && Certificate.is_numeric a) attrs)
          (fun a => lit "OU=" ++ Certificate.render (Certificate.value a))
     ++ entry (find is_O attrs)
          (fun a => lit "O=" ++ Certificate.render (Certificate.value a))
     ++ entry (find is_C attrs)
          (fun a => lit "C=" ++ Certificate.render (Certificate.value a))).

(** Every comma of a string comes right after a backslash. *)
Fixpoint commas_escaped (previous : char) (s : jsstring) : bool :=
  match s with
  | [] => true
  | c :: rest => (negb (c =? 44) || (previous =? 92)) && commas_escaped c rest
  end.

(** *** Unicode strings and base64 text *)

(** A well-formed Unicode string, one that UTF-8 can represent: every
    code unit is in range and the surrogates come in pairs, a high one
    followed by a low one. *)
Fixpoint well_formed (s : jsstring) : bool :=
  match s with
  | [] => true
  | c :: rest =>
      if Buffer.is_high_surrogate c then
        match rest with
        | d :: rest' => Buffer.is_low_surrogate d && well_formed rest'
        | [] => false
        end
      else (0 <=? c) && (c <? 65536) && negb (Buffer.is_low_surrogate c)
           && well_formed rest
  end.

(** A Unicode scalar value: a code point that is not a surrogate. *)
Definition scalar (cp : Z) : Prop :=
  0 <= cp < 1114112 /\ ~ (55296 <= cp <= 57343).

Definition is_byte (b : Z) : Prop := 0 <= b < 256.

Definition is_sextet (v : Z) : Prop := 0 <= v < 64.

(** The six-bit groups of a byte sequence, the last one filled with
    zero bits. *)
Fixpoint sextets (bs : list Z) : list Z :=
  match bs with
  | [] => []
  | [a] => [a / 4; a mod 4 * 16]
  | [a; b] => [a / 4; a mod 4 * 16 + b / 16; b mod 16 * 4]
  | a :: b :: c :: rest =>
      a / 4 :: (a mod 4 * 16 + b / 16) :: (b mod 16 * 4 + c / 64) :: c mod 64
        :: sextets rest
  end.

(** The number of [=] that complete the last group of a base64 text. *)
Fixpoint padding (bs : list Z) : nat :=
  match bs with
  | [] => 0
  | [_] => 2
  | [_; _] => 1
  | _ :: _ :: _ :: rest => padding rest
  end.

(** The character of a sextet in the URL-safe alphabet. *)
Definition base64url_char (v : Z) : char :=
  if v =? 62 then 45 else if v =? 63 then 95 else Buffer.base64_char v.

(** A checker for a property of the numbers below a bound. *)
Definition all_below (n : nat) (p : Z -> bool) : bool :=
  forallb p (map Z.of_nat (seq 0 n)).

(** *** Further vocabulary *)

(** A string without its white space. *)
Definition strip_spaces (s : jsstring) : jsstring :=
  filter (fun c => negb (is_space c)) s.

(** The three errors of the Code128 split. *)
Definition parts_out_of_range : Error :=
  mkError "Error" (lit "Number of parts must be between 2 and 6").
Definition code_data_length : Error :=
  mkError "Error" (lit "Code data must be exactly 60 digits").
Definition invalid_parts : Error :=
  mkError "Error" (lit "Invalid number of parts").

(** The number of data digits in each part, by the rule table. *)
Definition data_per_part (parts : Z) : Z :=
  60 / parts - length (prefix_of parts) - 1.

(** The payload of a ZOI, a tax number and the fields of a date: 39, 8
    and 12 digits and the control digit. *)
Definition payload_body (zoi : jsstring) (taxNumber : Z) (f : JSDate.fields)
  : jsstring :=
  fixed_digits 10 39 (hex_number zoi) ++ fixed_digits 10 8 taxNumber ++ date12 f.

Definition payload (zoi : jsstring) (taxNumber : Z) (f : JSDate.fields) : jsstring :=
  payload_body zoi taxNumber f ++ [48 + digit_sum (payload_body zoi taxNumber f) mod 10].

(** The part count that the Code128 strings are made with: the option
    [parts], or 3 when the options or the option are missing, or the
    option is 0 or NaN. *)
Definition effective_parts (o : option FursCodeGenerator.FursCode128Options) : Z :=
  match o with
  | None => 3
  | Some o =>
      match FursCodeGenerator.parts o with
      | None => 3
      | Some NaN => 3
      | Some (Num p) => if p =? 0 then 3 else p
      end
  end.

(** A character of the URL-safe base64 alphabet: a letter, a digit, [-]
    or [_]. *)
Definition is_base64url (c : char) : bool :=
  ((65 <=? c) && (c <=? 90)) || ((97 <=? c) && (c <=? 122))
  || ((48 <=? c) && (c <=? 57)) || (c =? 45) || (c =? 95).

(** A string whose code units are all in range. *)
Definition in_range (s : jsstring) : Prop :=
  Forall (fun c => 0 <= c < 65536) s.

(** The bytes that [base64urlEncode] encodes: the UTF-8 bytes of a
    string, the bytes of a buffer. *)
Definition bytes_of (i : Jwt.input) : list Z :=
  match i with
  | Jwt.Str s => Buffer.utf8_encode s
  | Jwt.Buf b => b
  end.

(** An input that [base64urlEncode] can be given: a string with code
    units in range, a buffer of bytes. *)
Definition valid_input (i : Jwt.input) : Prop :=
  match i with
  | Jwt.Str s => in_range s
  | Jwt.Buf b => Forall is_byte b
  end.

(** An attribute that the subject name does not look at. *)
Definition ignored (a : Certificate.attribute) : bool :=
  negb (is_CN a) && negb (is_OU a) && negb (is_O a) && negb (is_C a)
  && negb (is_serial a).

(** An attribute that the subject name sees only as the serial number
    attribute. *)
Definition serial_only (a : Certificate.attribute) : bool :=
  negb (is_CN a) && negb (is_OU a) && negb (is_O a) && negb (is_C a)
  && is_serial a.

End Spec.

(* ================================================================== *)
(** * Part II: properties *)
(* ================================================================== *)

(** ** Strings *)

Section StringFacts.

Lemma length_nat (s : jsstring) (n : nat) :
  List.length s = n -> length s = Z.of_nat n.
Proof. unfold length. intros ->. reflexivity. Qed.

Lemma length_app (s t : jsstring) : length (s ++ t) = length s + length t.
Proof. unfold length. rewrite List.length_app. lia. Qed.

Lemma length_nonneg (s : jsstring) : 0 <= length s.
Proof. unfold length. lia. Qed.

(** Inside the string, [slice] is the segment between the two indices. *)
Lemma slice_segment (s : jsstring) (a b : Z) :
  0 <= a -> a <= b -> b <= length s ->
  slice s a b = firstn (Z.to_nat (b - a)) (skipn (Z.to_nat a) s).
Proof.
  intros Ha Hab Hb. unfold slice, clamp_index.
  destruct (Z.ltb_spec a 0); [lia|].
  destruct (Z.ltb_spec b 0); [lia|].
  rewrite !Z.min_l by lia.
  destruct (Z.leb_spec b a); [|reflexivity].
  replace (b - a) with 0 by lia. reflexivity.
Qed.

Lemma slice_length (s : jsstring) (a b : Z) :
  0 <= a -> a <= b -> b <= length s -> length (slice s a b) = b - a.
Proof.
  intros Ha Hab Hb. rewrite slice_segment by assumption.
  unfold length in *. rewrite length_firstn, length_skipn. lia.
Qed.

Lemma firstn_plus {A} (n m : nat) (l : list A) :
  firstn (n + m) l = firstn n l ++ firstn m (skipn n l).
Proof.
  revert l. induction n as [|n IH]; intros l; [reflexivity|].
  destruct l as [|x l]; simpl.
  - rewrite firstn_nil. reflexivity.
  - rewrite IH. reflexivity.
Qed.

(** Two adjacent slices make the slice over both. *)
Lemma slice_adjacent (s : jsstring) (a b c : Z) :
  0 <= a -> a <= b -> b <= c -> c <= length s ->
  slice s a b ++ slice s b c = slice s a c.
Proof.
  intros Ha Hab Hbc Hc.
  rewrite !slice_segment by lia.
  replace (Z.to_nat (c - a)) with (Z.to_nat (b - a) + Z.to_nat (c - b))%nat by lia.
  rewrite firstn_plus. f_equal.
  rewrite skipn_skipn. do 2 f_equal. lia.
Qed.

Lemma slice_prefix (s : jsstring) (b : Z) :
  0 <= b -> b <= length s -> slice s 0 b = firstn (Z.to_nat b) s.
Proof.
  intros. rewrite slice_segment by lia. rewrite Z.sub_0_r. reflexivity.
Qed.

(** The last two characters, as [slice(-2)] takes them. *)
Lemma slice_from_last2 (pre : jsstring) (a b : char) :
  slice_from (pre ++ [a; b]) (-2) = [a; b].
Proof.
  unfold slice_from, slice, clamp_index.
  rewrite length_app. change (length [a; b]) with 2.
  pose proof (length_nonneg pre).
  change (-2 <? 0) with true. cbv iota.
  destruct (Z.ltb_spec (length pre + 2) 0); [lia|].
  rewrite Z.max_l, Z.min_l by lia.
  destruct (Z.leb_spec (length pre + 2) (length pre + 2 + -2)); [lia|].
  replace (length pre + 2 + -2) with (length pre) by lia.
  unfold length. rewrite Nat2Z.id.
  rewrite skipn_app, skipn_all, Nat.sub_diag. simpl.
  replace (Z.to_nat _) with 2%nat by lia. reflexivity.
Qed.

Lemma slice_from_short (c : char) : slice_from [c] (-2) = [c].
Proof. reflexivity. Qed.

(** With the one-character filler ["0"], [padStart] adds the missing
    zeros in front. *)
Lemma padStart_zeros (s : jsstring) (n : Z) :
  padStart s n (lit "0") = List.repeat 48 (Z.to_nat (n - length s)) ++ s.
Proof.
  unfold padStart. destruct (Z.leb_spec n (length s)) as [H|H].
  - replace (Z.to_nat (n - length s)) with O by lia. reflexivity.
  - change (lit "0") with [48]. cbv iota.
    f_equal. generalize (Z.to_nat (n - length s)). intros k.
    set (x := concat _).
    assert (E : x = List.repeat 48 k).
    { subst x. induction k as [|k IH]; simpl; [reflexivity|]. f_equal. exact IH. }
    rewrite E. apply firstn_all2. rewrite repeat_length. lia.
Qed.

Lemma repeat_char (c : char) (n : Z) :
  repeat [c] n = List.repeat c (Z.to_nat n).
Proof.
  unfold repeat. induction (Z.to_nat n) as [|k IH]; simpl; [reflexivity|].
  f_equal. exact IH.
Qed.

Lemma replace_char_map (c d : char) (s : jsstring) :
  replace_char c [d] s = map (fun x => if x =? c then d else x) s.
Proof.
  unfold replace_char. induction s as [|x s IH]; simpl; [reflexivity|].
  rewrite IH. destruct (x =? c); reflexivity.
Qed.

Lemma replace_char_filter (c : char) (s : jsstring) :
  replace_char c [] s = filter (fun x => negb (x =? c)) s.
Proof.
  unfold replace_char. induction s as [|x s IH]; simpl; [reflexivity|].
  rewrite IH. destruct (x =? c); reflexivity.
Qed.

Lemma replace_char_absent (c : char) (by_ s : jsstring) :
  includes_char c s = false -> replace_char c by_ s = s.
Proof.
  unfold replace_char, includes_char. induction s as [|x s IH]; simpl; [reflexivity|].
  intros H. apply orb_false_iff in H as [Hx Hs]. rewrite Hx. simpl.
  f_equal. auto.
Qed.

Lemma str_eqb_eq (a b : jsstring) : str_eqb a b = true <-> a = b.
Proof.
  revert b. induction a as [|x a IH]; intros [|y b]; simpl; split; try congruence.
  - intros H. apply andb_true_iff in H as [H1 H2].
    apply Z.eqb_eq in H1. apply IH in H2. congruence.
  - intros H. injection H as -> ->. rewrite Z.eqb_refl. simpl. apply IH. reflexivity.
Qed.

End StringFacts.

(** ** Digits of a number *)

Section DigitFacts.

Variable r : Z.
Hypothesis radix_ge_2 : 2 <= r.

Lemma to_digits_acc (fuel : nat) (n : Z) (acc : jsstring) :
  to_digits r fuel n acc = to_digits r fuel n [] ++ acc.
Proof.
  revert n acc. induction fuel as [|fuel IH]; intros n acc; simpl; [reflexivity|].
  destruct (n / r =? 0); [reflexivity|].
  rewrite IH. rewrite (IH _ [_]). rewrite <- app_assoc. reflexivity.
Qed.

(** Once the fuel covers the number, more fuel changes nothing. *)
Lemma to_digits_fuel (f1 f2 : nat) (n : Z) (acc : jsstring) :
  0 <= n < r ^ Z.of_nat (S f1) -> n < r ^ Z.of_nat (S f2) ->
  to_digits r (S f1) n acc = to_digits r (S f2) n acc.
Proof.
  revert f2 n acc. induction f1 as [|f1 IH]; intros f2 n acc H1 H2.
  - change (r ^ Z.of_nat 1) with (r ^ 1) in H1. rewrite Z.pow_1_r in H1.
    simpl. rewrite Z.div_small by lia. reflexivity.
  - cbn [to_digits]. destruct (Z.eqb_spec (n / r) 0) as [E|E]; [reflexivity|].
    assert (Hq : 0 < n / r).
    { pose proof (Z.div_pos n r). lia. }
    destruct f2 as [|f2].
    + change (r ^ Z.of_nat 1) with (r ^ 1) in H2. rewrite Z.pow_1_r in H2.
      rewrite Z.div_small in Hq by lia. lia.
    + apply IH.
      * split; [lia|]. apply Z.div_lt_upper_bound; [lia|].
        rewrite <- Z.pow_succ_r by lia. rewrite <- Nat2Z.inj_succ. lia.
      * apply Z.div_lt_upper_bound; [lia|].
        rewrite <- Z.pow_succ_r by lia. rewrite <- Nat2Z.inj_succ. lia.
Qed.

Lemma digits_fuel_enough (n : Z) :
  0 <= n -> n < r ^ Z.of_nat (digits_fuel n).
Proof.
  intros Hn. unfold digits_fuel.
  rewrite Nat2Z.inj_succ, Z2Nat.id by apply Z.log2_nonneg.
  apply Z.lt_le_trans with (2 ^ Z.succ (Z.log2 n)).
  - destruct (Z.eq_dec n 0) as [->|Hz]; [reflexivity|].
    apply Z.log2_spec. lia.
  - apply Z.pow_le_mono_l. lia.
Qed.

Lemma int_toString_small (n : Z) :
  0 <= n < r -> int_toString n r = [digit_char n].
Proof.
  intros H. unfold int_toString, digits_fuel.
  destruct (Z.ltb_spec n 0); [lia|].
  simpl. rewrite Z.div_small, Z.mod_small by lia. reflexivity.
Qed.

(** The rendering of a number with more than one digit: the rendering of
    the quotient, then the last digit. *)
Lemma int_toString_step (n : Z) :
  r <= n -> int_toString n r = int_toString (n / r) r ++ [digit_char (n mod r)].
Proof.
  intros H. unfold int_toString.
  assert (Hq : 0 < n / r) by (apply Z.div_str_pos; lia).
  destruct (Z.ltb_spec n 0); [lia|].
  destruct (Z.ltb_spec (n / r) 0); [lia|].
  pose proof (digits_fuel_enough n ltac:(lia)) as Hn.
  pose proof (digits_fuel_enough (n / r) ltac:(lia)) as Hnq.
  unfold digits_fuel in *. cbn [to_digits].
  destruct (Z.eqb_spec (n / r) 0); [lia|].
  rewrite to_digits_acc. f_equal.
  assert (Hl : 0 < Z.log2 n) by (apply Z.log2_pos; lia).
  destruct (Z.to_nat (Z.log2 n)) as [|k] eqn:Ek; [lia|].
  apply to_digits_fuel; [|exact Hnq].
  split; [lia|]. apply Z.div_lt_upper_bound; [lia|].
  rewrite <- Z.pow_succ_r by lia. rewrite <- Nat2Z.inj_succ. exact Hn.
Qed.

Lemma fixed_digits_zero (w : nat) : Spec.fixed_digits r w 0 = List.repeat 48 w.
Proof.
  induction w as [|w IH]; [reflexivity|].
  cbn [Spec.fixed_digits]. rewrite Z.div_0_l, Z.mod_0_l by lia. rewrite IH.
  change (digit_char 0) with 48. symmetry. apply (repeat_cons w 48).
Qed.

Lemma fixed_digits_length (w : nat) (v : Z) :
  List.length (Spec.fixed_digits r w v) = w.
Proof.
  revert v. induction w as [|w IH]; intros v; [reflexivity|].
  cbn [Spec.fixed_digits]. rewrite List.length_app, IH. simpl. lia.
Qed.

(** Padding the rendering of a number that fits in [w] digits gives its
    fixed-width rendering. *)
Lemma padStart_int_toString (w : nat) (v : Z) :
  0 <= v < r ^ Z.of_nat (S w) ->
  padStart (int_toString v r) (Z.of_nat (S w)) (lit "0") = Spec.fixed_digits r (S w) v.
Proof.
  revert v. induction w as [|w IH]; intros v Hv.
  - change (r ^ Z.of_nat 1) with (r ^ 1) in Hv. rewrite Z.pow_1_r in Hv.
    rewrite int_toString_small by lia. cbn [Spec.fixed_digits].
    rewrite Z.mod_small by lia. reflexivity.
  - destruct (Z.lt_ge_cases v r) as [Hs|Hb].
    + rewrite int_toString_small by lia. rewrite padStart_zeros.
      change (length [digit_char v]) with 1.
      replace (Z.to_nat (Z.of_nat (S (S w)) - 1)) with (S w) by lia.
      cbn [Spec.fixed_digits]. rewrite (Z.div_small v r), (Z.mod_small v r) by lia.
      rewrite Z.div_0_l, Z.mod_0_l by lia.
      rewrite fixed_digits_zero. f_equal. exact (repeat_cons w 48).
    + rewrite int_toString_step by lia.
      change (Spec.fixed_digits r (S (S w)) v)
        with (Spec.fixed_digits r (S w) (v / r) ++ [digit_char (v mod r)]).
      rewrite <- IH.
      * rewrite !padStart_zeros. rewrite length_app. change (length [_]) with 1.
        rewrite <- app_assoc. do 2 f_equal. lia.
      * split; [apply Z.div_pos; lia|].
        apply Z.div_lt_upper_bound; [lia|].
        rewrite <- Z.pow_succ_r by lia. rewrite <- Nat2Z.inj_succ. lia.
Qed.

End DigitFacts.

Section DecimalFacts.

Lemma digit_char_decimal (d : Z) : 0 <= d < 10 -> digit_char d = 48 + d.
Proof. intros H. unfold digit_char. destruct (Z.ltb_spec d 10); [reflexivity|lia]. Qed.

Lemma is_digit_range (c : char) : is_digit c = true <-> 48 <= c <= 57.
Proof. unfold is_digit. rewrite andb_true_iff, !Z.leb_le. reflexivity. Qed.

Lemma all_digits_app (s t : jsstring) :
  Spec.all_digits (s ++ t) = Spec.all_digits s && Spec.all_digits t.
Proof. apply forallb_app. Qed.

Lemma fixed_digits_all_digits (w : nat) (v : Z) :
  Spec.all_digits (Spec.fixed_digits 10 w v) = true.
Proof.
  revert v. induction w as [|w IH]; intros v; [reflexivity|].
  cbn [Spec.fixed_digits]. rewrite all_digits_app, IH.
  pose proof (Z.mod_pos_bound v 10 ltac:(lia)).
  unfold Spec.all_digits. cbn [forallb]. rewrite digit_char_decimal by lia.
  rewrite andb_true_r. apply is_digit_range. lia.
Qed.

Lemma decimal_value_snoc (s : jsstring) (c : char) :
  Spec.decimal_value (s ++ [c]) = Spec.decimal_value s * 10 + (c - 48).
Proof. unfold Spec.decimal_value. rewrite fold_left_app. reflexivity. Qed.

(** Reading a fixed-width rendering back gives the number, up to the
    width. *)
Lemma decimal_value_fixed_digits (w : nat) (v : Z) :
  Spec.decimal_value (Spec.fixed_digits 10 w v) = v mod 10 ^ Z.of_nat w.
Proof.
  revert v. induction w as [|w IH]; intros v.
  - simpl. rewrite Z.mod_1_r. reflexivity.
  - cbn [Spec.fixed_digits]. rewrite decimal_value_snoc, IH.
    pose proof (Z.mod_pos_bound v 10 ltac:(lia)).
    rewrite digit_char_decimal by lia.
    rewrite Nat2Z.inj_succ, Z.pow_succ_r by lia.
    rewrite Z.rem_mul_r by lia. lia.
Qed.

Lemma digit_sum_app (s t : jsstring) :
  Spec.digit_sum (s ++ t) = Spec.digit_sum s + Spec.digit_sum t.
Proof.
  unfold Spec.digit_sum. induction s as [|c s IH]; simpl; [reflexivity|].
  rewrite IH. lia.
Qed.

Lemma digit_sum_nonneg (s : jsstring) :
  Spec.all_digits s = true -> 0 <= Spec.digit_sum s.
Proof.
  unfold Spec.digit_sum, Spec.all_digits.
  induction s as [|c s IH]; simpl; intros H; [lia|].
  apply andb_true_iff in H as [Hc Hs]. apply is_digit_range in Hc.
  specialize (IH Hs). lia.
Qed.

End DecimalFacts.

(** ** The code formatter: checksum, date and hexadecimal conversion *)

Section FormatterFacts.

Import JSDate CodeFormatter Spec.

Lemma control_sum (s : jsstring) (acc : Z) :
  Spec.all_digits s = true ->
  fold_left (fun acc digit => add acc (parseInt_char digit)) s (Num acc)
  = Num (acc + Spec.digit_sum s).
Proof.
  unfold Spec.all_digits, Spec.digit_sum.
  revert acc. induction s as [|c s IH]; intros acc H; simpl.
  - f_equal. lia.
  - simpl in H. apply andb_true_iff in H as [Hc Hs].
    unfold parseInt_char. rewrite Hc. simpl. rewrite IH by assumption.
    f_equal. lia.
Qed.

(** On a string of digits the control character is the digit of the sum
    of the digits modulo 10. *)
Lemma calculateControlCharacter_digits (s : jsstring) :
  Spec.all_digits s = true ->
  calculateControlCharacter s = [48 + Spec.digit_sum s mod 10].
Proof.
  intros H. unfold calculateControlCharacter. rewrite control_sum by assumption.
  pose proof (digit_sum_nonneg s H) as Hs.
  cbn [rem Z.eqb number_toString Z.add].
  rewrite Z.rem_mod_nonneg by lia.
  pose proof (Z.mod_pos_bound (Spec.digit_sum s) 10 ltac:(lia)).
  rewrite int_toString_small by lia.
  rewrite digit_char_decimal by lia. reflexivity.
Qed.

Lemma two_digits (n : Z) :
  0 <= n < 100 ->
  padStart (number_toString (Num n)) 2 (lit "0") = Spec.fixed_digits 10 2 n.
Proof.
  intros H. exact (padStart_int_toString 10 ltac:(lia) 1 n H).
Qed.

Lemma last_two_digits (n : Z) :
  10 <= n ->
  exists pre, int_toString n 10 = pre ++ Spec.fixed_digits 10 2 (n mod 100).
Proof.
  intros H. rewrite (int_toString_step 10) by lia.
  assert (E : Spec.fixed_digits 10 2 (n mod 100)
              = [digit_char ((n / 10) mod 10); digit_char (n mod 10)]).
  { cbn [Spec.fixed_digits app].
    replace (n mod 100 / 10 mod 10) with (n / 10 mod 10)
      by (Z.div_mod_to_equations; lia).
    replace (n mod 100 mod 10) with (n mod 10)
      by (Z.div_mod_to_equations; lia).
    reflexivity. }
  rewrite E. destruct (Z.lt_ge_cases (n / 10) 10) as [Hs|Hb].
  - exists []. rewrite (int_toString_small 10).
    + rewrite (Z.mod_small (n / 10)); [reflexivity|]. Z.div_mod_to_equations. lia.
    + Z.div_mod_to_equations. lia.
  - exists (int_toString (n / 10 / 10) 10).
    rewrite (int_toString_step 10 ltac:(lia) (n / 10)) by lia.
    rewrite <- app_assoc. reflexivity.
Qed.

(** The two-digit year: the last two characters of the rendering. *)
Lemma year_last2 (y : Z) :
  10 <= Z.abs y ->
  slice_from (number_toString (Num y)) (-2) = Spec.fixed_digits 10 2 (Z.abs y mod 100).
Proof.
  intros H. cbn [number_toString].
  destruct (last_two_digits (Z.abs y) H) as [pre E].
  assert (E2 : Spec.fixed_digits 10 2 (Z.abs y mod 100)
              = [digit_char ((Z.abs y mod 100) / 10 mod 10);
                 digit_char ((Z.abs y mod 100) mod 10)]) by reflexivity.
  rewrite E2 in *.
  destruct (Z.lt_ge_cases y 0) as [Hneg|Hpos].
  - assert (E3 : int_toString y 10 = 45 :: int_toString (Z.abs y) 10).
    { unfold int_toString.
      destruct (Z.ltb_spec y 0); [|lia].
      destruct (Z.ltb_spec (Z.abs y) 0); [lia|].
      rewrite Z.abs_neq by lia. reflexivity. }
    rewrite E3, E. change (45 :: pre ++ ?l) with ((45 :: pre) ++ l).
    apply slice_from_last2.
  - rewrite Z.abs_eq in * by lia. rewrite E. apply slice_from_last2.
Qed.

(** The twelve digits of a date whose year has two digits or more. *)
Lemma formatDateForCode_valid (Date_parse : jsstring -> Date) (a : arg) (f : fields) :
  Spec.date_object Date_parse a = Valid f ->
  fields_in_range f -> 10 <= Z.abs (fullYear f) ->
  formatDateForCode Date_parse a = Spec.date12 f.
Proof.
  intros Hd (Hy & Hm & Hday & Hh & Hmin & Hs) Hy10.
  unfold formatDateForCode, Spec.date12.
  change (match a with OfDate d => d | OfString s => Date_parse s end)
    with (Spec.date_object Date_parse a).
  rewrite Hd.
  unfold getFullYear, getMonth, getDate, getHours, getMinutes, getSeconds, getter.
  cbn [add]. rewrite year_last2 by assumption.
  rewrite !two_digits by lia. reflexivity.
Qed.

Lemma date12_length (f : fields) : List.length (Spec.date12 f) = 12%nat.
Proof. unfold Spec.date12. rewrite !List.length_app, !fixed_digits_length. reflexivity. Qed.

Lemma date12_all_digits (f : fields) : Spec.all_digits (Spec.date12 f) = true.
Proof.
  unfold Spec.date12. rewrite !all_digits_app, !fixed_digits_all_digits. reflexivity.
Qed.

(** *** Hexadecimal digits *)

Lemma hex_digit_cases (c : char) :
  is_hex_digit c = true <->
  48 <= c <= 57 \/ 97 <= c <= 102 \/ 65 <= c <= 70.
Proof.
  unfold is_hex_digit, is_digit.
  rewrite !orb_true_iff, !andb_true_iff, !Z.leb_le. tauto.
Qed.

Lemma hex_digit_not_space (c : char) : is_hex_digit c = true -> is_space c = false.
Proof.
  intros H. apply hex_digit_cases in H. unfold is_space.
  repeat match goal with
         | |- context [c =? ?k] => rewrite (proj2 (Z.eqb_neq c k)) by lia
         end.
  rewrite (proj2 (Z.leb_gt c 13)), (proj2 (Z.leb_gt 8192 c)) by lia.
  rewrite andb_false_r. reflexivity.
Qed.

Lemma filter_spaces_hex (s : jsstring) :
  forallb is_hex_digit s = true -> filter (fun c => negb (is_space c)) s = s.
Proof.
  induction s as [|c s IH]; simpl; [reflexivity|].
  intros H. apply andb_true_iff in H as [Hc Hs].
  rewrite (hex_digit_not_space c Hc). simpl. f_equal. auto.
Qed.

Lemma toLowerCase_hex (s : jsstring) :
  forallb is_hex_digit s = true -> forallb is_lower_hex (toLowerCase s) = true.
Proof.
  unfold toLowerCase. induction s as [|c s IH]; simpl; [reflexivity|].
  intros H. apply andb_true_iff in H as [Hc Hs]. rewrite IH by assumption.
  rewrite andb_true_r. apply hex_digit_cases in Hc.
  unfold is_lower_hex, is_digit.
  destruct (Z.leb_spec 65 c); destruct (Z.leb_spec c 90); cbn [andb];
    repeat match goal with
           | |- context [?a <=? ?b] => destruct (Z.leb_spec a b)
           end; simpl; try reflexivity; lia.
Qed.

Lemma lower_hex_is_hex (s : jsstring) :
  forallb is_lower_hex s = true -> forallb is_hex_digit s = true.
Proof.
  induction s as [|c s IH]; simpl; [reflexivity|].
  intros H. apply andb_true_iff in H as [Hc Hs]. rewrite IH by assumption.
  rewrite andb_true_r. unfold is_hex_digit. unfold is_lower_hex in Hc.
  rewrite Hc. reflexivity.
Qed.

Lemma hex_value_range (c : char) : is_hex_digit c = true -> 0 <= hex_value c < 16.
Proof.
  intros H. apply hex_digit_cases in H. unfold hex_value, is_digit.
  repeat match goal with
         | |- context [?a <=? ?b] => destruct (Z.leb_spec a b)
         end; simpl; lia.
Qed.

Lemma digit_char_hex_value (c : char) :
  is_lower_hex c = true -> digit_char (hex_value c) = c.
Proof.
  intros H. unfold is_lower_hex in H.
  unfold hex_value, digit_char. destruct (is_digit c) eqn:D.
  - apply is_digit_range in D. destruct (Z.ltb_spec (c - 48) 10); lia.
  - simpl in H. rewrite H. apply andb_true_iff in H as [H1 H2].
    apply Z.leb_le in H1, H2. destruct (Z.ltb_spec (c - 87) 10); lia.
Qed.

Lemma hex_number_snoc (s : jsstring) (c : char) :
  Spec.hex_number (s ++ [c]) = Spec.hex_number s * 16 + hex_value c.
Proof. unfold Spec.hex_number. rewrite fold_left_app. reflexivity. Qed.

Lemma hex_number_range (s : jsstring) :
  forallb is_hex_digit s = true ->
  0 <= Spec.hex_number s < 16 ^ Z.of_nat (List.length s).
Proof.
  induction s as [|c s IH] using rev_ind; intros H.
  - change (0 <= 0 < 1). lia.
  - rewrite forallb_app in H. apply andb_true_iff in H as [Hs Hc].
    simpl in Hc. rewrite andb_true_r in Hc.
    pose proof (hex_value_range c Hc). specialize (IH Hs).
    rewrite hex_number_snoc, List.length_app. simpl List.length.
    rewrite Nat.add_1_r, Nat2Z.inj_succ, Z.pow_succ_r by lia. lia.
Qed.

(** Rendering the value of lower-case hexadecimal digits in as many
    digits gives the digits back. *)
Lemma fixed_digits_hex_number (s : jsstring) :
  forallb is_lower_hex s = true ->
  Spec.fixed_digits 16 (List.length s) (Spec.hex_number s) = s.
Proof.
  induction s as [|c s IH] using rev_ind; intros H; [reflexivity|].
  rewrite forallb_app in H. apply andb_true_iff in H as [Hs Hc].
  simpl in Hc. rewrite andb_true_r in Hc.
  assert (Hr : 0 <= hex_value c < 16).
  { apply hex_value_range. unfold is_hex_digit. unfold is_lower_hex in Hc.
    rewrite Hc. reflexivity. }
  rewrite List.length_app. simpl List.length. rewrite Nat.add_1_r.
  cbn [Spec.fixed_digits]. rewrite hex_number_snoc.
  replace ((Spec.hex_number s * 16 + hex_value c) / 16) with (Spec.hex_number s)
    by (Z.div_mod_to_equations; lia).
  replace ((Spec.hex_number s * 16 + hex_value c) mod 16) with (hex_value c)
    by (Z.div_mod_to_equations; lia).
  rewrite IH by assumption. rewrite digit_char_hex_value by assumption. reflexivity.
Qed.

Lemma hex_value_lower (c : char) :
  is_hex_digit c = true ->
  hex_value (if (65 <=? c) && (c <=? 90) then c + 32 else c) = hex_value c.
Proof.
  intros H. apply hex_digit_cases in H. unfold hex_value, is_digit.
  destruct (Z.leb_spec 65 c); destruct (Z.leb_spec c 90); cbn [andb];
    repeat match goal with
           | |- context [?a <=? ?b] => destruct (Z.leb_spec a b)
           end; simpl; lia.
Qed.

Lemma hex_number_toLowerCase (s : jsstring) :
  forallb is_hex_digit s = true ->
  Spec.hex_number (toLowerCase s) = Spec.hex_number s.
Proof.
  unfold Spec.hex_number, toLowerCase. generalize 0.
  induction s as [|c s IH]; intros acc H; simpl; [reflexivity|].
  simpl in H. apply andb_true_iff in H as [Hc Hs].
  rewrite hex_value_lower by assumption. apply IH. assumption.
Qed.

Lemma toLowerCase_length (s : jsstring) : List.length (toLowerCase s) = List.length s.
Proof. apply length_map. Qed.

Lemma validateZOI_spec (zoi : jsstring) :
  validateZOI zoi = true <->
  List.length zoi = 32%nat /\ forallb is_hex_digit zoi = true.
Proof.
  unfold validateZOI, length. rewrite andb_true_iff, Z.eqb_eq.
  split; intros [H1 H2]; split; auto; lia.
Qed.

(** [hexToDecimalPadded] on a valid ZOI: the value in 39 digits. *)
Lemma hexToDecimalPadded_zoi (zoi : jsstring) :
  validateZOI zoi = true ->
  hexToDecimalPadded zoi 39 = Return (Spec.fixed_digits 10 39 (Spec.hex_number zoi)).
Proof.
  intros H. apply validateZOI_spec in H as [Hlen Hhex].
  unfold hexToDecimalPadded. rewrite filter_spaces_hex by assumption.
  pose proof (toLowerCase_hex zoi Hhex) as Hlow.
  apply lower_hex_is_hex in Hlow.
  unfold BigInt_of_hex. rewrite Hlow.
  destruct (toLowerCase zoi) as [|c rest] eqn:E.
  { apply (f_equal (@List.length _)) in E. rewrite toLowerCase_length, Hlen in E.
    discriminate. }
  rewrite <- E. cbn [bind].
  change (fold_left _ (toLowerCase zoi) 0) with (Spec.hex_number (toLowerCase zoi)).
  rewrite hex_number_toLowerCase by assumption.
  pose proof (hex_number_range zoi Hhex) as Hr. rewrite Hlen in Hr.
  f_equal. apply (padStart_int_toString 10 ltac:(lia) 38).
  split; [lia|]. eapply Z.lt_trans; [apply Hr|]. reflexivity.
Qed.

End FormatterFacts.

(** ** The 60-digit fiscal payload *)

Section PayloadFacts.

Import JSDate CodeFormatter Spec.

Variable Date_parse : jsstring -> Date.


(** C3. The two test vectors of the FURS specification: the payload of
    ZOI a7e5..., tax number 12345678 and the local time 2015-08-15
    10:13:32 with its decimal ZOI and control digit 1, and the decimal
    ZOI and control digit 0 of ZOI 3024.... *)
Theorem formatCodeData_test_vectors :
  let date := OfDate (Valid (mkFields 2015 7 15 10 13 32)) in
  formatCodeData Date_parse (lit "a7e5f55e1dbb48b799268e1a6d8618a3") (Num 12345678) date
  = Return (lit "223175087923687075112234402528973166755123456781508151013321")
  /\ hexToDecimalPadded (lit "a7e5f55e1dbb48b799268e1a6d8618a3") 39
     = Return (lit "223175087923687075112234402528973166755")
  /\ firstn 39 (lit "223175087923687075112234402528973166755123456781508151013321")
     = lit "223175087923687075112234402528973166755"
  /\ skipn 59 (lit "223175087923687075112234402528973166755123456781508151013321")
     = lit "1"
  /\ hexToDecimalPadded (lit "3024e56bf1ddd2e7eeb5715c6859a913") 39
     = Return (lit "063994519708649896901260100447252359443")
  /\ formatCodeData Date_parse (lit "3024e56bf1ddd2e7eeb5715c6859a913") (Num 12345678) date
     = Return (lit "063994519708649896901260100447252359443123456781508151013320")
  /\ skipn 59 (lit "063994519708649896901260100447252359443123456781508151013320")
     = lit "0"
  /\ calculateControlCharacter
       (lit "06399451970864989690126010044725235944312345678150815101332")
     = lit "0".
Proof. vm_compute. repeat split. Qed.

(** C4, as amended. For a ZOI [z] of 32 hexadecimal digits,
    [hexToDecimalPadded(z, 39)] has exactly 39 characters, all digits;
    read back as a big integer it is the number [z] denotes, and the
    hexadecimal rendering of that number, left-padded with zeros to 32
    characters, is [z] in lower case. *)
Theorem hexToDecimalPadded_roundtrip (z : jsstring) :
  validateZOI z = true ->
  exists decimal n,
    hexToDecimalPadded z 39 = Return decimal
    /\ List.length decimal = 39%nat
    /\ BigInt_of_decimal decimal = Some n
    /\ n = hex_number z
    /\ padStart (int_toString n 16) 32 (lit "0") = toLowerCase z.
Proof.
  intros Hz. pose proof (validateZOI_spec z) as [Hv _]. destruct (Hv Hz) as [Hlen Hhex].
  pose proof (hex_number_range z Hhex) as Hr. rewrite Hlen in Hr.
  exists (fixed_digits 10 39 (hex_number z)), (hex_number z). repeat apply conj.
  - apply hexToDecimalPadded_zoi. assumption.
  - apply fixed_digits_length.
  - unfold BigInt_of_decimal. rewrite fixed_digits_all_digits. f_equal.
    rewrite decimal_value_fixed_digits. apply Z.mod_small.
    split; [lia|]. eapply Z.lt_trans; [apply Hr|]. reflexivity.
  - reflexivity.
  - rewrite (padStart_int_toString 16 ltac:(lia) 31) by exact Hr.
    rewrite <- (hex_number_toLowerCase z Hhex).
    rewrite <- (fixed_digits_hex_number (toLowerCase z)) at 2
      by (apply toLowerCase_hex; assumption).
    rewrite toLowerCase_length, Hlen. reflexivity.
Qed.

End PayloadFacts.

Section PayloadExamples.

Import JSDate CodeFormatter Spec.



(** The same for the invalid date, whose fields are all NaN. *)
Lemma formatCodeData_invalid_date :
  formatCodeData (fun _ => Invalid) (lit "a7e5f55e1dbb48b799268e1a6d8618a3")
    (Num 12345678) (OfDate Invalid)
  = Return (lit "22317508792368707511223440252897316675512345678aNNaNNaNNaNNaNNaNNaN").
Proof. vm_compute. reflexivity. Qed.

(** The theorem of C4 at the first test vector. *)
Lemma hexToDecimalPadded_roundtrip_witness :
  exists decimal n,
    hexToDecimalPadded (lit "a7e5f55e1dbb48b799268e1a6d8618a3") 39 = Return decimal
    /\ List.length decimal = 39%nat
    /\ BigInt_of_decimal decimal = Some n
    /\ n = hex_number (lit "a7e5f55e1dbb48b799268e1a6d8618a3")
    /\ padStart (int_toString n 16) 32 (lit "0")
       = toLowerCase (lit "a7e5f55e1dbb48b799268e1a6d8618a3").
Proof.
  apply (hexToDecimalPadded_roundtrip (lit "a7e5f55e1dbb48b799268e1a6d8618a3")).
  reflexivity.
Defined.

(** C4 as stated fails for a ZOI that starts with a zero: the big
    integer has no leading zeros, so its hexadecimal rendering is
    shorter than the ZOI. *)
Lemma hexToDecimalPadded_leading_zero :
  validateZOI (lit "00000000000000000000000000000001") = true
  /\ hexToDecimalPadded (lit "00000000000000000000000000000001") 39
     = Return (lit "000000000000000000000000000000000000001")
  /\ BigInt_of_decimal (lit "000000000000000000000000000000000000001") = Some 1
  /\ int_toString 1 16 = lit "1"
  /\ toLowerCase (int_toString 1 16)
     <> toLowerCase (lit "00000000000000000000000000000001").
Proof.
  repeat apply conj; try (vm_compute; reflexivity).
  vm_compute. discriminate.
Qed.

End PayloadExamples.

(** ** The Code128 split *)

Section SplitFacts.

Import CodeFormatter Spec.

Lemma data_slice_part (prefix seq data : jsstring) :
  List.length seq = 1%nat ->
  data_slice prefix (prefix ++ seq ++ data) = data.
Proof.
  intros H. destruct seq as [|c [|? ?]]; try discriminate.
  unfold data_slice. rewrite Nat.add_1_r.
  rewrite skipn_app. rewrite skipn_all2 by lia.
  replace (S (List.length prefix) - List.length prefix)%nat with 1%nat by lia.
  reflexivity.
Qed.

(** The parts emitted for each part count of the rule table. *)
Lemma splitForCode128_2_parts (payload : jsstring) :
  List.length payload = 60%nat ->
  splitForCode128 payload (Num 2)
  = Return [lit "4" ++ lit "1" ++ slice payload 0 28;
            lit "4" ++ lit "2" ++ slice payload 28 56].
Proof.
  intros Hlen. unfold splitForCode128. rewrite (length_nat _ _ Hlen). reflexivity.
Qed.

Lemma splitForCode128_3_parts (payload : jsstring) :
  List.length payload = 60%nat ->
  splitForCode128 payload (Num 3)
  = Return [lit "4" ++ lit "1" ++ slice payload 0 18;
            lit "4" ++ lit "2" ++ slice payload 18 36;
            lit "4" ++ lit "3" ++ slice payload 36 54].
Proof.
  intros Hlen. unfold splitForCode128. rewrite (length_nat _ _ Hlen). reflexivity.
Qed.

Lemma splitForCode128_4_parts (payload : jsstring) :
  List.length payload = 60%nat ->
  splitForCode128 payload (Num 4)
  = Return [lit "44" ++ lit "1" ++ slice payload 0 12;
            lit "44" ++ lit "2" ++ slice payload 12 24;
            lit "44" ++ lit "3" ++ slice payload 24 36;
            lit "44" ++ lit "4" ++ slice payload 36 48].
Proof.
  intros Hlen. unfold splitForCode128. rewrite (length_nat _ _ Hlen). reflexivity.
Qed.

Lemma splitForCode128_5_parts (payload : jsstring) :
  List.length payload = 60%nat ->
  splitForCode128 payload (Num 5)
  = Return [lit "4" ++ lit "1" ++ slice payload 0 10;
            lit "4" ++ lit "2" ++ slice payload 10 20;
            lit "4" ++ lit "3" ++ slice payload 20 30;
            lit "4" ++ lit "4" ++ slice payload 30 40;
            lit "4" ++ lit "5" ++ slice payload 40 50].
Proof.
  intros Hlen. unfold splitForCode128. rewrite (length_nat _ _ Hlen). reflexivity.
Qed.

Lemma splitForCode128_6_parts (payload : jsstring) :
  List.length payload = 60%nat ->
  splitForCode128 payload (Num 6)
  = Return [lit "4" ++ lit "1" ++ slice payload 0 8;
            lit "4" ++ lit "2" ++ slice payload 8 16;
            lit "4" ++ lit "3" ++ slice payload 16 24;
            lit "4" ++ lit "4" ++ slice payload 24 32;
            lit "4" ++ lit "5" ++ slice payload 32 40;
            lit "4" ++ lit "6" ++ slice payload 40 48].
Proof.
  intros Hlen. unfold splitForCode128. rewrite (length_nat _ _ Hlen). reflexivity.
Qed.

Lemma part_length (payload prefix seq : jsstring) (a b : Z) :
  List.length payload = 60%nat -> 0 <= a -> a <= b -> b <= 60 ->
  length (prefix ++ seq ++ slice payload a b) = length prefix + length seq + (b - a).
Proof.
  intros Hlen Ha Hab Hb. rewrite !length_app.
  rewrite slice_length; rewrite ?(length_nat _ _ Hlen); lia.
Qed.

(** C8. For a payload of 60 digits, [splitForCode128(payload, 4)]
    returns exactly four strings; the part of index i (from 1) is the
    prefix 44, the digit i, and the data slice
    payload[(i-1)*12 : i*12], and has total length 15. *)
Theorem splitForCode128_four (payload : jsstring) :
  List.length payload = 60%nat ->
  all_digits payload = true ->
  exists p1 p2 p3 p4,
    splitForCode128 payload (Num 4) = Return [p1; p2; p3; p4]
    /\ p1 = lit "44" ++ lit "1" ++ slice payload 0 12
    /\ p2 = lit "44" ++ lit "2" ++ slice payload 12 24
    /\ p3 = lit "44" ++ lit "3" ++ slice payload 24 36
    /\ p4 = lit "44" ++ lit "4" ++ slice payload 36 48
    /\ length p1 = 15 /\ length p2 = 15 /\ length p3 = 15 /\ length p4 = 15.
Proof.
  intros Hlen _.
  exists (lit "44" ++ lit "1" ++ slice payload 0 12),
    (lit "44" ++ lit "2" ++ slice payload 12 24),
    (lit "44" ++ lit "3" ++ slice payload 24 36),
    (lit "44" ++ lit "4" ++ slice payload 36 48).
  split; [apply splitForCode128_4_parts; assumption|].
  do 4 (split; [reflexivity|]).
  rewrite !part_length by (assumption || lia). repeat apply conj; reflexivity.
Qed.

(** X3. For every part count of the table, the data slices of the
    emitted parts, put together in order, are the first [covered n]
    digits of the payload: 56, 54, 48, 50 or 48 of the 60. *)
Lemma splitForCode128_data (payload : jsstring) (n : Z) :
  List.length payload = 60%nat ->
  2 <= n <= 6 ->
  exists parts,
    splitForCode128 payload (Num n) = Return parts
    /\ List.length parts = Z.to_nat n
    /\ concat (map (data_slice (prefix_of n)) parts)
       = firstn (Z.to_nat (covered n)) payload
    /\ covered n < 60.
Proof.
  intros Hlen Hn. pose proof (length_nat _ _ Hlen) as HL.
  assert (C : n = 2 \/ n = 3 \/ n = 4 \/ n = 5 \/ n = 6) by lia.
  destruct C as [-> | [-> | [-> | [-> | ->]]]].
  - eexists. split; [apply splitForCode128_2_parts; assumption|].
    split; [reflexivity|]. split; [|reflexivity].
    cbn [map concat]. change (prefix_of 2) with (lit "4").
    change (covered 2) with 56.
    rewrite !(data_slice_part (lit "4")) by reflexivity. rewrite app_nil_r.
    rewrite slice_adjacent by lia. apply slice_prefix; lia.
  - eexists. split; [apply splitForCode128_3_parts; assumption|].
    split; [reflexivity|]. split; [|reflexivity].
    cbn [map concat]. change (prefix_of 3) with (lit "4").
    change (covered 3) with 54.
    rewrite !(data_slice_part (lit "4")) by reflexivity. rewrite app_nil_r.
    rewrite !slice_adjacent by lia. apply slice_prefix; lia.
  - eexists. split; [apply splitForCode128_4_parts; assumption|].
    split; [reflexivity|]. split; [|reflexivity].
    cbn [map concat]. change (prefix_of 4) with (lit "44").
    change (covered 4) with 48.
    rewrite !(data_slice_part (lit "44")) by reflexivity. rewrite app_nil_r.
    rewrite !slice_adjacent by lia. apply slice_prefix; lia.
  - eexists. split; [apply splitForCode128_5_parts; assumption|].
    split; [reflexivity|]. split; [|reflexivity].
    cbn [map concat]. change (prefix_of 5) with (lit "4").
    change (covered 5) with 50.
    rewrite !(data_slice_part (lit "4")) by reflexivity. rewrite app_nil_r.
    rewrite !slice_adjacent by lia. apply slice_prefix; lia.
  - eexists. split; [apply splitForCode128_6_parts; assumption|].
    split; [reflexivity|]. split; [|reflexivity].
    cbn [map concat]. change (prefix_of 6) with (lit "4").
    change (covered 6) with 48.
    rewrite !(data_slice_part (lit "4")) by reflexivity. rewrite app_nil_r.
    rewrite !slice_adjacent by lia. apply slice_prefix; lia.
Qed.

End SplitFacts.

Section SplitExamples.

Import CodeFormatter Spec.

(** The theorem of C8 at the payload of the first test vector. *)
Lemma splitForCode128_four_witness :
  exists p1 p2 p3 p4,
    splitForCode128 (lit "223175087923687075112234402528973166755123456781508151013321") (Num 4)
    = Return [p1; p2; p3; p4]
    /\ p1 = lit "44" ++ lit "1"
            ++ slice (lit "223175087923687075112234402528973166755123456781508151013321") 0 12
    /\ p2 = lit "44" ++ lit "2"
            ++ slice (lit "223175087923687075112234402528973166755123456781508151013321") 12 24
    /\ p3 = lit "44" ++ lit "3"
            ++ slice (lit "223175087923687075112234402528973166755123456781508151013321") 24 36
    /\ p4 = lit "44" ++ lit "4"
            ++ slice (lit "223175087923687075112234402528973166755123456781508151013321") 36 48
    /\ length p1 = 15 /\ length p2 = 15 /\ length p3 = 15 /\ length p4 = 15.
Proof.
  apply (splitForCode128_four
           (lit "223175087923687075112234402528973166755123456781508151013321")).
  - reflexivity.
  - reflexivity.
Defined.

(** C1 at the payload of the first test vector, split in two: the parts
    carry 28 digits each, and their data slices put together are the
    first 56 digits of the payload. The last four digits, the control
    digit among them, are in no part. *)
Theorem splitForCode128_two_loses_digits :
  splitForCode128 (lit "223175087923687075112234402528973166755123456781508151013321") (Num 2)
  = Return [lit "412231750879236870751122344025";
            lit "422897316675512345678150815101"]
  /\ concat (map (data_slice (lit "4"))
               [lit "412231750879236870751122344025";
                lit "422897316675512345678150815101"])
     = lit "22317508792368707511223440252897316675512345678150815101"
  /\ lit "22317508792368707511223440252897316675512345678150815101"
     <> lit "223175087923687075112234402528973166755123456781508151013321".
Proof.
  repeat apply conj; try (vm_compute; reflexivity).
  vm_compute. discriminate.
Qed.

(** The lemma on the data of the parts at the same payload, split in
    three: the slices put together are its first 54 digits. *)
Lemma splitForCode128_data_witness :
  exists parts,
    splitForCode128 (lit "223175087923687075112234402528973166755123456781508151013321")
      (Num 3)
    = Return parts
    /\ List.length parts = Z.to_nat 3
    /\ concat (map (data_slice (prefix_of 3)) parts)
       = firstn (Z.to_nat (covered 3))
           (lit "223175087923687075112234402528973166755123456781508151013321")
    /\ covered 3 < 60.
Proof.
  apply (splitForCode128_data
           (lit "223175087923687075112234402528973166755123456781508151013321") 3).
  - reflexivity.
  - lia.
Defined.

End SplitExamples.

(** ** The validation of the inputs *)

Section ValidationFacts.

Import JSDate CodeFormatter CodeGenerator Spec.

Lemma int_toString_length (k : nat) (n : Z) :
  10 ^ Z.of_nat k <= n < 10 ^ Z.of_nat (S k) ->
  List.length (int_toString n 10) = S k.
Proof.
  revert n. induction k as [|k IH]; intros n Hn.
  - change (10 ^ Z.of_nat 0) with 1 in Hn. change (10 ^ Z.of_nat 1) with 10 in Hn.
    rewrite (int_toString_small 10) by lia. reflexivity.
  - rewrite !Nat2Z.inj_succ, !Z.pow_succ_r in Hn by lia.
    assert (0 < 10 ^ Z.of_nat k) by (apply Z.pow_pos_nonneg; lia).
    rewrite (int_toString_step 10) by lia.
    rewrite List.length_app, IH; [simpl; lia|].
    rewrite Nat2Z.inj_succ, Z.pow_succ_r by lia.
    split.
    + apply Z.div_le_lower_bound; lia.
    + apply Z.div_lt_upper_bound; lia.
Qed.

Lemma int_toString_padded (k : nat) (n : Z) :
  0 <= n < 10 ^ Z.of_nat (S k) ->
  List.repeat 48 (Z.to_nat (Z.of_nat (S k) - length (int_toString n 10)))
    ++ int_toString n 10
  = fixed_digits 10 (S k) n.
Proof.
  intros Hn. rewrite <- padStart_zeros. apply padStart_int_toString; lia.
Qed.

Lemma int_toString_length_le (k : nat) (n : Z) :
  0 <= n < 10 ^ Z.of_nat (S k) ->
  (List.length (int_toString n 10) <= S k)%nat.
Proof.
  intros Hn. pose proof (int_toString_padded k n Hn) as E.
  apply (f_equal (@List.length _)) in E.
  rewrite List.length_app, fixed_digits_length in E. lia.
Qed.

Lemma int_toString_length_ge (k : nat) (n : Z) :
  10 ^ Z.of_nat k <= n -> (k < List.length (int_toString n 10))%nat.
Proof.
  revert n. induction k as [|k IH]; intros n Hn.
  - change (10 ^ Z.of_nat 0) with 1 in Hn.
    destruct (Z.lt_ge_cases n 10).
    + rewrite (int_toString_small 10) by lia. simpl. lia.
    + rewrite (int_toString_step 10) by lia. rewrite List.length_app. simpl. lia.
  - rewrite Nat2Z.inj_succ, Z.pow_succ_r in Hn by lia.
    assert (0 < 10 ^ Z.of_nat k) by (apply Z.pow_pos_nonneg; lia).
    rewrite (int_toString_step 10) by lia. rewrite List.length_app. simpl.
    assert (k < List.length (int_toString (n / 10) 10))%nat; [|lia].
    apply IH. apply Z.div_le_lower_bound; lia.
Qed.

Lemma int_toString_all_digits (n : Z) :
  0 <= n -> all_digits (int_toString n 10) = true.
Proof.
  intros Hn.
  pose proof (digits_fuel_enough 10 ltac:(lia) n Hn) as Hf. unfold digits_fuel in Hf.
  pose proof (int_toString_padded _ n (conj Hn Hf)) as E.
  pose proof (fixed_digits_all_digits (S (Z.to_nat (Z.log2 n))) n) as D.
  rewrite <- E, all_digits_app in D. apply andb_true_iff in D. tauto.
Qed.

(** The tax numbers that [validateTaxNumber] accepts: the integers of
    exactly eight digits. *)
Lemma validateTaxNumber_spec (t : Z) :
  validateTaxNumber (Num t) = true <-> 10000000 <= t <= 99999999.
Proof.
  unfold validateTaxNumber. cbn [number_toString].
  rewrite andb_true_iff, Z.eqb_eq. split.
  - intros [Hlen Hdig]. unfold length in Hlen.
    destruct (Z.lt_ge_cases t 0) as [Hneg|Hpos].
    { unfold int_toString in Hdig. destruct (Z.ltb_spec t 0); [|lia].
      simpl in Hdig. discriminate. }
    destruct (Z.lt_ge_cases t 10000000) as [Hs|Hs].
    { pose proof (int_toString_length_le 6 t ltac:(change (10 ^ Z.of_nat 7) with 10000000; lia)).
      lia. }
    destruct (Z.lt_ge_cases t 100000000) as [Hb|Hb]; [lia|].
    pose proof (int_toString_length_ge 8 t ltac:(change (10 ^ Z.of_nat 8) with 100000000; lia)).
    lia.
  - intros Ht. split.
    + unfold length. rewrite (int_toString_length 7); [reflexivity|].
      change (10 ^ Z.of_nat 7) with 10000000. change (10 ^ Z.of_nat 8) with 100000000. lia.
    + apply int_toString_all_digits. lia.
Qed.

Lemma validateTaxNumber_NaN : validateTaxNumber NaN = false.
Proof. reflexivity. Qed.

Variable Date_parse : jsstring -> Date.

(** With a valid ZOI, [formatCodeData] returns, whatever the tax number
    and the date. *)
Lemma formatCodeData_returns (zoi : jsstring) (taxNumber : number) (issueDateTime : arg) :
  validateZOI zoi = true ->
  exists s, formatCodeData Date_parse zoi taxNumber issueDateTime = Return s.
Proof.
  intros H. unfold formatCodeData. rewrite hexToDecimalPadded_zoi by assumption.
  cbn [bind]. eexists. reflexivity.
Qed.

Lemma Throw_inj {A} (e1 e2 : Error) : @Throw A e1 = Throw e2 -> e1 = e2.
Proof. intros H. injection H as H. exact H. Qed.

Lemma errors_differ : invalid_zoi <> invalid_tax_number.
Proof. intros E. apply (f_equal message) in E. vm_compute in E. discriminate. Qed.

(** C6, as amended. The entry of [generateCode] checks the ZOI first and
    the tax number second: it throws the ZOI error exactly when the ZOI
    does not match [^[0-9a-fA-F]{32}$], the tax number error exactly
    when the ZOI matches and the rendering of the tax number is not
    eight digits, and it returns the payload exactly when both are
    valid. *)
Theorem generateCode_validation
  (zoi : jsstring) (taxNumber : number) (issueDateTime : arg) :
  (generateCode_formattedData Date_parse zoi taxNumber issueDateTime = Throw invalid_zoi
   <-> validateZOI zoi = false)
  /\ (generateCode_formattedData Date_parse zoi taxNumber issueDateTime
      = Throw invalid_tax_number
      <-> validateZOI zoi = true /\ validateTaxNumber taxNumber = false)
  /\ ((exists payload,
         generateCode_formattedData Date_parse zoi taxNumber issueDateTime = Return payload)
      <-> validateZOI zoi = true /\ validateTaxNumber taxNumber = true).
Proof.
  unfold generateCode_formattedData.
  destruct (validateZOI zoi) eqn:Ez; cbn [negb].
  - destruct (formatCodeData_returns zoi taxNumber issueDateTime Ez) as [s Es].
    destruct (validateTaxNumber taxNumber) eqn:Et; cbn [negb].
    + rewrite Es. split; [|split].
      * split; intros H; discriminate H.
      * split; [intros H; discriminate H | intros [_ H]; discriminate H].
      * split; [intros _; split; reflexivity | intros _; exists s; reflexivity].
    + split; [|split].
      * split; [|intros H; discriminate H].
        intros H. apply Throw_inj in H. destruct (errors_differ (eq_sym H)).
      * split; [intros _; split; reflexivity | intros _; reflexivity].
      * split; [intros [p H]; discriminate H | intros [_ H]; discriminate H].
  - split; [|split].
    + split; intros _; reflexivity.
    + split; [|intros [H _]; discriminate H].
      intros H. apply Throw_inj in H. destruct (errors_differ H).
    + split; [intros [p H]; discriminate H | intros [H _]; discriminate H].
Qed.

End ValidationFacts.

Section ValidationExamples.

Import JSDate CodeFormatter CodeGenerator.

(** C6 as stated fails when both inputs are invalid: the tax number 123
    does not render as eight digits, and the error thrown is the one of
    the ZOI, not the one of the tax number. *)
Lemma generateCode_both_invalid :
  validateTaxNumber (Num 123) = false
  /\ generateCode_formattedData (fun _ => Invalid) (lit "invalid") (Num 123)
       (OfDate (Valid (mkFields 2015 7 15 10 13 32)))
     = Throw invalid_zoi
  /\ generateCode_formattedData (fun _ => Invalid) (lit "invalid") (Num 123)
       (OfDate (Valid (mkFields 2015 7 15 10 13 32)))
     <> Throw invalid_tax_number.
Proof.
  repeat apply conj; try reflexivity.
  intros E. vm_compute in E. discriminate.
Qed.

(** [formatCodeData] itself validates nothing: it pads a short tax
    number, converts a short ZOI, and throws the SyntaxError of [BigInt]
    for a ZOI that is not hexadecimal. *)
Lemma formatCodeData_unvalidated :
  formatCodeData (fun _ => Invalid) (lit "ff") (Num 123)
    (OfDate (Valid (mkFields 2015 7 15 10 13 32)))
  = Return (lit "000000000000000000000000000000000000255000001231508151013328")
  /\ formatCodeData (fun _ => Invalid) (lit "invalid") (Num 12345678)
       (OfDate (Valid (mkFields 2015 7 15 10 13 32)))
     = Throw (mkError "SyntaxError" (lit "Cannot convert 0xinvalid to a BigInt")).
Proof. split; vm_compute; reflexivity. Qed.

End ValidationExamples.

(** ** The authorization token *)

Section TokenFacts.

Import Buffer Jwt Spec.

Variable any : Type.
Variable JSON_stringify : any -> option jsstring.
Variable JSON_parse : jsstring -> completion any.
Variable empty_object : any.
Variable PrivateKey : Type.
Variable sign_sha256 : PrivateKey -> list byte -> jsstring.

(** C7. [decodeJWT] returns on every input string; it never throws. When
    the string does not split on the dot into exactly three segments, or
    the JSON text of the header or of the payload does not parse, the
    value returned is the failure that carries the reason; otherwise it
    holds the decoded header, the decoded payload and the signature
    segment. *)
Theorem decodeJWT_never_throws (jwt : jsstring) :
  decodeJWT any JSON_parse empty_object jwt
  = Return (decoded JSON_parse empty_object jwt).
Proof.
  unfold decodeJWT, decodeJWT_try, decoded, failure.
  destruct (split_char 46 jwt) as [|h [|p [|s [|x rest]]]]; try reflexivity.
  destruct (JSON_parse (base64urlDecode h)) as [hv|e]; [|reflexivity].
  destruct (JSON_parse (base64urlDecode p)) as [pv|e]; reflexivity.
Qed.

(** The segments of a string: one more than its separators. *)
Lemma split_char_length (sep : char) (s : jsstring) :
  List.length (split_char sep s) = S (count_char sep s).
Proof.
  unfold count_char. induction s as [|c s IH]; [reflexivity|].
  cbn [split_char filter]. destruct (c =? sep).
  - simpl. rewrite IH. reflexivity.
  - destruct (split_char sep s); simpl in *; lia.
Qed.

(** A token that does not have exactly two dots is malformed. *)
Lemma decodeJWT_malformed (jwt : jsstring) :
  count_char 46 jwt <> 2%nat ->
  decodeJWT any JSON_parse empty_object jwt
  = Return (failure empty_object (lit "Invalid JWT format - should have 3 parts")).
Proof.
  intros H. unfold decodeJWT, decodeJWT_try.
  pose proof (split_char_length 46 jwt) as L.
  destruct (split_char 46 jwt) as [|h [|p [|s [|x rest]]]]; try reflexivity.
  simpl in L. lia.
Qed.

(** A failure is never valid, and a decoded token always is. *)
Lemma decoded_valid (jwt : jsstring) :
  valid any (decoded JSON_parse empty_object jwt) = true <->
  exists h p s header payload,
    split_char 46 jwt = [h; p; s]
    /\ JSON_parse (base64urlDecode h) = Return header
    /\ JSON_parse (base64urlDecode p) = Return payload
    /\ decoded JSON_parse empty_object jwt = mkJWTDecoded any header payload s true None.
Proof.
  unfold decoded, failure.
  destruct (split_char 46 jwt) as [|h [|p [|s [|x rest]]]]; simpl;
    try (split; [discriminate | intros (? & ? & ? & ? & ? & E & _); discriminate E]).
  destruct (JSON_parse (base64urlDecode h)) as [hv|e] eqn:Eh; simpl.
  - destruct (JSON_parse (base64urlDecode p)) as [pv|e] eqn:Ep; simpl.
    + split; [|reflexivity]. intros _. exists h, p, s, hv, pv. auto.
    + split; [discriminate|].
      intros (? & ? & ? & ? & ? & E & _ & E2 & _). injection E as <- <- <-.
      rewrite Ep in E2. discriminate.
  - split; [discriminate|].
    intros (? & ? & ? & ? & ? & E & E1 & _). injection E as <- <- <-.
    rewrite Eh in E1. discriminate.
Qed.


End TokenFacts.

Section TokenExamples.

Import JSDate Buffer Jwt Spec.


(** [decodeJWT] on a token of three segments and on a string with one
    dot, with a parser that accepts the text [{}] only. *)
Lemma decodeJWT_examples :
  let parse := fun s : jsstring =>
    if str_eqb s (lit "{}") then Return s
    else Throw (mkError "SyntaxError" (lit "Unexpected token")) in
  decodeJWT jsstring parse (lit "{}") (lit "e30.e30.c2ln")
  = Return (mkJWTDecoded jsstring (lit "{}") (lit "{}") (lit "c2ln") true None)
  /\ decodeJWT jsstring parse (lit "{}") (lit "e30.e30")
     = Return (mkJWTDecoded jsstring (lit "{}") (lit "{}") [] false
                 (Some (lit "Invalid JWT format - should have 3 parts")))
  /\ decodeJWT jsstring parse (lit "{}") (lit "e30.!!.c2ln")
     = Return (mkJWTDecoded jsstring (lit "{}") (lit "{}") [] false
                 (Some (lit "Unexpected token"))).
Proof. repeat apply conj; vm_compute; reflexivity. Qed.

End TokenExamples.

(** ** The subject identity string *)

Section CertificateFacts.

Import Certificate Spec.

Lemma find_filter {A} (p q : A -> bool) (l : list A) :
  find p (filter q l) = find (fun a => q a && p a) l.
Proof.
  induction l as [|a l IH]; [reflexivity|].
  simpl. destruct (q a); simpl; [|exact IH].
  destruct (p a); [reflexivity|exact IH].
Qed.

Lemma find_existsb {A} (p : A -> bool) (l : list A) :
  existsb p l = match find p l with Some _ => true | None => false end.
Proof.
  induction l as [|a l IH]; [reflexivity|].
  simpl. destruct (p a); [reflexivity|exact IH].
Qed.

(** The code escapes the commas only when there is one; without a comma
    the escaping changes nothing. *)
Lemma cn_entry (v : attr_value) :
  match v with
  | VString s =>
      if includes_char 44 s
      then push [] (lit "CN=" ++ replace_char 44 (lit "\,") s)
      else push [] (lit "CN=" ++ render v)
  | VOther _ => push [] (lit "CN=" ++ render v)
  end = [lit "CN=" ++ escaped v].
Proof.
  destruct v as [s|r]; [|reflexivity]. unfold escaped, escape_commas. simpl render.
  destruct (includes_char 44 s) eqn:E; [reflexivity|].
  rewrite replace_char_absent by assumption. reflexivity.
Qed.

(** C5. The subject name that [getCertificateInfo] computes is the
    identity string of the specification: the comma-join of the entries
    of the attributes that are present, in the order CN (commas escaped),
    the placeholder [2.5.4.5=#1] when an attribute of that OID is
    present, the OU equal to the device-class marker, the numeric OU, O
    and C; an absent attribute contributes nothing. *)
Theorem subject_name_canonical (subjectAttrs : list attribute) :
  subject_name_of subjectAttrs = canonical_subject subjectAttrs.
Proof.
  unfold subject_name_of, canonical_subject. f_equal.
  rewrite !find_filter. rewrite find_existsb.
  fold is_CN is_OU is_O is_C. unfold is_serial.
  destruct (find is_CN subjectAttrs) as [cn|]; cbn [entry].
  - pose proof (cn_entry (value cn)) as Ecn.
    destruct (value cn) as [s|r] eqn:Ev.
    + destruct (includes_char 44 s); rewrite Ecn;
        repeat match goal with
               | |- context [find ?p subjectAttrs] =>
                   destruct (find p subjectAttrs); cbn [entry push app]
               end; reflexivity.
    + rewrite Ecn;
        repeat match goal with
               | |- context [find ?p subjectAttrs] =>
                   destruct (find p subjectAttrs); cbn [entry push app]
               end; reflexivity.
  - repeat match goal with
           | |- context [find ?p subjectAttrs] =>
               destruct (find p subjectAttrs); cbn [entry push app]
           end; reflexivity.
Qed.

(** The escaping leaves no comma without its backslash. *)
Lemma escape_commas_escaped (s : jsstring) (previous : char) :
  commas_escaped previous (escape_commas s) = true.
Proof.
  unfold escape_commas, replace_char. revert previous.
  induction s as [|c s IH]; intros previous; [reflexivity|].
  cbn [flat_map]. destruct (Z.eqb_spec c 44) as [->|Hc].
  - change (lit "\,") with [92; 44]. cbn [app commas_escaped].
    rewrite IH. reflexivity.
  - cbn [app commas_escaped]. rewrite IH.
    destruct (Z.eqb_spec c 44); [contradiction|reflexivity].
Qed.

End CertificateFacts.

Section CertificateExamples.

Import Certificate Spec.

(** The subject of a test certificate of the tax authority, its
    attributes in the order of the certificate. *)
Lemma subject_name_example :
  subject_name_of
    [mkAttribute (lit "2.5.4.6") (Some (lit "C")) (VString (lit "SI"));
     mkAttribute (lit "2.5.4.10") (Some (lit "O")) (VString (lit "state-institutions"));
     mkAttribute (lit "2.5.4.11") (Some (lit "OU")) (VString (lit "DavPotRacTEST"));
     mkAttribute (lit "2.5.4.11") (Some (lit "OU")) (VString (lit "10442529"));
     mkAttribute (lit "2.5.4.3") (Some (lit "CN")) (VString (lit "TESTNO PODJETJE, 1"));
     mkAttribute (lit "2.5.4.5") (Some (lit "serialNumber")) (VString (lit "1"))]
  = lit "CN=TESTNO PODJETJE\, 1,2.5.4.5=#1,OU=DavPotRacTEST,OU=10442529,O=state-institutions,C=SI"
  /\ subject_name_of
       [mkAttribute (lit "2.5.4.5") (Some (lit "serialNumber")) (VString (lit "987654"));
        mkAttribute (lit "2.5.4.7") (Some (lit "L")) (VString (lit "Ljubljana"));
        mkAttribute (lit "2.5.4.6") (Some (lit "C")) (VString (lit "SI"))]
     = lit "2.5.4.5=#1,C=SI"
  /\ subject_name_of [] = [].
Proof. repeat apply conj; vm_compute; reflexivity. Qed.

End CertificateExamples.

(** ** UTF-8 *)

Section Utf8Facts.

Import Buffer Spec.

Lemma utf8_decode_1 (b : byte) (r : list byte) :
  b < 128 -> utf8_decode (b :: r) = b :: utf8_decode r.
Proof.
  intros H. cbn [utf8_decode]. rewrite (proj2 (Z.ltb_lt b 128)) by lia. reflexivity.
Qed.

Lemma utf8_decode_2 (b1 b2 : byte) (r : list byte) :
  194 <= b1 <= 223 -> 128 <= b2 <= 191 ->
  utf8_decode (b1 :: b2 :: r) = ((b1 - 192) * 64 + (b2 - 128)) :: utf8_decode r.
Proof.
  intros H1 H2. cbn [utf8_decode]. unfold is_continuation.
  rewrite (proj2 (Z.ltb_ge b1 128)) by lia.
  rewrite (proj2 (Z.leb_le 194 b1)), (proj2 (Z.leb_le b1 223)) by lia.
  rewrite (proj2 (Z.leb_le 128 b2)), (proj2 (Z.leb_le b2 191)) by lia.
  reflexivity.
Qed.

Lemma utf8_decode_3 (b1 b2 b3 : byte) (r : list byte) :
  224 <= b1 <= 239 -> second_of_three b1 b2 = true -> 128 <= b3 <= 191 ->
  utf8_decode (b1 :: b2 :: b3 :: r)
  = ((b1 - 224) * 4096 + (b2 - 128) * 64 + (b3 - 128)) :: utf8_decode r.
Proof.
  intros H1 H2 H3. cbn [utf8_decode]. rewrite H2. unfold is_continuation.
  rewrite (proj2 (Z.ltb_ge b1 128)) by lia.
  rewrite (proj2 (Z.leb_le 194 b1)), (proj2 (Z.leb_gt b1 223)) by lia.
  rewrite (proj2 (Z.leb_le 224 b1)), (proj2 (Z.leb_le b1 239)) by lia.
  rewrite (proj2 (Z.leb_le 128 b3)), (proj2 (Z.leb_le b3 191)) by lia.
  reflexivity.
Qed.

Lemma utf8_decode_4 (b1 b2 b3 b4 : byte) (r : list byte) :
  240 <= b1 <= 244 -> second_of_four b1 b2 = true ->
  128 <= b3 <= 191 -> 128 <= b4 <= 191 ->
  utf8_decode (b1 :: b2 :: b3 :: b4 :: r)
  = code_units ((b1 - 240) * 262144 + (b2 - 128) * 4096 + (b3 - 128) * 64 + (b4 - 128))
    ++ utf8_decode r.
Proof.
  intros H1 H2 H3 H4. cbn [utf8_decode]. rewrite H2. unfold is_continuation.
  rewrite (proj2 (Z.ltb_ge b1 128)) by lia.
  rewrite (proj2 (Z.leb_le 194 b1)), (proj2 (Z.leb_gt b1 223)) by lia.
  rewrite (proj2 (Z.leb_le 224 b1)), (proj2 (Z.leb_gt b1 239)) by lia.
  rewrite (proj2 (Z.leb_le 240 b1)), (proj2 (Z.leb_le b1 244)) by lia.
  rewrite (proj2 (Z.leb_le 128 b3)), (proj2 (Z.leb_le b3 191)) by lia.
  rewrite (proj2 (Z.leb_le 128 b4)), (proj2 (Z.leb_le b4 191)) by lia.
  reflexivity.
Qed.

Lemma code_units_bmp (cp : Z) : cp < 65536 -> code_units cp = [cp].
Proof. intros H. unfold code_units. rewrite (proj2 (Z.ltb_lt cp 65536)) by lia. reflexivity. Qed.

(** Decoding the bytes of a scalar value gives its code units back. *)
Lemma decode_encode_code_point (cp : Z) (bs : list byte) :
  scalar cp ->
  utf8_decode (encode_code_point cp ++ bs) = code_units cp ++ utf8_decode bs.
Proof.
  intros [Hr Hs]. unfold encode_code_point.
  destruct (Z.ltb_spec cp 128) as [H1|H1].
  { cbn [app]. rewrite utf8_decode_1 by lia. rewrite code_units_bmp by lia. reflexivity. }
  destruct (Z.ltb_spec cp 2048) as [H2|H2].
  { cbn [app]. rewrite utf8_decode_2 by (Z.div_mod_to_equations; lia).
    rewrite code_units_bmp by lia. cbn [app]. f_equal.
    Z.div_mod_to_equations. lia. }
  destruct (Z.ltb_spec cp 65536) as [H3|H3].
  { cbn [app]. rewrite utf8_decode_3.
    - rewrite code_units_bmp by lia. cbn [app]. f_equal.
      Z.div_mod_to_equations. lia.
    - Z.div_mod_to_equations. lia.
    - unfold second_of_three, is_continuation.
      destruct (Z.eqb_spec (224 + cp / 4096) 224) as [E|E].
      + apply andb_true_iff. rewrite !Z.leb_le. Z.div_mod_to_equations. lia.
      + destruct (Z.eqb_spec (224 + cp / 4096) 237) as [E2|E2];
          apply andb_true_iff; rewrite !Z.leb_le; Z.div_mod_to_equations; lia.
    - Z.div_mod_to_equations. lia. }
  cbn [app]. rewrite utf8_decode_4.
  - do 2 f_equal. Z.div_mod_to_equations. lia.
  - Z.div_mod_to_equations. lia.
  - unfold second_of_four, is_continuation.
    destruct (Z.eqb_spec (240 + cp / 262144) 240) as [E|E].
    + apply andb_true_iff. rewrite !Z.leb_le. Z.div_mod_to_equations. lia.
    + destruct (Z.eqb_spec (240 + cp / 262144) 244) as [E2|E2];
        apply andb_true_iff; rewrite !Z.leb_le; Z.div_mod_to_equations; lia.
  - Z.div_mod_to_equations. lia.
  - Z.div_mod_to_equations. lia.
Qed.

Lemma encode_code_point_bytes (cp : Z) :
  scalar cp -> Forall is_byte (encode_code_point cp).
Proof.
  intros [Hr Hs]. unfold encode_code_point, is_byte.
  destruct (Z.ltb_spec cp 128); [|destruct (Z.ltb_spec cp 2048);
    [|destruct (Z.ltb_spec cp 65536)]];
    repeat constructor; Z.div_mod_to_equations; lia.
Qed.

Lemma surrogate_ranges (c : char) :
  (is_high_surrogate c = true <-> 55296 <= c <= 56319)
  /\ (is_low_surrogate c = true <-> 56320 <= c <= 57343).
Proof.
  unfold is_high_surrogate, is_low_surrogate.
  rewrite !andb_true_iff, !Z.leb_le. tauto.
Qed.

(** Induction on a well-formed string: by single code units and by
    surrogate pairs. *)
Lemma well_formed_ind (P : jsstring -> Prop) :
  P [] ->
  (forall c rest, 0 <= c < 65536 -> ~ (55296 <= c <= 57343) ->
                  P rest -> P (c :: rest)) ->
  (forall c d rest, 55296 <= c <= 56319 -> 56320 <= d <= 57343 ->
                    P rest -> P (c :: d :: rest)) ->
  forall s, well_formed s = true -> P s.
Proof.
  intros Hnil Hone Hpair. fix IH 1. intros [|c rest]; [intros _; exact Hnil|].
  cbn [well_formed]. destruct (is_high_surrogate c) eqn:Eh.
  - destruct rest as [|d rest']; [discriminate|].
    intros H. apply andb_true_iff in H as [Hd Hrest].
    apply surrogate_ranges in Eh, Hd. apply Hpair; auto.
  - intros H. apply andb_true_iff in H as [H Hrest].
    apply andb_true_iff in H as [H Hlow]. apply andb_true_iff in H as [Hge Hlt].
    apply Z.leb_le in Hge. apply Z.ltb_lt in Hlt.
    apply negb_true_iff in Hlow.
    assert (Hh : ~ (55296 <= c <= 56319)).
    { intros Hc. apply surrogate_ranges in Hc. congruence. }
    assert (Hl : ~ (56320 <= c <= 57343)).
    { intros Hc. apply surrogate_ranges in Hc. congruence. }
    apply Hone; auto; lia.
Qed.

Lemma utf8_encode_single (c : char) (rest : jsstring) :
  0 <= c < 65536 -> ~ (55296 <= c <= 57343) ->
  utf8_encode (c :: rest) = encode_code_point c ++ utf8_encode rest.
Proof.
  intros Hr Hs. cbn [utf8_encode].
  destruct (is_high_surrogate c) eqn:Eh.
  { apply surrogate_ranges in Eh. lia. }
  destruct (is_low_surrogate c) eqn:El.
  { apply surrogate_ranges in El. lia. }
  reflexivity.
Qed.

Lemma utf8_encode_pair (c d : char) (rest : jsstring) :
  55296 <= c <= 56319 -> 56320 <= d <= 57343 ->
  utf8_encode (c :: d :: rest)
  = encode_code_point (65536 + (c - 55296) * 1024 + (d - 56320)) ++ utf8_encode rest.
Proof.
  intros Hc Hd. cbn [utf8_encode].
  rewrite (proj2 (proj1 (surrogate_ranges c)) Hc).
  rewrite (proj2 (proj2 (surrogate_ranges d)) Hd). reflexivity.
Qed.

(** The UTF-8 round trip: decoding the bytes of a well-formed string
    gives the string. *)
Lemma utf8_roundtrip (s : jsstring) :
  well_formed s = true -> utf8_decode (utf8_encode s) = s.
Proof.
  revert s. apply well_formed_ind.
  - reflexivity.
  - intros c rest Hr Hs IH. rewrite utf8_encode_single by assumption.
    rewrite decode_encode_code_point by (unfold scalar; lia).
    rewrite code_units_bmp by lia. rewrite IH. reflexivity.
  - intros c d rest Hc Hd IH. rewrite utf8_encode_pair by assumption.
    rewrite decode_encode_code_point by (unfold scalar; lia).
    rewrite IH. unfold code_units.
    rewrite (proj2 (Z.ltb_ge _ 65536)) by lia.
    cbn [app]. f_equal; [|f_equal]; Z.div_mod_to_equations; lia.
Qed.

Lemma utf8_encode_bytes (s : jsstring) :
  well_formed s = true -> Forall is_byte (utf8_encode s).
Proof.
  revert s. apply well_formed_ind.
  - constructor.
  - intros c rest Hr Hs IH. rewrite utf8_encode_single by assumption.
    apply Forall_app. split; [|exact IH].
    apply encode_code_point_bytes. unfold scalar. lia.
  - intros c d rest Hc Hd IH. rewrite utf8_encode_pair by assumption.
    apply Forall_app. split; [|exact IH].
    apply encode_code_point_bytes. unfold scalar. lia.
Qed.

End Utf8Facts.

(** ** Base64 and the URL-safe alphabet *)

Section Base64Facts.

Import Buffer Jwt Spec.

(** A property checked on every number below [n] holds below [n]. *)
Lemma all_below_spec (n : nat) (p : Z -> bool) :
  all_below n p = true -> forall i, 0 <= i < Z.of_nat n -> p i = true.
Proof.
  unfold all_below. intros H i Hi. rewrite forallb_forall in H. apply H.
  apply in_map_iff. exists (Z.to_nat i). split; [lia|]. apply in_seq. lia.
Qed.

Lemma unbase64_base64_char (v : Z) :
  is_sextet v -> unbase64 (base64_char v) = Some v.
Proof.
  intros H.
  assert (C : match unbase64 (base64_char v) with
              | Some w => w =? v
              | None => false
              end = true).
  { revert v H. apply (all_below_spec 64). vm_compute. reflexivity. }
  destruct (unbase64 (base64_char v)) as [w|]; [|discriminate].
  apply Z.eqb_eq in C. congruence.
Qed.

Lemma base64_char_not_pad (v : Z) : is_sextet v -> (base64_char v =? 61) = false.
Proof.
  intros H. apply negb_true_iff. revert v H.
  apply (all_below_spec 64 (fun v => negb (base64_char v =? 61))).
  vm_compute. reflexivity.
Qed.

(** The translation to the URL-safe alphabet, and back. *)
Lemma base64url_char_spec (v : Z) :
  is_sextet v ->
  (let c := base64_char v in
   let c1 := if c =? 43 then 45 else c in
   if c1 =? 47 then 95 else c1) = base64url_char v
  /\ (base64url_char v =? 61) = false
  /\ (let u := base64url_char v in
      let u1 := if u =? 45 then 43 else u in
      if u1 =? 95 then 47 else u1) = base64_char v.
Proof.
  intros H.
  assert (C : (((let c := base64_char v in
                 let c1 := if c =? 43 then 45 else c in
                 if c1 =? 47 then 95 else c1) =? base64url_char v)
               && negb (base64url_char v =? 61)
               && ((let u := base64url_char v in
                    let u1 := if u =? 45 then 43 else u in
                    if u1 =? 95 then 47 else u1) =? base64_char v)) = true).
  { revert v H. apply (all_below_spec 64). vm_compute. reflexivity. }
  apply andb_true_iff in C as [C C3]. apply andb_true_iff in C as [C1 C2].
  apply Z.eqb_eq in C1, C3. apply negb_true_iff in C2. auto.
Qed.

(** Induction on a list by groups of three. *)
Lemma list_ind3 {A} (P : list A -> Prop) :
  P [] -> (forall a, P [a]) -> (forall a b, P [a; b]) ->
  (forall a b c l, P l -> P (a :: b :: c :: l)) ->
  forall l, P l.
Proof.
  intros H0 H1 H2 H3. fix IH 1.
  intros [|a [|b [|c l]]]; [exact H0 | apply H1 | apply H2 | apply H3; apply IH].
Qed.

Lemma sextets_range (bs : list byte) :
  Forall is_byte bs -> Forall is_sextet (sextets bs).
Proof.
  unfold is_byte, is_sextet. induction bs as [|a|a b|a b c l IH] using list_ind3; intros H.
  - constructor.
  - inversion_clear H. repeat constructor; Z.div_mod_to_equations; lia.
  - inversion_clear H as [|? ? Ha H']. inversion_clear H' as [|? ? Hb _].
    repeat constructor; Z.div_mod_to_equations; lia.
  - inversion_clear H as [|? ? Ha H']. inversion_clear H' as [|? ? Hb H''].
    inversion_clear H'' as [|? ? Hc Hl]. cbn [sextets].
    repeat (constructor; [Z.div_mod_to_equations; lia|]). auto.
Qed.

(** The shape of a base64 text: the characters of the sextets, then the
    padding. *)
Lemma base64_encode_shape (bs : list byte) :
  base64_encode bs = map base64_char (sextets bs) ++ List.repeat 61 (padding bs).
Proof.
  induction bs as [|a|a b|a b c l IH] using list_ind3; try reflexivity.
  cbn [base64_encode sextets padding map app]. rewrite IH. reflexivity.
Qed.

(** The length of a base64 text is a multiple of four, and the padding
    is what is missing from the last group. *)
Lemma padding_spec (bs : list byte) :
  (padding bs <= 2)%nat
  /\ (Z.of_nat (List.length (sextets bs)) + Z.of_nat (padding bs)) mod 4 = 0.
Proof.
  induction bs as [|a|a b|a b c l IH] using list_ind3; try (split; [simpl; lia|reflexivity]).
  destruct IH as [IH1 IH2]. split; [exact IH1|].
  cbn [sextets padding List.length]. rewrite !Nat2Z.inj_succ.
  Z.div_mod_to_equations. lia.
Qed.

(** The decoding loop on the four characters of a full group. *)
Lemma base64_decode_group (s0 s1 s2 s3 : Z) (rest : jsstring) :
  is_sextet s0 -> is_sextet s1 -> is_sextet s2 -> is_sextet s3 ->
  base64_decode_loop
    (base64_char s0 :: base64_char s1 :: base64_char s2 :: base64_char s3 :: rest) []
  = (s0 * 4 + s1 / 16) :: (s1 mod 16 * 16 + s2 / 4) :: (s2 mod 4 * 64 + s3)
      :: base64_decode_loop rest [].
Proof.
  intros H0 H1 H2 H3. cbn [base64_decode_loop].
  rewrite !base64_char_not_pad, !unbase64_base64_char by assumption.
  reflexivity.
Qed.

(** The base64 round trip on bytes. *)
Lemma base64_roundtrip (bs : list byte) :
  Forall is_byte bs -> base64_decode (base64_encode bs) = bs.
Proof.
  unfold base64_decode, is_byte.
  induction bs as [|a|a b|a b c l IH] using list_ind3; intros H.
  - reflexivity.
  - inversion_clear H as [|? ? Ha _]. cbn [base64_encode base64_decode_loop].
    rewrite !base64_char_not_pad, !unbase64_base64_char
      by (unfold is_sextet; Z.div_mod_to_equations; lia).
    rewrite Z.eqb_refl. cbn [app base64_flush]. f_equal. Z.div_mod_to_equations. lia.
  - inversion_clear H as [|? ? Ha H']. inversion_clear H' as [|? ? Hb _].
    cbn [base64_encode base64_decode_loop].
    rewrite !base64_char_not_pad, !unbase64_base64_char
      by (unfold is_sextet; Z.div_mod_to_equations; lia).
    rewrite Z.eqb_refl. cbn [app base64_flush].
    f_equal; [|f_equal]; Z.div_mod_to_equations; lia.
  - inversion_clear H as [|? ? Ha H']. inversion_clear H' as [|? ? Hb H''].
    inversion_clear H'' as [|? ? Hc Hl].
    cbn [base64_encode]. rewrite base64_decode_group
      by (unfold is_sextet; Z.div_mod_to_equations; lia).
    rewrite (IH Hl). f_equal; [|f_equal; [|f_equal]]; Z.div_mod_to_equations; lia.
Qed.

Lemma filter_pad_repeat (k : nat) :
  filter (fun x => negb (x =? 61))
    (map (fun x => if x =? 47 then 95 else x)
       (map (fun x => if x =? 43 then 45 else x) (List.repeat 61 k))) = [].
Proof. induction k as [|k IH]; [reflexivity|exact IH]. Qed.

Lemma filter_pad_sextets (l : list Z) :
  Forall is_sextet l ->
  filter (fun x => negb (x =? 61))
    (map (fun x => if x =? 47 then 95 else x)
       (map (fun x => if x =? 43 then 45 else x) (map base64_char l)))
  = map base64url_char l.
Proof.
  induction 1 as [|v l Hv _ IH]; [reflexivity|].
  destruct (base64url_char_spec v Hv) as (E1 & E2 & _).
  cbn [map filter]. cbv zeta in E1. rewrite E1, E2, IH. reflexivity.
Qed.

(** The URL-safe text of a byte sequence: the URL-safe characters of its
    sextets, with no padding. *)
Lemma base64url_text (bs : list byte) :
  Forall is_byte bs ->
  replace_char 61 []
    (replace_char 47 (lit "_") (replace_char 43 (lit "-") (base64_encode bs)))
  = map base64url_char (sextets bs).
Proof.
  intros H. rewrite base64_encode_shape.
  change (lit "-") with [45]. change (lit "_") with [95].
  rewrite !replace_char_map, replace_char_filter.
  rewrite !map_app, filter_app, filter_pad_repeat, app_nil_r.
  apply filter_pad_sextets. apply sextets_range. assumption.
Qed.

Lemma restore_pad_repeat (k : nat) :
  map (fun x => if x =? 95 then 47 else x)
    (map (fun x => if x =? 45 then 43 else x) (List.repeat 61 k))
  = List.repeat 61 k.
Proof. induction k as [|k IH]; [reflexivity|]. simpl. f_equal. exact IH. Qed.

Lemma restore_sextets (l : list Z) :
  Forall is_sextet l ->
  map (fun x => if x =? 95 then 47 else x)
    (map (fun x => if x =? 45 then 43 else x) (map base64url_char l))
  = map base64_char l.
Proof.
  induction 1 as [|v l Hv _ IH]; [reflexivity|].
  destruct (base64url_char_spec v Hv) as (_ & _ & E3).
  cbn [map]. cbv zeta in E3. rewrite E3, IH. reflexivity.
Qed.

(** The padding that [base64urlDecode] computes from the length of the
    text is the padding that the encoder removed. *)
Lemma padding_restored (bs : list byte) :
  Z.to_nat (Z.rem (4 - Z.rem (length (map base64url_char (sextets bs))) 4) 4)
  = padding bs.
Proof.
  destruct (padding_spec bs) as [Hk Hm].
  unfold length. rewrite length_map.
  set (L := Z.of_nat (List.length (sextets bs))) in *.
  assert (HL : 0 <= L) by (subst L; lia).
  rewrite (Z.rem_mod_nonneg L 4) by lia.
  pose proof (Z.mod_pos_bound L 4 ltac:(lia)).
  rewrite Z.rem_mod_nonneg by lia.
  Z.div_mod_to_equations. lia.
Qed.

(** What [base64urlDecode] hands to the base64 decoder is the base64
    text that the encoder started from. *)
Lemma base64_text_restored (bs : list byte) :
  Forall is_byte bs ->
  let data := map base64url_char (sextets bs) in
  replace_char 95 (lit "/")
    (replace_char 45 (lit "+")
       (data ++ repeat (lit "=") (Z.rem (4 - Z.rem (length data) 4) 4)))
  = base64_encode bs.
Proof.
  intros H data. subst data.
  change (lit "=") with [61]. change (lit "+") with [43]. change (lit "/") with [47].
  rewrite repeat_char, padding_restored.
  rewrite !replace_char_map, !map_app.
  rewrite restore_pad_repeat, restore_sextets by (apply sextets_range; assumption).
  symmetry. apply base64_encode_shape.
Qed.

(** C10. For every well-formed Unicode string [s], decoding its
    base64url encoding gives [s] back; and when the length of the
    encoded form is a multiple of 4, the padding computed by the
    decoder, (4 - length mod 4) mod 4, adds no character. *)
Theorem base64url_roundtrip (s : jsstring) :
  well_formed s = true ->
  base64urlDecode (base64urlEncode (Str s)) = s
  /\ (Z.rem (length (base64urlEncode (Str s))) 4 = 0 ->
      base64urlEncode (Str s)
        ++ repeat (lit "=") (Z.rem (4 - Z.rem (length (base64urlEncode (Str s))) 4) 4)
      = base64urlEncode (Str s)).
Proof.
  intros Hs. split.
  - pose proof (utf8_encode_bytes s Hs) as Hb.
    unfold base64urlDecode, base64urlEncode.
    rewrite base64url_text by assumption.
    rewrite (base64_text_restored (utf8_encode s) Hb).
    rewrite base64_roundtrip by assumption.
    apply utf8_roundtrip. assumption.
  - intros E. rewrite E. change (Z.rem (4 - 0) 4) with 0.
    apply app_nil_r.
Qed.

End Base64Facts.

Section Base64Examples.

Import Buffer Jwt Spec.

(** The theorem of C10 on a string whose encoded form, [YWJj], has a
    length that is a multiple of 4. *)
Lemma base64url_roundtrip_witness :
  base64urlEncode (Str (lit "abc")) = lit "YWJj"
  /\ base64urlDecode (base64urlEncode (Str (lit "abc"))) = lit "abc"
  /\ (Z.rem (length (base64urlEncode (Str (lit "abc")))) 4 = 0 ->
      base64urlEncode (Str (lit "abc"))
        ++ repeat (lit "=")
             (Z.rem (4 - Z.rem (length (base64urlEncode (Str (lit "abc")))) 4) 4)
      = base64urlEncode (Str (lit "abc"))).
Proof.
  split; [reflexivity|].
  apply (base64url_roundtrip (lit "abc")). reflexivity.
Defined.

(** The round trip on a string with an accented letter, the euro sign
    and a character outside the basic plane, whose encoding uses the
    URL-safe character for 62; and the fate of a surrogate without its
    partner, which comes back as U+FFFD. *)
Lemma base64url_examples :
  base64urlEncode (Str [233; 8364; 55357; 56832]) = lit "w6nigqzwn5iA"
  /\ base64urlDecode (lit "w6nigqzwn5iA") = [233; 8364; 55357; 56832]
  /\ base64urlEncode (Str [8364; 55357; 56832; 233]) = lit "4oKs8J-YgMOp"
  /\ base64urlDecode (lit "4oKs8J-YgMOp") = [8364; 55357; 56832; 233]
  /\ well_formed [55357] = false
  /\ base64urlDecode (base64urlEncode (Str [55357])) = [65533].
Proof. repeat apply conj; vm_compute; reflexivity. Qed.

End Base64Examples.

(* ================================================================== *)
(** * Part III: further properties of the code *)
(* ================================================================== *)

(** ** The Code128 split: errors and parts *)

Section SplitMore.

Import CodeFormatter Spec.

Lemma split_errors_differ :
  parts_out_of_range <> code_data_length
  /\ parts_out_of_range <> invalid_parts
  /\ code_data_length <> invalid_parts.
Proof.
  repeat apply conj; intros E; apply (f_equal message) in E; vm_compute in E;
    discriminate.
Qed.

Lemma rule_in_range (p : Z) :
  2 <= p <= 6 -> exists dataPerPart prefix, rule (Num p) = Some (dataPerPart, prefix).
Proof.
  intros H. assert (C : p = 2 \/ p = 3 \/ p = 4 \/ p = 5 \/ p = 6) by lia.
  destruct C as [-> | [-> | [-> | [-> | ->]]]]; simpl; eauto.
Qed.

(** What [splitForCode128] does on every input, in the order of its
    checks. *)
Lemma splitForCode128_cases (codeData : jsstring) (parts : number) :
  match parts with
  | Num p =>
      if (p <? 2) || (6 <? p) then
        splitForCode128 codeData parts = Throw parts_out_of_range
      else if negb (length codeData =? 60) then
        splitForCode128 codeData parts = Throw code_data_length
      else exists r, splitForCode128 codeData parts = Return r
  | NaN =>
      if negb (length codeData =? 60) then
        splitForCode128 codeData parts = Throw code_data_length
      else splitForCode128 codeData parts = Throw invalid_parts
  end.
Proof.
  unfold splitForCode128. destruct parts as [p|]; cbn [lt orb].
  - destruct ((p <? 2) || (6 <? p)) eqn:E; [reflexivity|].
    destruct (negb (length codeData =? 60)); [reflexivity|].
    apply orb_false_iff in E as [E1 E2].
    apply Z.ltb_ge in E1, E2.
    destruct (rule_in_range p ltac:(lia)) as (d & pre & ->). eauto.
  - destruct (negb (length codeData =? 60)); reflexivity.
Qed.


End SplitMore.

Section SplitParts.

Import CodeFormatter Spec.

(** X2. For every payload of 60 characters and every part count n from
    2 to 6, [splitForCode128] returns n strings; the string of index k
    (from 0) is the prefix of the table, the digit k + 1 and the
    characters payload[k * d : (k + 1) * d] for d the data length of the
    table, and every string has the same length, 60 / n. *)
Theorem splitForCode128_parts (payload : jsstring) (n : Z) :
  List.length payload = 60%nat ->
  2 <= n <= 6 ->
  exists parts,
    splitForCode128 payload (Num n) = Return parts
    /\ List.length parts = Z.to_nat n
    /\ forall k, 0 <= k < n ->
         nth (Z.to_nat k) parts []
         = prefix_of n ++ [49 + k]
             ++ slice payload (k * data_per_part n) ((k + 1) * data_per_part n)
         /\ length (nth (Z.to_nat k) parts []) = 60 / n.
Proof.
  intros Hlen Hn.
  assert (C : n = 2 \/ n = 3 \/ n = 4 \/ n = 5 \/ n = 6) by lia.
  destruct C as [-> | [-> | [-> | [-> | ->]]]].
  - eexists. split; [apply splitForCode128_2_parts; assumption|].
    split; [reflexivity|]. intros k Hk.
    assert (K : k = 0 \/ k = 1) by lia.
    destruct K as [-> | ->]; match goal with
      | |- ?l = ?r /\ _ =>
          assert (E : l = r) by reflexivity; split; [exact E|]; rewrite E;
          rewrite part_length by (assumption || (vm_compute; discriminate));
          reflexivity
      end.
  - eexists. split; [apply splitForCode128_3_parts; assumption|].
    split; [reflexivity|]. intros k Hk.
    assert (K : k = 0 \/ k = 1 \/ k = 2) by lia.
    destruct K as [-> | [-> | ->]]; match goal with
      | |- ?l = ?r /\ _ =>
          assert (E : l = r) by reflexivity; split; [exact E|]; rewrite E;
          rewrite part_length by (assumption || (vm_compute; discriminate));
          reflexivity
      end.
  - eexists. split; [apply splitForCode128_4_parts; assumption|].
    split; [reflexivity|]. intros k Hk.
    assert (K : k = 0 \/ k = 1 \/ k = 2 \/ k = 3) by lia.
    destruct K as [-> | [-> | [-> | ->]]]; match goal with
      | |- ?l = ?r /\ _ =>
          assert (E : l = r) by reflexivity; split; [exact E|]; rewrite E;
          rewrite part_length by (assumption || (vm_compute; discriminate));
          reflexivity
      end.
  - eexists. split; [apply splitForCode128_5_parts; assumption|].
    split; [reflexivity|]. intros k Hk.
    assert (K : k = 0 \/ k = 1 \/ k = 2 \/ k = 3 \/ k = 4) by lia.
    destruct K as [-> | [-> | [-> | [-> | ->]]]]; match goal with
      | |- ?l = ?r /\ _ =>
          assert (E : l = r) by reflexivity; split; [exact E|]; rewrite E;
          rewrite part_length by (assumption || (vm_compute; discriminate));
          reflexivity
      end.
  - eexists. split; [apply splitForCode128_6_parts; assumption|].
    split; [reflexivity|]. intros k Hk.
    assert (K : k = 0 \/ k = 1 \/ k = 2 \/ k = 3 \/ k = 4 \/ k = 5) by lia.
    destruct K as [-> | [-> | [-> | [-> | [-> | ->]]]]]; match goal with
      | |- ?l = ?r /\ _ =>
          assert (E : l = r) by reflexivity; split; [exact E|]; rewrite E;
          rewrite part_length by (assumption || (vm_compute; discriminate));
          reflexivity
      end.
Qed.

End SplitParts.

Section SplitPartsExamples.

Import CodeFormatter Spec.

(** The theorem on the parts at the payload of the first test vector,
    split in five. *)
Lemma splitForCode128_parts_witness :
  exists parts,
    splitForCode128 (lit "223175087923687075112234402528973166755123456781508151013321")
      (Num 5)
    = Return parts
    /\ List.length parts = Z.to_nat 5
    /\ forall k, 0 <= k < 5 ->
         nth (Z.to_nat k) parts []
         = prefix_of 5 ++ [49 + k]
             ++ slice (lit "223175087923687075112234402528973166755123456781508151013321")
                  (k * data_per_part 5) ((k + 1) * data_per_part 5)
         /\ length (nth (Z.to_nat k) parts []) = 60 / 5.
Proof.
  apply (splitForCode128_parts
           (lit "223175087923687075112234402528973166755123456781508151013321") 5).
  - reflexivity.
  - lia.
Defined.

End SplitPartsExamples.

(** ** The control character *)

Section ControlCharacter.

Import CodeFormatter Spec.

Lemma control_sum_NaN (s : jsstring) :
  fold_left (fun acc digit => add acc (parseInt_char digit)) s NaN = NaN.
Proof. induction s as [|c s IH]; [reflexivity|exact IH]. Qed.

Lemma control_sum_non_digit (s : jsstring) (acc : number) :
  all_digits s = false ->
  fold_left (fun acc digit => add acc (parseInt_char digit)) s acc = NaN.
Proof.
  unfold all_digits. revert acc. induction s as [|c s IH]; intros acc H; [discriminate|].
  cbn [forallb] in H. cbn [fold_left]. unfold parseInt_char at 2.
  destruct (is_digit c) eqn:Ec.
  - apply IH. exact H.
  - replace (add acc NaN) with NaN by (destruct acc; reflexivity).
    apply control_sum_NaN.
Qed.

(** The control character of any string: the digit of the digit sum
    modulo 10 for a string of digits, and the text NaN as soon as one
    character is not a digit. *)
Lemma calculateControlCharacter_cases (s : jsstring) :
  calculateControlCharacter s
  = if all_digits s then [48 + digit_sum s mod 10] else lit "NaN".
Proof.
  destruct (all_digits s) eqn:E.
  - apply calculateControlCharacter_digits. exact E.
  - unfold calculateControlCharacter. rewrite control_sum_non_digit by exact E.
    reflexivity.
Qed.

(** X4. [calculateControlCharacter] returns one decimal digit, that of
    the sum of the digits modulo 10, exactly when every character of its
    argument is a digit (0 for the empty string); as soon as one
    character is not a digit it returns the three characters NaN. *)
Theorem calculateControlCharacter_result (s : jsstring) :
  calculateControlCharacter s
  = (if all_digits s then [48 + digit_sum s mod 10] else lit "NaN")
  /\ 0 <= digit_sum s mod 10 <= 9
  /\ (List.length (calculateControlCharacter s) = 1%nat <-> all_digits s = true).
Proof.
  split; [apply calculateControlCharacter_cases|].
  split; [pose proof (Z.mod_pos_bound (digit_sum s) 10 ltac:(lia)); lia|].
  rewrite calculateControlCharacter_cases.
  destruct (all_digits s); split; intros H; try reflexivity; discriminate H.
Qed.

Lemma digit_sum_middle (s1 s2 : jsstring) (a : char) :
  digit_sum (s1 ++ a :: s2) = digit_sum s1 + (a - 48) + digit_sum s2.
Proof.
  rewrite digit_sum_app. unfold digit_sum at 2. cbn [fold_right].
  fold (digit_sum s2). lia.
Qed.

Lemma all_digits_middle (s1 s2 : jsstring) (a : char) :
  all_digits (s1 ++ a :: s2) = all_digits s1 && is_digit a && all_digits s2.
Proof.
  rewrite all_digits_app. unfold all_digits. cbn [forallb].
  rewrite andb_assoc. reflexivity.
Qed.

(** X5. The control character detects every change of one digit: two
    strings of digits that differ in exactly one position have
    different control characters. *)
Theorem calculateControlCharacter_single_error (s1 s2 : jsstring) (a b : char) :
  all_digits s1 = true -> all_digits s2 = true ->
  is_digit a = true -> is_digit b = true -> a <> b ->
  calculateControlCharacter (s1 ++ a :: s2) <> calculateControlCharacter (s1 ++ b :: s2).
Proof.
  intros H1 H2 Ha Hb Hab.
  rewrite !calculateControlCharacter_cases, !all_digits_middle, H1, H2, Ha, Hb.
  cbn [andb]. rewrite !digit_sum_middle.
  apply is_digit_range in Ha, Hb.
  pose proof (digit_sum_nonneg s1 H1). pose proof (digit_sum_nonneg s2 H2).
  intros E. apply (f_equal (hd 0)) in E. cbn [hd] in E. apply Hab.
  Z.div_mod_to_equations. lia.
Qed.

Lemma all_digits_permutation (s t : jsstring) :
  Permutation s t -> all_digits s = all_digits t.
Proof.
  unfold all_digits. induction 1 as [|x s t _ IH|x y s|s t u _ IH1 _ IH2]; cbn [forallb].
  - reflexivity.
  - rewrite IH. reflexivity.
  - rewrite !andb_assoc. rewrite (andb_comm (is_digit y)). reflexivity.
  - congruence.
Qed.

Lemma digit_sum_permutation (s t : jsstring) :
  Permutation s t -> digit_sum s = digit_sum t.
Proof.
  unfold digit_sum. induction 1 as [|x s t _ IH|x y s|s t u _ IH1 _ IH2]; cbn [fold_right].
  - reflexivity.
  - rewrite IH. reflexivity.
  - lia.
  - congruence.
Qed.

(** X6. The control character does not depend on the order of the
    characters: any rearrangement of a string, a swap of two digits
    among them, has the same control character, so no transposition is
    detected. *)
Theorem calculateControlCharacter_permutation (s t : jsstring) :
  Permutation s t -> calculateControlCharacter s = calculateControlCharacter t.
Proof.
  intros H. rewrite !calculateControlCharacter_cases.
  rewrite (all_digits_permutation s t H), (digit_sum_permutation s t H). reflexivity.
Qed.

End ControlCharacter.

Section ControlCharacterExamples.

Import CodeFormatter Spec.

(** The change of the first digit of the body of the first test vector
    from 2 to 7 changes its control character. *)
Lemma calculateControlCharacter_single_error_witness :
  calculateControlCharacter
    ([] ++ 50 :: lit "2317508792368707511223440252897316675512345678150815101332")
  <> calculateControlCharacter
       ([] ++ 55 :: lit "2317508792368707511223440252897316675512345678150815101332").
Proof.
  apply (calculateControlCharacter_single_error []
           (lit "2317508792368707511223440252897316675512345678150815101332") 50 55);
    try reflexivity.
  lia.
Defined.

(** The swap of the first two characters of a body keeps its control
    character. *)
Lemma calculateControlCharacter_permutation_witness :
  calculateControlCharacter (50 :: 51 :: lit "175087923687")
  = calculateControlCharacter (51 :: 50 :: lit "175087923687").
Proof.
  apply (calculateControlCharacter_permutation (50 :: 51 :: lit "175087923687")
           (51 :: 50 :: lit "175087923687")).
  apply perm_swap.
Defined.

End ControlCharacterExamples.

(** ** Hexadecimal to decimal, in general *)

Section HexMore.

Import CodeFormatter Spec.

Lemma is_hex_digit_lower (c : char) :
  is_hex_digit (if (65 <=? c) && (c <=? 90) then c + 32 else c) = is_hex_digit c.
Proof.
  destruct ((65 <=? c) && (c <=? 90)) eqn:E; [|reflexivity].
  apply andb_true_iff in E as [E1 E2]. apply Z.leb_le in E1, E2.
  unfold is_hex_digit, is_digit.
  destruct (Z.leb_spec c 70);
    repeat match goal with
           | |- context [?a <=? ?b] =>
               first [ rewrite (proj2 (Z.leb_le a b)) by lia
                     | rewrite (proj2 (Z.leb_gt a b)) by lia ]
           end; reflexivity.
Qed.

Lemma forallb_hex_toLowerCase (s : jsstring) :
  forallb is_hex_digit (toLowerCase s) = forallb is_hex_digit s.
Proof.
  unfold toLowerCase. induction s as [|c s IH]; [reflexivity|].
  cbn [map forallb]. rewrite is_hex_digit_lower, IH. reflexivity.
Qed.

Lemma toLowerCase_nil (s : jsstring) : toLowerCase s = [] <-> s = [].
Proof. destruct s; simpl; split; congruence. Qed.

(** [hexToDecimalPadded] in terms of the stripped string. *)
Lemma hexToDecimalPadded_cases (hex : jsstring) (targetLength : Z) :
  hexToDecimalPadded hex targetLength
  = match strip_spaces hex with
    | [] => Throw (mkError "SyntaxError" (lit "Cannot convert 0x to a BigInt"))
    | _ =>
        if forallb is_hex_digit (strip_spaces hex)
        then Return (padStart (int_toString (hex_number (strip_spaces hex)) 10)
                       targetLength (lit "0"))
        else Throw (mkError "SyntaxError"
                      (lit "Cannot convert 0x" ++ toLowerCase (strip_spaces hex)
                       ++ lit " to a BigInt"))
    end.
Proof.
  unfold hexToDecimalPadded, BigInt_of_hex. fold (strip_spaces hex).
  rewrite forallb_hex_toLowerCase.
  destruct (strip_spaces hex) as [|c rest] eqn:E; [reflexivity|].
  destruct (toLowerCase (c :: rest)) as [|c' rest'] eqn:El; [discriminate|].
  rewrite <- El. destruct (forallb is_hex_digit (c :: rest)) eqn:Eh; [|reflexivity].
  cbn [bind]. change (fold_left _ (toLowerCase (c :: rest)) 0)
    with (hex_number (toLowerCase (c :: rest))).
  rewrite hex_number_toLowerCase by assumption. reflexivity.
Qed.

(** X7. [hexToDecimalPadded] returns exactly when its argument, white
    space removed, is a non-empty string of hexadecimal digits;
    otherwise [BigInt] throws a SyntaxError: for an empty or blank
    argument, a sign, a [0x] prefix or any other character. *)
Theorem hexToDecimalPadded_errors (hex : jsstring) (targetLength : Z) :
  ((exists decimal, hexToDecimalPadded hex targetLength = Return decimal)
   <-> strip_spaces hex <> [] /\ forallb is_hex_digit (strip_spaces hex) = true)
  /\ ((exists e, hexToDecimalPadded hex targetLength = Throw e
                 /\ name e = "SyntaxError"%string)
      <-> strip_spaces hex = [] \/ forallb is_hex_digit (strip_spaces hex) = false).
Proof.
  rewrite hexToDecimalPadded_cases.
  destruct (strip_spaces hex) as [|c rest].
  - split; split.
    + intros [d H]. discriminate.
    + intros [H _]. contradiction.
    + intros _. left. reflexivity.
    + intros _. eexists. split; reflexivity.
  - destruct (forallb is_hex_digit (c :: rest)); split; split.
    + intros _. split; [discriminate|reflexivity].
    + intros _. eexists. reflexivity.
    + intros (e & H & _). discriminate.
    + intros [H|H]; discriminate.
    + intros [d H]. discriminate.
    + intros [_ H]. discriminate.
    + intros _. right. reflexivity.
    + intros _. eexists. split; reflexivity.
Qed.

Lemma decimal_value_zeros (k : nat) (s : jsstring) :
  decimal_value (List.repeat 48 k ++ s) = decimal_value s.
Proof. induction k as [|k IH]; [reflexivity|exact IH]. Qed.

Lemma all_digits_zeros (k : nat) : all_digits (List.repeat 48 k) = true.
Proof. induction k as [|k IH]; [reflexivity|exact IH]. Qed.

(** Reading the rendering of a number gives the number. *)
Lemma decimal_value_int_toString (n : Z) :
  0 <= n -> decimal_value (int_toString n 10) = n.
Proof.
  intros Hn.
  pose proof (digits_fuel_enough 10 ltac:(lia) n Hn) as Hf. unfold digits_fuel in Hf.
  pose proof (int_toString_padded _ n (conj Hn Hf)) as E.
  apply (f_equal decimal_value) in E. rewrite decimal_value_zeros in E.
  rewrite E, decimal_value_fixed_digits. apply Z.mod_small. lia.
Qed.

(** X8. On a non-empty string of hexadecimal digits of any length, in
    either case and with any white space, [hexToDecimalPadded] returns a
    string of decimal digits that denotes the same number; it has at
    least [targetLength] characters and is never cut: a number with more
    digits than [targetLength] is returned whole, and a number below
    10^targetLength gives exactly [targetLength] characters. *)
Theorem hexToDecimalPadded_value (hex : jsstring) (targetLength : Z) :
  strip_spaces hex <> [] ->
  forallb is_hex_digit (strip_spaces hex) = true ->
  exists decimal,
    hexToDecimalPadded hex targetLength = Return decimal
    /\ all_digits decimal = true
    /\ BigInt_of_decimal decimal = Some (hex_number (strip_spaces hex))
    /\ targetLength <= length decimal
    /\ length (int_toString (hex_number (strip_spaces hex)) 10) <= length decimal
    /\ (0 < targetLength -> hex_number (strip_spaces hex) < 10 ^ targetLength ->
        length decimal = targetLength).
Proof.
  intros Hne Hhex. rewrite hexToDecimalPadded_cases, Hhex.
  destruct (strip_spaces hex) as [|c rest] eqn:E; [contradiction|]. rewrite <- E in *.
  set (n := hex_number (strip_spaces hex)).
  assert (Hn : 0 <= n) by (apply hex_number_range; assumption).
  eexists. split; [reflexivity|].
  rewrite padStart_zeros.
  set (k := Z.to_nat (targetLength - length (int_toString n 10))).
  assert (Hd : all_digits (List.repeat 48 k ++ int_toString n 10) = true).
  { rewrite all_digits_app, all_digits_zeros, int_toString_all_digits by assumption.
    reflexivity. }
  assert (Hl : length (List.repeat 48 k ++ int_toString n 10)
               = Z.of_nat k + length (int_toString n 10)).
  { rewrite length_app. unfold length. rewrite repeat_length. reflexivity. }
  pose proof (length_nonneg (int_toString n 10)).
  repeat apply conj.
  - exact Hd.
  - unfold BigInt_of_decimal. rewrite Hd. f_equal.
    rewrite decimal_value_zeros. apply decimal_value_int_toString. assumption.
  - rewrite Hl. subst k. lia.
  - rewrite Hl. lia.
  - intros Hw Hlt. rewrite Hl.
    assert (Hle : length (int_toString n 10) <= targetLength).
    { pose proof (int_toString_length_le (Z.to_nat (targetLength - 1)) n) as L.
      replace (Z.of_nat (S (Z.to_nat (targetLength - 1)))) with targetLength in L by lia.
      specialize (L (conj Hn Hlt)). unfold length. lia. }
    subst k. lia.
Qed.

End HexMore.

Section HexMoreExamples.

Import CodeFormatter Spec.

(** A ZOI in upper case, with spaces between its groups, and a target
    length of 39. *)
Lemma hexToDecimalPadded_value_witness :
  exists decimal,
    hexToDecimalPadded (lit "A7E5F55E 1DBB48B7 99268E1A 6D8618A3") 39 = Return decimal
    /\ all_digits decimal = true
    /\ BigInt_of_decimal decimal
       = Some (hex_number (strip_spaces (lit "A7E5F55E 1DBB48B7 99268E1A 6D8618A3")))
    /\ 39 <= length decimal
    /\ length (int_toString
                 (hex_number (strip_spaces (lit "A7E5F55E 1DBB48B7 99268E1A 6D8618A3")))
                 10)
       <= length decimal
    /\ (0 < 39 ->
        hex_number (strip_spaces (lit "A7E5F55E 1DBB48B7 99268E1A 6D8618A3")) < 10 ^ 39 ->
        length decimal = 39).
Proof.
  apply (hexToDecimalPadded_value (lit "A7E5F55E 1DBB48B7 99268E1A 6D8618A3") 39).
  - vm_compute. discriminate.
  - reflexivity.
Defined.

End HexMoreExamples.

(** ** Tax numbers and dates *)

Section TaxAndDate.

Import JSDate CodeFormatter Spec.

(** X9. [validateTaxNumber] accepts exactly the integers from 10000000
    to 99999999: a number with fewer digits, one that would need
    leading zeros to reach eight, a negative number or NaN is
    refused. *)
Theorem validateTaxNumber_eight_digits (taxNumber : number) :
  validateTaxNumber taxNumber = true
  <-> exists t, taxNumber = Num t /\ 10000000 <= t <= 99999999.
Proof.
  destruct taxNumber as [t|].
  - rewrite validateTaxNumber_spec. split.
    + intros H. exists t. auto.
    + intros (t' & E & H). injection E as <-. exact H.
  - rewrite validateTaxNumber_NaN. split; [discriminate|].
    intros (t & E & _). discriminate.
Qed.

Lemma year_short (y : Z) :
  -10 < y < 10 ->
  List.length (slice_from (number_toString (Num y)) (-2)) = 1%nat
  \/ hd 0 (slice_from (number_toString (Num y)) (-2)) = 45.
Proof.
  intros H.
  assert (C : y = -9 \/ y = -8 \/ y = -7 \/ y = -6 \/ y = -5 \/ y = -4 \/ y = -3
              \/ y = -2 \/ y = -1 \/ y = 0 \/ y = 1 \/ y = 2 \/ y = 3 \/ y = 4
              \/ y = 5 \/ y = 6 \/ y = 7 \/ y = 8 \/ y = 9) by lia.
  repeat (destruct C as [-> | C]; [vm_compute; auto|]). subst y. vm_compute. auto.
Qed.


End TaxAndDate.

Section TaxAndDateExamples.

Import JSDate CodeFormatter Spec.


End TaxAndDateExamples.

(** ** The Code128 strings of an invoice *)

Section CodeStrings.

Import JSDate CodeFormatter CodeGenerator Code128Service FursCodeGenerator Spec.

Variable Date_parse : jsstring -> Date.

Lemma payload_body_digits (zoi : jsstring) (t : Z) (f : fields) :
  all_digits (payload_body zoi t f) = true.
Proof.
  unfold payload_body.
  rewrite !all_digits_app, !fixed_digits_all_digits, date12_all_digits. reflexivity.
Qed.

Lemma payload_digits (zoi : jsstring) (t : Z) (f : fields) :
  all_digits (payload zoi t f) = true.
Proof.
  unfold payload. rewrite all_digits_app, payload_body_digits.
  pose proof (Z.mod_pos_bound (digit_sum (payload_body zoi t f)) 10 ltac:(lia)).
  unfold all_digits. cbn [forallb andb]. rewrite andb_true_r.
  apply is_digit_range. lia.
Qed.

Lemma payload_length (zoi : jsstring) (t : Z) (f : fields) :
  List.length (payload zoi t f) = 60%nat.
Proof.
  unfold payload, payload_body.
  rewrite !List.length_app, !fixed_digits_length, date12_length. reflexivity.
Qed.

Lemma padStart_tax (t : Z) :
  0 <= t <= 99999999 ->
  padStart (number_toString (Num t)) 8 (lit "0") = fixed_digits 10 8 t.
Proof.
  intros H. apply (padStart_int_toString 10 ltac:(lia) 7).
  change (10 ^ Z.of_nat 8) with 100000000. lia.
Qed.

(** The payload that [formatCodeData] returns on valid arguments. *)
Lemma formatCodeData_payload (zoi : jsstring) (t : Z) (date : arg) (f : fields) :
  validateZOI zoi = true -> 0 <= t <= 99999999 ->
  date_object Date_parse date = Valid f -> fields_in_range f ->
  10 <= Z.abs (fullYear f) ->
  formatCodeData Date_parse zoi (Num t) date = Return (payload zoi t f).
Proof.
  intros Hz Ht Hd Hr Hy. unfold formatCodeData.
  rewrite hexToDecimalPadded_zoi by assumption. cbn [bind].
  rewrite padStart_tax by assumption.
  rewrite (formatDateForCode_valid Date_parse date f) by assumption.
  fold (payload_body zoi t f).
  rewrite calculateControlCharacter_digits by apply payload_body_digits.
  reflexivity.
Qed.

Lemma all_digits_firstn (n : nat) (s : jsstring) :
  all_digits s = true -> all_digits (firstn n s) = true.
Proof.
  unfold all_digits. revert n. induction s as [|c s IH]; intros [|n] H; try reflexivity.
  cbn [firstn forallb] in *. apply andb_true_iff in H as [Hc Hs].
  rewrite Hc, IH by assumption. reflexivity.
Qed.

Lemma all_digits_skipn (n : nat) (s : jsstring) :
  all_digits s = true -> all_digits (skipn n s) = true.
Proof.
  unfold all_digits. revert n. induction s as [|c s IH]; intros [|n] H; try reflexivity.
  - exact H.
  - cbn [skipn]. cbn [forallb] in H. apply andb_true_iff in H as [_ Hs]. auto.
Qed.

Lemma all_digits_slice (s : jsstring) (a b : Z) :
  all_digits s = true -> all_digits (slice s a b) = true.
Proof.
  intros H. unfold slice.
  destruct (_ <=? _); [reflexivity|].
  apply all_digits_firstn, all_digits_skipn, H.
Qed.

Lemma part_digits (s prefix seq : jsstring) (a b : Z) :
  all_digits s = true -> all_digits prefix = true -> all_digits seq = true ->
  all_digits (prefix ++ seq ++ slice s a b) = true.
Proof.
  intros Hs Hp Hq. rewrite !all_digits_app, Hp, Hq, all_digits_slice by assumption.
  reflexivity.
Qed.

(** The parts of a payload of 60 digits are strings of digits of the
    same length. *)
Lemma splitForCode128_digit_parts (s : jsstring) (n : Z) :
  List.length s = 60%nat -> all_digits s = true -> 2 <= n <= 6 ->
  exists parts,
    splitForCode128 s (Num n) = Return parts
    /\ List.length parts = Z.to_nat n
    /\ Forall (fun part => all_digits part = true /\ length part = 60 / n) parts.
Proof.
  intros Hlen Hdig Hn.
  assert (C : n = 2 \/ n = 3 \/ n = 4 \/ n = 5 \/ n = 6) by lia.
  destruct C as [-> | [-> | [-> | [-> | ->]]]];
    eexists;
    (split;
     [ first [ apply splitForCode128_2_parts | apply splitForCode128_3_parts
             | apply splitForCode128_4_parts | apply splitForCode128_5_parts
             | apply splitForCode128_6_parts ]; assumption |]);
    (split; [reflexivity|]);
    repeat (constructor;
            [ split;
              [ apply part_digits; (assumption || reflexivity)
              | rewrite part_length by (assumption || lia); reflexivity ] |]);
    constructor.
Qed.

Lemma or_3_effective (o : option FursCode128Options) :
  or_3 (parts match o with Some o' => o' | None => mkCode128Options None end)
  = Num (effective_parts o).
Proof.
  destruct o as [[p]|]; [|reflexivity].
  destruct p as [x|]; [|reflexivity].
  destruct x as [z|]; [|reflexivity].
  destruct z; reflexivity.
Qed.


End CodeStrings.

Section CodeStringsExamples.

Import JSDate CodeFormatter CodeGenerator Code128Service FursCodeGenerator Spec.


End CodeStringsExamples.

(** ** The validation of the invoice data *)

Section InvoiceData.

Import JSDate CodeFormatter CodeGenerator FursCodeGenerator Spec.

Variable Date_parse : jsstring -> Date.

Lemma date_error_differs :
  invalid_date_format <> invalid_zoi /\ invalid_date_format <> invalid_tax_number.
Proof.
  split; intros E; apply (f_equal message) in E; vm_compute in E; discriminate.
Qed.

(** [validateInvoiceData] by the outcome of its three checks. *)
Lemma validateInvoiceData_cases (zoi : jsstring) (taxNumber : number) (date : arg) :
  validateInvoiceData Date_parse zoi taxNumber date
  = if negb (validateZOI zoi) then Throw invalid_zoi
    else if negb (validateTaxNumber taxNumber) then Throw invalid_tax_number
    else match date_object Date_parse date with
         | Valid _ => Return true
         | Invalid => Throw invalid_date_format
         end.
Proof.
  unfold validateInvoiceData.
  destruct (negb (validateZOI zoi)); [reflexivity|].
  destruct (negb (validateTaxNumber taxNumber)); [reflexivity|].
  change (match date with OfDate d => d | OfString s => Date_parse s end)
    with (date_object Date_parse date).
  destruct (date_object Date_parse date); reflexivity.
Qed.

(** X12. [validateInvoiceData] never returns false: it returns true
    exactly when the ZOI is 32 hexadecimal digits, the tax number has
    eight digits and the date is a valid date, and otherwise it throws;
    the error is that of the date format exactly when the ZOI and the
    tax number are valid and the date is not, whatever was thrown inside
    its [try] block. *)
Theorem validateInvoiceData_accepts
  (zoi : jsstring) (taxNumber : number) (date : arg) :
  (validateInvoiceData Date_parse zoi taxNumber date = Return true
   <-> validateZOI zoi = true /\ validateTaxNumber taxNumber = true
       /\ exists f, date_object Date_parse date = Valid f)
  /\ validateInvoiceData Date_parse zoi taxNumber date <> Return false
  /\ (validateInvoiceData Date_parse zoi taxNumber date = Throw invalid_date_format
      <-> validateZOI zoi = true /\ validateTaxNumber taxNumber = true
          /\ date_object Date_parse date = Invalid).
Proof.
  rewrite validateInvoiceData_cases. destruct date_error_differs as [D1 D2].
  destruct (validateZOI zoi); cbn [negb].
  - destruct (validateTaxNumber taxNumber); cbn [negb].
    + destruct (date_object Date_parse date) as [f|].
      * split; [|split].
        -- split; [intros _; repeat split; eauto | intros _; reflexivity].
        -- discriminate.
        -- split; [discriminate | intros (_ & _ & H); discriminate H].
      * split; [|split].
        -- split; [discriminate | intros (_ & _ & f & H); discriminate H].
        -- discriminate.
        -- split; [intros _; auto | intros _; reflexivity].
    + split; [|split].
      * split; [discriminate | intros (_ & H & _); discriminate H].
      * discriminate.
      * split; [|intros (_ & H & _); discriminate H].
        intros H. apply Throw_inj in H. symmetry in H. contradiction.
  - split; [|split].
    + split; [discriminate | intros (H & _); discriminate H].
    + discriminate.
    + split; [|intros (H & _); discriminate H].
      intros H. apply Throw_inj in H. symmetry in H. contradiction.
Qed.

(** X13. [generateCode] does not check the date that
    [validateInvoiceData] checks: with a valid ZOI and tax number and an
    invalid date, [validateInvoiceData] throws, and the entry of
    [generateCode] returns a payload that is not a string of 60 digits:
    it has 67 characters and ends with the text NaN. *)
Theorem generateCode_unchecked_date (zoi : jsstring) (t : Z) (date : arg) :
  validateZOI zoi = true ->
  validateTaxNumber (Num t) = true ->
  date_object Date_parse date = Invalid ->
  validateInvoiceData Date_parse zoi (Num t) date = Throw invalid_date_format
  /\ exists body,
       generateCode_formattedData Date_parse zoi (Num t) date
       = Return (body ++ lit "aNNaNNaNNaNNaNNaN" ++ lit "NaN")
       /\ List.length (body ++ lit "aNNaNNaNNaNNaNNaN" ++ lit "NaN") = 67%nat
       /\ all_digits body = true.
Proof.
  intros Hz Ht Hd. split.
  - rewrite validateInvoiceData_cases, Hz, Ht, Hd. reflexivity.
  - pose proof (proj1 (validateTaxNumber_spec t) Ht) as Htr.
    exists (fixed_digits 10 39 (hex_number zoi) ++ fixed_digits 10 8 t).
    assert (Hb : all_digits (fixed_digits 10 39 (hex_number zoi) ++ fixed_digits 10 8 t)
                 = true).
    { rewrite all_digits_app, !fixed_digits_all_digits. reflexivity. }
    repeat apply conj.
    + unfold generateCode_formattedData, formatCodeData. rewrite Hz, Ht. cbn [negb].
      rewrite hexToDecimalPadded_zoi by assumption. cbn [bind].
      rewrite padStart_tax by lia.
      unfold formatDateForCode.
      change (match date with OfDate d => d | OfString s => Date_parse s end)
        with (date_object Date_parse date).
      rewrite Hd.
      change (slice_from (number_toString (getFullYear Invalid)) (-2)
              ++ padStart (number_toString (add (getMonth Invalid) (Num 1))) 2 (lit "0")
              ++ padStart (number_toString (getDate Invalid)) 2 (lit "0")
              ++ padStart (number_toString (getHours Invalid)) 2 (lit "0")
              ++ padStart (number_toString (getMinutes Invalid)) 2 (lit "0")
              ++ padStart (number_toString (getSeconds Invalid)) 2 (lit "0"))
        with (lit "aNNaNNaNNaNNaNNaN").
      rewrite calculateControlCharacter_cases.
      rewrite !app_assoc, all_digits_app. rewrite andb_false_r.
      rewrite <- !app_assoc. reflexivity.
    + rewrite !List.length_app, !fixed_digits_length. reflexivity.
    + exact Hb.
Qed.

End InvoiceData.

Section InvoiceDataExamples.

Import JSDate CodeFormatter CodeGenerator FursCodeGenerator Spec.

(** The theorem at the ZOI and the tax number of the first test vector,
    with the invalid date. *)
Lemma generateCode_unchecked_date_witness :
  validateInvoiceData (fun _ => Invalid) (lit "a7e5f55e1dbb48b799268e1a6d8618a3")
    (Num 12345678) (OfString (lit "yesterday"))
  = Throw invalid_date_format
  /\ exists body,
       generateCode_formattedData (fun _ => Invalid)
         (lit "a7e5f55e1dbb48b799268e1a6d8618a3") (Num 12345678)
         (OfString (lit "yesterday"))
       = Return (body ++ lit "aNNaNNaNNaNNaNNaN" ++ lit "NaN")
       /\ List.length (body ++ lit "aNNaNNaNNaNNaNNaN" ++ lit "NaN") = 67%nat
       /\ all_digits body = true.
Proof.
  apply (generateCode_unchecked_date (fun _ => Invalid)
           (lit "a7e5f55e1dbb48b799268e1a6d8618a3") 12345678
           (OfString (lit "yesterday"))); reflexivity.
Defined.

End InvoiceDataExamples.

(** ** The certificate information *)

Section CertificateMore.

Import CodeFormatter Certificate Jwt Spec.

Lemma hd_app_nonempty (l m : jsstring) (d : Z) : l <> [] -> hd d (l ++ m) = hd d l.
Proof. destruct l; [contradiction|reflexivity]. Qed.

(** The rendering of a positive number does not start with a zero. *)
Lemma int_toString_leading (k : nat) (n : Z) :
  0 < n < 10 ^ Z.of_nat k -> hd 48 (int_toString n 10) <> 48.
Proof.
  revert n. induction k as [|k IH]; intros n Hn.
  - change (10 ^ Z.of_nat 0) with 1 in Hn. lia.
  - destruct (Z.lt_ge_cases n 10) as [Hs|Hb].
    + rewrite (int_toString_small 10) by lia. cbn [hd].
      rewrite digit_char_decimal by lia. lia.
    + rewrite (int_toString_step 10) by lia.
      assert (Hq : 0 < n / 10 < 10 ^ Z.of_nat k).
      { rewrite Nat2Z.inj_succ, Z.pow_succ_r in Hn by lia.
        Z.div_mod_to_equations. lia. }
      specialize (IH _ Hq).
      rewrite hd_app_nonempty; [exact IH|].
      intros E. rewrite E in IH. apply IH. reflexivity.
Qed.

(** X14. For a certificate whose serial number is a non-empty string of
    hexadecimal digits, [getCertificateInfo] returns; the serial it
    returns is a string of decimal digits that denotes the same number,
    in canonical form (no leading zero, or the single digit 0), the
    subject and issuer names are those of the two attribute lists, and
    the validity dates are those of the certificate. *)
Theorem getCertificateInfo_serial (cert : certificate) :
  serialNumber cert <> [] ->
  forallb is_hex_digit (serialNumber cert) = true ->
  exists info,
    getCertificateInfo cert = Return info
    /\ all_digits (serial info) = true
    /\ BigInt_of_decimal (serial info) = Some (hex_number (serialNumber cert))
    /\ (serial info = lit "0" \/ hd 48 (serial info) <> 48)
    /\ subject_name info = subject_name_of (subject_attributes cert)
    /\ issuer_name info = issuer_name_of (issuer_attributes cert)
    /\ validFrom info = notBefore cert
    /\ validTo info = notAfter cert.
Proof.
  intros Hne Hhex. unfold getCertificateInfo, BigInt_of_hex. rewrite Hhex.
  destruct (serialNumber cert) as [|c rest] eqn:E; [contradiction|]. rewrite <- E in *.
  cbn [bind]. fold (hex_number (serialNumber cert)).
  pose proof (hex_number_range (serialNumber cert) Hhex) as Hr.
  set (n := hex_number (serialNumber cert)) in *.
  eexists. split; [reflexivity|].
  cbn [serial subject_name issuer_name validFrom validTo].
  assert (Hd : all_digits (int_toString n 10) = true)
    by (apply int_toString_all_digits; lia).
  repeat apply conj; try reflexivity.
  - exact Hd.
  - unfold BigInt_of_decimal. rewrite Hd. f_equal.
    apply decimal_value_int_toString. lia.
  - destruct (Z.eq_dec n 0) as [->|Hz]; [left; reflexivity|right].
    apply (int_toString_leading (digits_fuel n)).
    split; [lia|]. apply (digits_fuel_enough 10); lia.
Qed.

Lemma find_skip {A} (p : A -> bool) (l1 l2 : list A) (a : A) :
  p a = false -> find p (l1 ++ a :: l2) = find p (l1 ++ l2).
Proof.
  intros H. induction l1 as [|x l1 IH]; cbn [app find].
  - rewrite H. reflexivity.
  - rewrite IH. reflexivity.
Qed.

Lemma filter_skip {A} (p : A -> bool) (l1 l2 : list A) (a : A) :
  p a = false -> filter p (l1 ++ a :: l2) = filter p (l1 ++ l2).
Proof.
  intros H. rewrite !filter_app. cbn [filter]. rewrite H. reflexivity.
Qed.

Lemma existsb_replace {A} (p : A -> bool) (l1 l2 : list A) (a b : A) :
  p a = p b -> existsb p (l1 ++ a :: l2) = existsb p (l1 ++ b :: l2).
Proof.
  intros H. rewrite !existsb_app. cbn [existsb]. rewrite H. reflexivity.
Qed.

(** The subject name depends on the attribute list through five
    lookups and the presence of the serial number attribute. *)
Lemma subject_name_of_ext (l l' : list attribute) :
  find is_CN l = find is_CN l' ->
  existsb is_serial l = existsb is_serial l' ->
  filter is_OU l = filter is_OU l' ->
  find is_O l = find is_O l' ->
  find is_C l = find is_C l' ->
  subject_name_of l = subject_name_of l'.
Proof.
  unfold is_CN, is_OU, is_O, is_C. intros H1 H2 H3 H4 H5.
  unfold subject_name_of. rewrite H1, H3, H4, H5.
  rewrite !find_existsb in H2. unfold is_serial in H2.
  destruct (find (fun attr => str_eqb (type attr) (lit "2.5.4.5")) l);
    destruct (find (fun attr => str_eqb (type attr) (lit "2.5.4.5")) l');
    try discriminate; reflexivity.
Qed.

(** X15. The subject name looks at the attributes CN, OU, O, C and at
    the one of OID 2.5.4.5 only: an attribute that is none of them (a
    locality, an e-mail address), inserted anywhere in the list, leaves
    the subject name as it is. *)
Theorem subject_name_ignores (l1 l2 : list attribute) (a : attribute) :
  ignored a = true ->
  subject_name_of (l1 ++ a :: l2) = subject_name_of (l1 ++ l2).
Proof.
  unfold ignored. intros H.
  repeat (apply andb_true_iff in H as [H ?]).
  repeat match goal with
         | H : negb _ = true |- _ => apply negb_true_iff in H
         end.
  apply subject_name_of_ext.
  - apply find_skip. assumption.
  - rewrite !existsb_app. cbn [existsb].
    replace (is_serial a) with false by (symmetry; assumption). reflexivity.
  - apply filter_skip. assumption.
  - apply find_skip. assumption.
  - apply find_skip. assumption.
Qed.


(** X17. The issuer name follows the rule of the subject name for CN, O
    and C, without the escaping: on a list with no OU and no serial
    number attribute whose common name is a string without comma, the
    two functions give the same string. *)
Theorem issuer_name_as_subject (l : list attribute) :
  existsb is_serial l = false ->
  filter is_OU l = [] ->
  (forall cn s, find is_CN l = Some cn -> value cn = VString s ->
                includes_char 44 s = false) ->
  issuer_name_of l = subject_name_of l.
Proof.
  unfold is_CN, is_OU. intros Hs Hou Hcn.
  rewrite find_existsb in Hs. unfold is_serial in Hs.
  unfold issuer_name_of, subject_name_of. rewrite Hou. cbn [find].
  destruct (find (fun attr => str_eqb (type attr) (lit "2.5.4.5")) l); [discriminate|].
  destruct (find (has_name (lit "CN") (lit "2.5.4.3")) l) as [cn|]; [|reflexivity].
  destruct (value cn) as [s|r] eqn:Ev; [|reflexivity].
  rewrite (Hcn cn s eq_refl Ev). cbn [render]. reflexivity.
Qed.

End CertificateMore.

Section CertificateMoreExamples.

Import JSDate CodeFormatter Certificate Jwt Spec.

(** A certificate with the serial number 0a3f. *)
Lemma getCertificateInfo_serial_witness :
  let cert :=
    mkCertificate
      [mkAttribute (lit "2.5.4.3") (Some (lit "CN")) (VString (lit "TEST"))]
      [mkAttribute (lit "2.5.4.3") (Some (lit "CN")) (VString (lit "CA"))]
      (lit "0a3f") (Valid (mkFields 2024 0 1 0 0 0)) (Valid (mkFields 2029 0 1 0 0 0)) in
  exists info,
    getCertificateInfo cert = Return info
    /\ all_digits (serial info) = true
    /\ BigInt_of_decimal (serial info) = Some (hex_number (serialNumber cert))
    /\ (serial info = lit "0" \/ hd 48 (serial info) <> 48)
    /\ subject_name info = subject_name_of (subject_attributes cert)
    /\ issuer_name info = issuer_name_of (issuer_attributes cert)
    /\ validFrom info = notBefore cert
    /\ validTo info = notAfter cert.
Proof.
  intros cert. apply (getCertificateInfo_serial cert).
  - discriminate.
  - reflexivity.
Defined.

(** A locality between the common name and the country. *)
Lemma subject_name_ignores_witness :
  subject_name_of
    ([mkAttribute (lit "2.5.4.3") (Some (lit "CN")) (VString (lit "TEST"))]
     ++ mkAttribute (lit "2.5.4.7") (Some (lit "L")) (VString (lit "Ljubljana"))
     :: [mkAttribute (lit "2.5.4.6") (Some (lit "C")) (VString (lit "SI"))])
  = subject_name_of
      ([mkAttribute (lit "2.5.4.3") (Some (lit "CN")) (VString (lit "TEST"))]
       ++ [mkAttribute (lit "2.5.4.6") (Some (lit "C")) (VString (lit "SI"))]).
Proof.
  apply (subject_name_ignores
           [mkAttribute (lit "2.5.4.3") (Some (lit "CN")) (VString (lit "TEST"))]
           [mkAttribute (lit "2.5.4.6") (Some (lit "C")) (VString (lit "SI"))]
           (mkAttribute (lit "2.5.4.7") (Some (lit "L")) (VString (lit "Ljubljana")))).
  reflexivity.
Defined.


(** The attributes of an issuer. *)
Lemma issuer_name_as_subject_witness :
  let l :=
    [mkAttribute (lit "2.5.4.6") (Some (lit "C")) (VString (lit "SI"));
     mkAttribute (lit "2.5.4.10") (Some (lit "O")) (VString (lit "state-institutions"));
     mkAttribute (lit "2.5.4.3") (Some (lit "CN")) (VString (lit "Tax CA Test"))] in
  issuer_name_of l = subject_name_of l.
Proof.
  intros l. apply (issuer_name_as_subject l).
  - reflexivity.
  - reflexivity.
  - intros cn s Hf Hv. injection Hf as <-. injection Hv as <-. reflexivity.
Defined.

End CertificateMoreExamples.

(** ** Loading the certificate bundle *)

Section LoaderFacts.

Import Certificate Jwt CertificateLoader Spec.

Variable PrivateKey : Type.
Variable pkcs12 : list Z -> jsstring -> completion (P12 PrivateKey).
Variable readFileSync : jsstring -> completion (list Z).

(** X18. [loadCertificate] throws nothing but an [Error] whose message
    is the reason of the failure after the prefix "Failed to load
    certificate: ", whatever failed inside: the parse of the bundle, a
    missing certificate or key, or the reading of the certificate. When
    it returns, the bundle was parsed, it holds at least one certificate
    and one key bag, the key is that of the first key bag, the
    information is that of the first certificate, and the count is the
    number of certificate bags. *)
Theorem loadCertificate_outcome (certData : list Z) (password : jsstring) :
  match loadCertificate PrivateKey pkcs12 certData password with
  | Throw e =>
      name e = "Error"%string
      /\ exists cause,
           loadCertificate_try PrivateKey pkcs12 certData password = Throw cause
           /\ message e = lit "Failed to load certificate: " ++ message cause
  | Return loaded =>
      exists p12 bag bags keyBag0 keyBags,
        pkcs12 certData password = Return p12
        /\ certBag PrivateKey p12 = Some (bag :: bags)
        /\ keyBag PrivateKey p12 = Some (keyBag0 :: keyBags)
        /\ key PrivateKey keyBag0 = Some (privateKey PrivateKey loaded)
        /\ getCertificateInfo_bags PrivateKey (bag :: bags)
           = Return (certificateInfo PrivateKey loaded)
        /\ certificateCount PrivateKey loaded = Z.of_nat (List.length (bag :: bags))
  end.
Proof.
  unfold loadCertificate.
  destruct (loadCertificate_try PrivateKey pkcs12 certData password) as [loaded|cause] eqn:E;
    cbn [try_catch].
  - unfold loadCertificate_try in E.
    destruct (pkcs12 certData password) as [p12|e] eqn:Ep; [|discriminate].
    cbn [bind] in E.
    destruct (certBag PrivateKey p12) as [[|bag bags]|] eqn:Ec; try discriminate.
    destruct (keyBag PrivateKey p12) as [[|keyBag0 keyBags]|] eqn:Ek; try discriminate.
    destruct (key PrivateKey keyBag0) as [k|] eqn:Ekey; try discriminate.
    destruct (getCertificateInfo_bags PrivateKey (bag :: bags)) as [info|e] eqn:Ei;
      [|discriminate].
    cbn [bind] in E. injection E as <-.
    exists p12, bag, bags, keyBag0, keyBags. repeat apply conj; auto.
  - split; [reflexivity|]. exists cause. split; reflexivity.
Qed.

(** X19. A failure of [loadCertificate] reaches the caller of the client
    with the prefix twice: [loadCertificateData] wraps the message, which
    already starts with "Failed to load certificate: ", in the same
    prefix again, in a [FursAuthenticationError]. A file that cannot be
    read gets the prefix once. *)
Theorem loadCertificateData_prefix
  (certPath certPassword : jsstring) :
  match readFileSync certPath with
  | Throw e =>
      loadCertificateData PrivateKey pkcs12 readFileSync certPath certPassword
      = Throw (mkError "FursAuthenticationError"
                 (lit "Failed to load certificate: " ++ message e))
  | Return certData =>
      match loadCertificate_try PrivateKey pkcs12 certData certPassword with
      | Throw cause =>
          loadCertificateData PrivateKey pkcs12 readFileSync certPath certPassword
          = Throw (mkError "FursAuthenticationError"
                     (lit "Failed to load certificate: "
                      ++ lit "Failed to load certificate: " ++ message cause))
      | Return loaded =>
          loadCertificateData PrivateKey pkcs12 readFileSync certPath certPassword
          = Return (privateKey PrivateKey loaded, certificateInfo PrivateKey loaded,
                    certData)
      end
  end.
Proof.
  unfold loadCertificateData, loadCertificate.
  destruct (readFileSync certPath) as [certData|e]; [|reflexivity].
  cbn [bind].
  destruct (loadCertificate_try PrivateKey pkcs12 certData certPassword); reflexivity.
Qed.

End LoaderFacts.

(** ** The URL-safe text *)

Section Base64More.

Import Buffer Jwt Spec.

Lemma in_range_byte_cases (c : char) :
  0 <= c < 65536 ->
  (is_high_surrogate c = true /\ 55296 <= c <= 56319)
  \/ (is_high_surrogate c = false /\ is_low_surrogate c = true /\ 56320 <= c <= 57343)
  \/ (is_high_surrogate c = false /\ is_low_surrogate c = false
      /\ ~ (55296 <= c <= 57343)).
Proof.
  intros H. unfold is_high_surrogate, is_low_surrogate.
  destruct (Z.leb_spec 55296 c); destruct (Z.leb_spec c 56319);
    destruct (Z.leb_spec 56320 c); destruct (Z.leb_spec c 57343);
    cbn [andb]; try lia; intuition lia.
Qed.

Lemma replacement_is_bytes : Forall is_byte replacement_bytes.
Proof. unfold is_byte. repeat constructor; lia. Qed.

(** The bytes of any string with code units in range, well formed or
    not. *)
Lemma utf8_encode_in_range (n : nat) (s : jsstring) :
  (List.length s <= n)%nat -> in_range s -> Forall is_byte (utf8_encode s).
Proof.
  unfold in_range. revert s. induction n as [|n IH]; intros s Hlen Hs.
  - destruct s; [constructor|simpl in Hlen; lia].
  - destruct s as [|c rest]; [constructor|].
    inversion_clear Hs as [|? ? Hc Hrest]. cbn [List.length] in Hlen.
    assert (IHrest : Forall is_byte (utf8_encode rest)) by (apply IH; [lia|assumption]).
    cbn [utf8_encode].
    destruct (in_range_byte_cases c Hc) as [[Eh Rh]|[(Eh & El & Rl)|(Eh & El & Rn)]];
      rewrite Eh.
    + destruct rest as [|d rest']; [apply replacement_is_bytes|].
      inversion_clear Hrest as [|? ? Hd Hrest'].
      destruct (is_low_surrogate d) eqn:Ed.
      * apply surrogate_ranges in Ed. apply Forall_app. split.
        -- apply encode_code_point_bytes. unfold scalar. lia.
        -- apply IH; [cbn [List.length] in Hlen; lia|assumption].
      * apply Forall_app. split; [apply replacement_is_bytes|exact IHrest].
    + rewrite El. apply Forall_app. split; [apply replacement_is_bytes|exact IHrest].
    + rewrite El. apply Forall_app. split; [|exact IHrest].
      apply encode_code_point_bytes. unfold scalar. lia.
Qed.

Lemma base64url_char_alphabet (v : Z) :
  is_sextet v -> is_base64url (base64url_char v) = true.
Proof.
  revert v. apply (all_below_spec 64 (fun v => is_base64url (base64url_char v))).
  vm_compute. reflexivity.
Qed.

Lemma base64url_text_alphabet (l : list Z) :
  Forall is_sextet l -> forallb is_base64url (map base64url_char l) = true.
Proof.
  induction 1 as [|v l Hv _ IH]; [reflexivity|].
  cbn [map forallb]. rewrite base64url_char_alphabet, IH by assumption. reflexivity.
Qed.

Lemma sextets_length (bs : list byte) :
  Z.of_nat (List.length (sextets bs)) = (4 * Z.of_nat (List.length bs) + 2) / 3.
Proof.
  induction bs as [|a|a b|a b c l IH] using list_ind3; try reflexivity.
  cbn [sextets List.length]. rewrite !Nat2Z.inj_succ, IH.
  Z.div_mod_to_equations. lia.
Qed.

End Base64More.

Section Base64Url.

Import Buffer Jwt Spec.

Lemma valid_input_bytes (i : input) : valid_input i -> Forall is_byte (bytes_of i).
Proof.
  destruct i as [s|b]; cbn [valid_input bytes_of]; intros H; [|exact H].
  apply (utf8_encode_in_range (List.length s)); [lia|exact H].
Qed.

Lemma base64urlEncode_text (i : input) :
  valid_input i -> base64urlEncode i = map base64url_char (sextets (bytes_of i)).
Proof.
  intros H. apply valid_input_bytes in H.
  destruct i as [s|b]; unfold base64urlEncode, forge_encode64; cbn [bytes_of] in *;
    apply base64url_text; assumption.
Qed.

(** X20. The text that [base64urlEncode] returns for a string with code
    units in range, or for a buffer of bytes, is made of letters,
    digits, [-] and [_] only (so it holds no [.], [+], [/] or [=]), and
    for n bytes of input it has (4n + 2) / 3 characters, rounded
    down. *)
Theorem base64urlEncode_alphabet (i : input) :
  valid_input i ->
  forallb is_base64url (base64urlEncode i) = true
  /\ length (base64urlEncode i) = (4 * length (bytes_of i) + 2) / 3.
Proof.
  intros H. rewrite base64urlEncode_text by assumption.
  apply valid_input_bytes in H. split.
  - apply base64url_text_alphabet, sextets_range. assumption.
  - unfold length. rewrite length_map. apply sextets_length.
Qed.

Lemma standard_char_kept (v : Z) :
  is_sextet v ->
  (let c := base64_char v in
   let c1 := if c =? 45 then 43 else c in
   if c1 =? 95 then 47 else c1) = base64_char v.
Proof.
  intros H.
  assert (C : ((let c := base64_char v in
                let c1 := if c =? 45 then 43 else c in
                if c1 =? 95 then 47 else c1) =? base64_char v) = true).
  { revert v H.
    apply (all_below_spec 64
             (fun v => ((let c := base64_char v in
                         let c1 := if c =? 45 then 43 else c in
                         if c1 =? 95 then 47 else c1) =? base64_char v))).
    vm_compute. reflexivity. }
  apply Z.eqb_eq in C. exact C.
Qed.

Lemma standard_text_kept (l : list Z) :
  Forall is_sextet l ->
  map (fun x => if x =? 95 then 47 else x)
    (map (fun x => if x =? 45 then 43 else x) (map base64_char l))
  = map base64_char l.
Proof.
  induction 1 as [|v l Hv _ IH]; [reflexivity|].
  cbn [map]. rewrite IH. f_equal. apply (standard_char_kept v Hv).
Qed.

Lemma base64_encode_length (bs : list byte) :
  Z.rem (length (base64_encode bs)) 4 = 0.
Proof.
  rewrite base64_encode_shape. unfold length.
  rewrite List.length_app, length_map, repeat_length, Nat2Z.inj_add.
  destruct (padding_spec bs) as [_ H].
  rewrite Z.rem_mod_nonneg by lia. exact H.
Qed.

(** X21. [base64urlDecode] also reads ordinary base64 with its padding:
    given the standard base64 text of the UTF-8 bytes of a well-formed
    string, it returns that string. *)
Theorem base64urlDecode_standard (s : jsstring) :
  well_formed s = true ->
  base64urlDecode (base64_encode (utf8_encode s)) = s.
Proof.
  intros Hs. pose proof (utf8_encode_bytes s Hs) as Hb.
  unfold base64urlDecode. rewrite base64_encode_length.
  change (repeat (lit "=") (Z.rem (4 - 0) 4)) with (@nil Z). rewrite app_nil_r.
  change (lit "+") with [43]. change (lit "/") with [47].
  rewrite !replace_char_map, base64_encode_shape, !map_app.
  rewrite restore_pad_repeat, standard_text_kept by (apply sextets_range; assumption).
  rewrite <- base64_encode_shape, base64_roundtrip by assumption.
  apply utf8_roundtrip. assumption.
Qed.

End Base64Url.

Section Base64UrlExamples.

Import Buffer Jwt Spec.

Lemma base64urlEncode_alphabet_witness :
  valid_input (Str [55357])
  /\ base64urlEncode (Str [55357]) = lit "77-9"
  /\ forallb is_base64url (base64urlEncode (Str [55357])) = true
  /\ length (base64urlEncode (Str [55357]))
     = (4 * length (bytes_of (Str [55357])) + 2) / 3.
Proof.
  assert (H : valid_input (Str [55357])).
  { cbn [valid_input]. unfold in_range. repeat constructor; lia. }
  split; [exact H|]. split; [reflexivity|].
  apply (base64urlEncode_alphabet (Str [55357])). exact H.
Defined.

Lemma base64urlDecode_standard_witness :
  well_formed (lit "a") = true
  /\ base64_encode (utf8_encode (lit "a")) = lit "YQ=="
  /\ base64urlDecode (base64_encode (utf8_encode (lit "a"))) = lit "a".
Proof.
  split; [reflexivity|]. split; [reflexivity|].
  apply (base64urlDecode_standard (lit "a")). reflexivity.
Defined.

End Base64UrlExamples.

(** ** A created token, decoded *)

Section EscapeFacts.

Import Buffer Jwt Spec.

Lemma well_formed_ascii_app (a t : jsstring) :
  Forall (fun c => 0 <= c < 128) a -> well_formed (a ++ t) = well_formed t.
Proof.
  induction 1 as [|c a Hc _ IH]; [reflexivity|].
  cbn [app well_formed]. unfold is_high_surrogate, is_low_surrogate.
  rewrite (proj2 (Z.leb_gt 55296 c)) by lia.
  rewrite (proj2 (Z.leb_gt 56320 c)) by lia.
  rewrite (proj2 (Z.leb_le 0 c)) by lia.
  rewrite (proj2 (Z.ltb_lt c 65536)) by lia.
  cbn [andb negb]. exact IH.
Qed.

Lemma well_formed_single (c : char) (t : jsstring) :
  0 <= c < 65536 -> is_high_surrogate c = false -> is_low_surrogate c = false ->
  well_formed (c :: t) = well_formed t.
Proof.
  intros Hc Eh El. cbn [well_formed]. rewrite Eh, El.
  rewrite (proj2 (Z.leb_le 0 c)) by lia.
  rewrite (proj2 (Z.ltb_lt c 65536)) by lia. reflexivity.
Qed.

Lemma digit_char_ascii (d : Z) : 0 <= d < 16 -> 0 <= digit_char d < 128.
Proof. intros H. unfold digit_char. destruct (d <? 10); lia. Qed.

Lemma fixed_digits_ascii (w : nat) (v : Z) :
  Forall (fun c => 0 <= c < 128) (fixed_digits 16 w v).
Proof.
  revert v. induction w as [|w IH]; intros v; [constructor|].
  cbn [fixed_digits]. apply Forall_app. split; [apply IH|].
  constructor; [|constructor]. apply digit_char_ascii.
  apply Z.mod_pos_bound. lia.
Qed.

Lemma unicode_escape_ascii (c : char) :
  0 <= c < 65536 -> Forall (fun c => 0 <= c < 128) (unicode_escape c).
Proof.
  intros Hc. unfold unicode_escape.
  change 4 with (Z.of_nat 4).
  rewrite (padStart_int_toString 16 ltac:(lia) 3 c) by (change (16 ^ Z.of_nat 4) with 65536; lia).
  apply Forall_app. split; [|apply fixed_digits_ascii].
  repeat constructor; vm_compute; intuition discriminate.
Qed.

(** The text between the quotes of a JSON string is well formed when
    the code units of the string are in range: a surrogate without its
    partner is written as an escape. *)
Lemma JSON_escape_well_formed (n : nat) (s t : jsstring) :
  (List.length s <= n)%nat -> in_range s ->
  well_formed (JSON_escape s ++ t) = well_formed t.
Proof.
  unfold in_range. revert s. induction n as [|n IH]; intros s Hlen Hs.
  - destruct s; [reflexivity|simpl in Hlen; lia].
  - destruct s as [|c rest]; [reflexivity|].
    inversion_clear Hs as [|? ? Hc Hrest]. cbn [List.length] in Hlen.
    assert (IHrest : well_formed (JSON_escape rest ++ t) = well_formed t)
      by (apply IH; [lia|assumption]).
    assert (A : forall a, Forall (fun c => 0 <= c < 128) a ->
                well_formed ((a ++ JSON_escape rest) ++ t) = well_formed t).
    { intros a Ha. rewrite <- app_assoc, well_formed_ascii_app by assumption.
      exact IHrest. }
    assert (U : Forall (fun c => 0 <= c < 128) (unicode_escape c))
      by (apply unicode_escape_ascii; assumption).
    cbn [JSON_escape].
    destruct (c =? 8); [apply A; repeat constructor; lia|].
    destruct (c =? 9); [apply A; repeat constructor; lia|].
    destruct (c =? 10); [apply A; repeat constructor; lia|].
    destruct (c =? 12); [apply A; repeat constructor; lia|].
    destruct (c =? 13); [apply A; repeat constructor; lia|].
    destruct (c =? 34); [apply A; repeat constructor; lia|].
    destruct (c =? 92); [apply A; repeat constructor; lia|].
    destruct (c <? 32); [apply A; exact U|].
    destruct (is_high_surrogate c) eqn:Eh.
    + destruct rest as [|d rest'].
      * rewrite well_formed_ascii_app by exact U. reflexivity.
      * destruct (is_low_surrogate d) eqn:Ed; [|apply A; exact U].
        inversion_clear Hrest as [|? ? Hd Hrest'].
        cbn [app well_formed]. rewrite Eh, Ed. cbn [andb].
        apply IH; [cbn [List.length] in Hlen; lia|assumption].
    + destruct (is_low_surrogate c) eqn:El; [apply A; exact U|].
      cbn [app]. rewrite well_formed_single by assumption. exact IHrest.
Qed.

Lemma JSON_quote_well_formed (s t : jsstring) :
  in_range s -> well_formed (JSON_quote s ++ t) = well_formed t.
Proof.
  intros Hs. unfold JSON_quote. rewrite <- !app_assoc.
  rewrite (well_formed_ascii_app [34]) by (repeat constructor; lia).
  rewrite (JSON_escape_well_formed (List.length s)) by (assumption || lia).
  apply (well_formed_ascii_app [34]). repeat constructor; lia.
Qed.

Lemma lit_in_range_alg : in_range (lit "RS256").
Proof. unfold in_range. repeat constructor; vm_compute; intuition discriminate. Qed.

(** The JSON text of a header is well formed. *)
Lemma JSON_stringify_header_well_formed (h : JWTHeader) :
  in_range (alg h) -> in_range (h_subject_name h) -> in_range (h_issuer_name h) ->
  in_range (h_serial h) ->
  well_formed (JSON_stringify_header h) = true.
Proof.
  intros Ha Hs Hi Hn. unfold JSON_stringify_header.
  assert (L : forall a t, forallb (fun c => (0 <=? c) && (c <? 128)) a = true ->
              well_formed (a ++ t) = well_formed t).
  { intros a t H. apply well_formed_ascii_app. apply Forall_forall. intros x Hx.
    rewrite forallb_forall in H. specialize (H x Hx). lia. }
  assert (Q : forall a t, forallb (fun c => (0 <=? c) && (c <? 128)) a = true ->
              well_formed (JSON_quote a ++ t) = well_formed t).
  { intros a t H. apply JSON_quote_well_formed. apply Forall_forall. intros x Hx.
    rewrite forallb_forall in H. specialize (H x Hx). lia. }
  rewrite (L (lit "{")), (Q (lit "alg")), (L (lit ":")) by reflexivity.
  rewrite JSON_quote_well_formed by assumption.
  rewrite (L (lit ",")), (Q (lit "subject_name")), (L (lit ":")) by reflexivity.
  rewrite JSON_quote_well_formed by assumption.
  rewrite (L (lit ",")), (Q (lit "issuer_name")), (L (lit ":")) by reflexivity.
  rewrite JSON_quote_well_formed by assumption.
  rewrite (L (lit ",")), (Q (lit "serial")), (L (lit ":")) by reflexivity.
  rewrite JSON_quote_well_formed by assumption.
  reflexivity.
Qed.

End EscapeFacts.

Section SegmentFacts.

Import Buffer Jwt Spec.

Lemma split_char_segment (sep : char) (a rest : jsstring) :
  includes_char sep a = false ->
  split_char sep (a ++ sep :: rest) = a :: split_char sep rest.
Proof.
  unfold includes_char. induction a as [|c a IH]; intros H.
  - cbn [app split_char]. rewrite Z.eqb_refl. reflexivity.
  - cbn [existsb] in H. apply orb_false_iff in H as [Hc Ha].
    cbn [app split_char]. rewrite Hc, (IH Ha). reflexivity.
Qed.

Lemma split_char_whole (sep : char) (a : jsstring) :
  includes_char sep a = false -> split_char sep a = [a].
Proof.
  unfold includes_char. induction a as [|c a IH]; intros H; [reflexivity|].
  cbn [existsb] in H. apply orb_false_iff in H as [Hc Ha].
  cbn [split_char]. rewrite Hc, (IH Ha). reflexivity.
Qed.

Lemma base64url_no_dot (s : jsstring) :
  forallb is_base64url s = true -> includes_char 46 s = false.
Proof.
  unfold includes_char. induction s as [|c s IH]; [reflexivity|].
  cbn [forallb existsb]. intros H. apply andb_true_iff in H as [Hc Hs].
  rewrite (IH Hs), orb_false_r. unfold is_base64url in Hc.
  destruct (Z.eqb_spec c 46) as [->|]; [discriminate Hc|reflexivity].
Qed.

Lemma base64urlEncode_no_dot (i : input) :
  valid_input i -> includes_char 46 (base64urlEncode i) = false.
Proof.
  intros H. apply base64url_no_dot. rewrite base64urlEncode_text by assumption.
  apply base64url_text_alphabet, sextets_range, valid_input_bytes. assumption.
Qed.

Lemma well_formed_in_range (s : jsstring) : well_formed s = true -> in_range s.
Proof.
  unfold in_range. revert s. apply well_formed_ind.
  - constructor.
  - intros c rest Hc _ IH. constructor; assumption.
  - intros c d rest Hc Hd IH. constructor; [lia|]. constructor; [lia|assumption].
Qed.

Lemma base64urlDecode_encode (s : jsstring) :
  well_formed s = true -> base64urlDecode (base64urlEncode (Str s)) = s.
Proof.
  intros Hs. pose proof (utf8_encode_bytes s Hs) as Hb.
  unfold base64urlDecode, base64urlEncode.
  rewrite base64url_text by assumption.
  rewrite (base64_text_restored (utf8_encode s) Hb).
  rewrite base64_roundtrip by assumption.
  apply utf8_roundtrip. assumption.
Qed.

Lemma low_bytes (l : list Z) : Forall is_byte (map (fun c => c mod 256) l).
Proof.
  induction l as [|c l IH]; constructor; [|exact IH].
  unfold is_byte. apply Z.mod_pos_bound. lia.
Qed.

End SegmentFacts.

Section CreatedToken.

Import Buffer Jwt Spec.

Variable any : Type.
Variable JSON_stringify : any -> option jsstring.
Variable JSON_parse : jsstring -> completion any.
Variable empty_object : any.
Variable PrivateKey : Type.
Variable sign_sha256 : PrivateKey -> list byte -> jsstring.

(** X22. A token made by [createJWT] is read back by [decodeJWT]. When
    the fields of the certificate information have code units in range
    and the payload has a well-formed JSON text, [createJWT] returns a
    token that [split('.')] cuts into exactly three segments: the
    encoded header text, the encoded payload text and a signature
    segment in the URL-safe alphabet. If [JSON.parse] reads the header
    text and the payload text, [decodeJWT] returns those two values
    with the signature segment, [valid: true] and no error. *)
Theorem createJWT_decodeJWT (payload : any) (key : PrivateKey)
  (info : CertificateInfo) (p : jsstring) :
  in_range (subject_name info) -> in_range (issuer_name info) ->
  in_range (serial info) ->
  JSON_stringify payload = Some p -> well_formed p = true ->
  let h := JSON_stringify_header
             (mkJWTHeader (lit "RS256") (subject_name info) (issuer_name info)
                (serial info)) in
  exists jwt sig,
    createJWT any JSON_stringify PrivateKey sign_sha256 payload key info = Return jwt
    /\ split_char 46 jwt = [base64urlEncode (Str h); base64urlEncode (Str p); sig]
    /\ forallb is_base64url sig = true
    /\ forall hv pv,
         JSON_parse h = Return hv -> JSON_parse p = Return pv ->
         decodeJWT any JSON_parse empty_object jwt
         = Return (mkJWTDecoded any hv pv sig true None).
Proof.
  intros Hs Hi Hn Ep Hp h.
  assert (Hh : well_formed h = true).
  { apply JSON_stringify_header_well_formed; try assumption. apply lit_in_range_alg. }
  set (eh := base64urlEncode (Str h)). set (ep := base64urlEncode (Str p)).
  set (sig := base64urlEncode
                (Buf (map (fun c => c mod 256)
                        (sign_sha256 key (utf8_encode (eh ++ lit "." ++ ep)))))).
  assert (Vh : valid_input (Str h)) by (apply well_formed_in_range; exact Hh).
  assert (Vp : valid_input (Str p)) by (apply well_formed_in_range; exact Hp).
  assert (Vs : valid_input
                 (Buf (map (fun c => c mod 256)
                         (sign_sha256 key (utf8_encode (eh ++ lit "." ++ ep))))))
    by apply low_bytes.
  assert (S3 : split_char 46 ((eh ++ lit "." ++ ep) ++ lit "." ++ sig) = [eh; ep; sig]).
  { rewrite <- app_assoc. change (lit ".") with [46]. cbn [app].
    rewrite split_char_segment by (apply base64urlEncode_no_dot; exact Vh).
    rewrite split_char_segment by (apply base64urlEncode_no_dot; exact Vp).
    rewrite split_char_whole by (apply base64urlEncode_no_dot; exact Vs).
    reflexivity. }
  exists ((eh ++ lit "." ++ ep) ++ lit "." ++ sig), sig. repeat apply conj.
  - unfold createJWT. rewrite Ep. reflexivity.
  - exact S3.
  - subst sig. rewrite base64urlEncode_text by exact Vs.
    apply base64url_text_alphabet, sextets_range, valid_input_bytes. exact Vs.
  - intros hv pv Eh Epv. unfold decodeJWT, decodeJWT_try. rewrite S3.
    subst eh ep. rewrite !base64urlDecode_encode by assumption.
    rewrite Eh, Epv. reflexivity.
Qed.

End CreatedToken.

Section CreatedTokenExamples.

Import Buffer Jwt Spec.

(** The round trip with the text of a payload as its value, a parser
    that returns the text it is given and a signing function that
    returns three bytes. *)
Lemma createJWT_decodeJWT_witness :
  let info := mkCertificateInfo (lit "CN=a") (lit "CN=b") (lit "1")
                JSDate.Invalid JSDate.Invalid in
  let h := JSON_stringify_header
             (mkJWTHeader (lit "RS256") (lit "CN=a") (lit "CN=b") (lit "1")) in
  exists jwt sig,
    createJWT jsstring Some unit (fun _ _ => [1; 2; 3]) (lit "{}") tt info = Return jwt
    /\ split_char 46 jwt = [base64urlEncode (Str h); base64urlEncode (Str (lit "{}")); sig]
    /\ forallb is_base64url sig = true
    /\ forall hv pv,
         Return h = Return hv -> Return (lit "{}") = Return pv ->
         decodeJWT jsstring (@Return jsstring) [] jwt
         = Return (mkJWTDecoded jsstring hv pv sig true None).
Proof.
  intros info h.
  apply (createJWT_decodeJWT jsstring Some (@Return jsstring) [] unit
           (fun _ _ => [1; 2; 3]) (lit "{}") tt info (lit "{}")).
  - unfold in_range. repeat constructor; vm_compute; intuition discriminate.
  - unfold in_range. repeat constructor; vm_compute; intuition discriminate.
  - unfold in_range. repeat constructor; vm_compute; intuition discriminate.
  - reflexivity.
  - reflexivity.
Defined.

End CreatedTokenExamples.
